(** * ctx_guard evaluation harness: execution, classification and scoring

    A shallow embedding of [evals/quality/runner.py] and
    [evals/speed/runner.py].

    Conventions of the embedding.
    - Python [str] is [string]; a character is a code point below 256.
    - Python [float] values of the scoring rubric and of the wall clock are
      exact rationals ([Q]); the rubric's corner values are re-computed in
      IEEE binary64 ([spec_float]) in [Binary64Check].  The size factor of
      the speed runner is a binary64 value or an integer, as JSON gives it.
    - [subprocess.run] is an oracle [sh]: it maps the history of the run, the
      command line handed to [sh -c] and the timeout to what the child
      process did.  The partial output carried by [TimeoutExpired] is
      [bytes], also under [text=True], as it is on POSIX, where [sh] is.
    - A call into the operating system outside the child process (a path
      test, reading a challenge, creating, writing, measuring and removing
      the test file) may raise: an oracle [fault] says when, and with what.
    - Effects (spawned processes, printed notices, temporary files, result
      rows, the clock) are threaded through a state-and-exception monad. *)

From Stdlib Require Import Bool Arith ZArith QArith Lia Lqa List Ascii String.
From Stdlib Require Import SpecFloat DecimalString.
Import ListNotations.

Local Open Scope list_scope.
Local Open Scope string_scope.

(* ================================================================== *)
(** * Python string operations used by the runners *)
(* ================================================================== *)

Module PyStr.

(** [c.isspace()] for a code point below 256. *)
Definition is_space (c : ascii) : bool :=
  let n := N_of_ascii c in
  ((9 <=? n) && (n <=? 13) || (28 <=? n) && (n <=? 32)
   || (n =? 133) || (n =? 160))%N.

(** [c.lower()] for a code point below 256. *)
Definition lower_char (c : ascii) : ascii :=
  let n := N_of_ascii c in
  if ((65 <=? n) && (n <=? 90)
      || (192 <=? n) && (n <=? 222) && negb (n =? 215))%N
  then ascii_of_N (n + 32) else c.

(** [s.lower()] *)
Fixpoint lower (s : string) : string :=
  match s with
  | EmptyString => EmptyString
  | String c s' => String (lower_char c) (lower s')
  end.

(** Truthiness of a string: [bool(s)]. *)
Definition nonempty (s : string) : bool :=
  match s with EmptyString => false | String _ _ => true end.

(** [s.lstrip()] *)
Fixpoint lstrip (s : string) : string :=
  match s with
  | EmptyString => EmptyString
  | String c s' => if is_space c then lstrip s' else s
  end.

(** [s.rstrip()] *)
Fixpoint rstrip (s : string) : string :=
  match s with
  | EmptyString => EmptyString
  | String c s' =>
      let r := rstrip s' in
      if negb (nonempty r) && is_space c then EmptyString else String c r
  end.

(** [s.strip()] *)
Definition strip (s : string) : string := rstrip (lstrip s).

(** [Some r] when [s = p + r]: the text of [s] after the prefix [p]. *)
Fixpoint drop_prefix (p s : string) : option string :=
  match p, s with
  | EmptyString, _ => Some s
  | String _ _, EmptyString => None
  | String a p', String b s' =>
      if Ascii.eqb a b then drop_prefix p' s' else None
  end.

(** [p in s] *)
Fixpoint contains (p s : string) : bool :=
  match drop_prefix p s with
  | Some _ => true
  | None =>
      match s with
      | EmptyString => false
      | String _ s' => contains p s'
      end
  end.

(** [s.partition(sep)] without the separator: the text before and after
    the leftmost occurrence of [sep], if there is one. *)
Fixpoint split1 (sep s : string) : option (string * string) :=
  match drop_prefix sep s with
  | Some rest => Some (EmptyString, rest)
  | None =>
      match s with
      | EmptyString => None
      | String c s' =>
          match split1 sep s' with
          | Some (a, b) => Some (String c a, b)
          | None => None
          end
      end
  end.

(** [s.split(sep)] for a non-empty [sep]: cut at the leftmost occurrence,
    then split what follows.  Every cut consumes at least one character,
    so [length s] rounds are enough. *)
Fixpoint split_fuel (fuel : nat) (sep s : string) : list string :=
  match fuel with
  | O => [s]
  | S fuel' =>
      match split1 sep s with
      | None => [s]
      | Some (a, b) => a :: split_fuel fuel' sep b
      end
  end.

Definition split (sep s : string) : list string :=
  split_fuel (String.length s) sep s.

(** [sep.join(parts)] *)
Fixpoint join (sep : string) (parts : list string) : string :=
  match parts with
  | [] => EmptyString
  | [p] => p
  | p :: rest => p ++ sep ++ join sep rest
  end.

(** [s * n] *)
Fixpoint repeat_nat (s : string) (n : nat) : string :=
  match n with
  | O => EmptyString
  | S n' => s ++ repeat_nat s n'
  end.

Definition mul (s : string) (n : Z) : string := repeat_nat s (Z.to_nat n).

(** The line feed character and the one-character string ['\n']. *)
Definition LF : ascii := ascii_of_N 10.
Definition nl : string := String LF EmptyString.

(** The double-quote character. *)
Definition DQ : ascii := ascii_of_N 34.

(** The apostrophe. *)
Definition SQ : ascii := ascii_of_N 39.

End PyStr.

(* ================================================================== *)
(** * Challenges and the quality scorer *)
(* ================================================================== *)

(** A challenge is a JSON object read with [dict.get]; a missing key is
    [None] and takes the default given at the point of use. *)
Record Challenge : Type := mkChallenge {
  command : option string;
  expected_issue : option string;
  expected_solution : option string;
  key_phrases : option (list string)
}.

(** [d.get(key, default)] on an optional field. *)
Definition get {A : Type} (field : option A) (default : A) : A :=
  match field with Some v => v | None => default end.

(** The dict returned by [evaluate_summary_quality]. *)
Record Evaluation : Type := mkEvaluation {
  can_solve : bool;
  quality_score : Q;
  issue_found : bool;
  solution_found : bool;
  phrase_coverage : Q;
  phrases_found : nat;
  total_phrases : nat
}.

(** [int / int] and [len(...)] as rationals. *)
Definition Qnat (n : nat) : Q := inject_Z (Z.of_nat n).

Module Scorer.
Import PyStr.

(** [sum(1 for phrase in key_phrases if phrase.lower() in summary_lower)] *)
Fixpoint count_phrases (summary_lower : string) (phrases : list string) : nat :=
  match phrases with
  | [] => O
  | phrase :: rest =>
      (if contains (lower phrase) summary_lower then 1 else 0)
      + count_phrases summary_lower rest
  end.

(** The three [+=] steps on [quality_score] (runner.py, lines 107-112). *)
Definition score (issue_found solution_found : bool) (phrase_coverage : Q) : Q :=
  let q0 := 0.0%Q in
  let q1 := if issue_found then (q0 + 0.4)%Q else q0 in
  let q2 := if solution_found then (q1 + 0.4)%Q else q1 in
  (q2 + phrase_coverage * 0.2)%Q.

Definition evaluate_summary_quality (summary : string) (challenge : Challenge)
  : Evaluation :=
  let expected_issue := lower (get (expected_issue challenge) "") in
  let expected_solution := lower (get (expected_solution challenge) "") in
  let key_phrases := get (key_phrases challenge) [] in
  let summary_lower := lower summary in
  let issue_found :=
    if nonempty expected_issue then contains expected_issue summary_lower
    else true in
  let solution_found :=
    if nonempty expected_solution then contains expected_solution summary_lower
    else true in
  let phrases_found := count_phrases summary_lower key_phrases in
  let phrase_coverage :=
    match key_phrases with
    | [] => 1.0%Q
    | _ :: _ => (Qnat phrases_found / Qnat (List.length key_phrases))%Q
    end in
  let quality_score := score issue_found solution_found phrase_coverage in
  let can_solve := Qle_bool 0.7 quality_score in
  {| can_solve := can_solve;
     quality_score := quality_score;
     issue_found := issue_found;
     solution_found := solution_found;
     phrase_coverage := phrase_coverage;
     phrases_found := phrases_found;
     total_phrases := List.length key_phrases |}.

End Scorer.

(* ================================================================== *)
(** * The shell: [shlex.quote] and how [sh -c] reads a command line *)
(* ================================================================== *)

Module Shell.
Import PyStr.

(** The characters [shlex.quote] leaves alone: [[\w@%+=:,./-]] under
    [re.ASCII]. *)
Definition is_safe_char (c : ascii) : bool :=
  let n := N_of_ascii c in
  ((48 <=? n) && (n <=? 57) || (65 <=? n) && (n <=? 90)
   || (97 <=? n) && (n <=? 122) || (n =? 95) || (n =? 64) || (n =? 37)
   || (n =? 43) || (n =? 61) || (n =? 58) || (n =? 44) || (n =? 46)
   || (n =? 47) || (n =? 45))%N.

(** [_find_unsafe(s) is None] *)
Fixpoint all_safe (s : string) : bool :=
  match s with
  | EmptyString => true
  | String c s' => is_safe_char c && all_safe s'
  end.

(** What an apostrophe becomes inside single quotes: close the quotes, an
    apostrophe in double quotes, open the quotes again. *)
Definition sq_escape : string :=
  String SQ (String DQ (String SQ (String DQ (String SQ EmptyString)))).

(** [s.replace("'", sq_escape)] *)
Fixpoint escape_apostrophes (s : string) : string :=
  match s with
  | EmptyString => EmptyString
  | String c s' =>
      if Ascii.eqb c SQ then sq_escape ++ escape_apostrophes s'
      else String c (escape_apostrophes s')
  end.

(** [shlex.quote(s)] *)
Definition quote (s : string) : string :=
  if negb (nonempty s) then "''"
  else if all_safe s then s
  else "'" ++ escape_apostrophes s ++ "'".

(** ** Literal reading of a command line

    The quoting rules of the POSIX shell, as far as they decide whether a
    command line is a plain list of words.  [literal_words] returns the words
    when every character is either quoted or an ordinary character, and
    [None] as soon as the shell would interpret something: an operator, an
    expansion, an escape, a line break or an unterminated quote. *)

Inductive quoting : Type := Bare | Single | Double.

(** Word separators. *)
Definition is_blank (c : ascii) : bool :=
  let n := N_of_ascii c in ((n =? 32) || (n =? 9))%N.

(** Characters the shell interprets when they stand unquoted:
    [| & ; < > ( ) $ ` \ * ? [ # ~ ! { }] and the line feed. *)
Definition is_meta (c : ascii) : bool :=
  let n := N_of_ascii c in
  ((n =? 124) || (n =? 38) || (n =? 59) || (n =? 60) || (n =? 62)
   || (n =? 40) || (n =? 41) || (n =? 36) || (n =? 96) || (n =? 92)
   || (n =? 42) || (n =? 63) || (n =? 91) || (n =? 35) || (n =? 126)
   || (n =? 33) || (n =? 123) || (n =? 125) || (n =? 10))%N.

(** Characters the shell still interprets inside double quotes: [$ ` \]. *)
Definition is_meta_in_double (c : ascii) : bool :=
  let n := N_of_ascii c in ((n =? 36) || (n =? 96) || (n =? 92))%N.

(** The word being read, if one has started. *)
Definition close_word (cur : option string) (ws : list string) : list string :=
  match cur with Some w => w :: ws | None => ws end.

Definition open_word (cur : option string) : option string :=
  Some (match cur with Some w => w | None => EmptyString end).

Definition add_char (cur : option string) (c : ascii) : option string :=
  Some ((match cur with Some w => w | None => EmptyString end)
        ++ String c EmptyString).

Fixpoint literal_words (q : quoting) (cur : option string) (line : string)
  : option (list string) :=
  match line with
  | EmptyString =>
      match q with
      | Bare => Some (close_word cur [])
      | Single | Double => None
      end
  | String c rest =>
      match q with
      | Bare =>
          if is_blank c then
            option_map (close_word cur) (literal_words Bare None rest)
          else if Ascii.eqb c SQ then literal_words Single (open_word cur) rest
          else if Ascii.eqb c DQ then literal_words Double (open_word cur) rest
          else if is_meta c then None
          else literal_words Bare (add_char cur c) rest
      | Single =>
          if Ascii.eqb c SQ then literal_words Bare cur rest
          else literal_words Single (add_char cur c) rest
      | Double =>
          if Ascii.eqb c DQ then literal_words Bare cur rest
          else if is_meta_in_double c then None
          else literal_words Double (add_char cur c) rest
      end
  end.

(** The word in progress after reading the plain text [s]. *)
Definition extend (cur : option string) (s : string) : option string :=
  match s with
  | EmptyString => cur
  | String _ _ => Some ((match cur with Some w => w | None => EmptyString end) ++ s)
  end.

(** The argument vector [sh -c line] runs, when [line] is literal. *)
Definition sh_words (line : string) : option (list string) :=
  literal_words Bare None line.

End Shell.

(* ================================================================== *)
(** * Processes, events and the harness monad *)
(* ================================================================== *)

(** The arguments of one [subprocess.run(["sh", "-c", cg_command], ...)]. *)
Record Invocation : Type := mkInvocation {
  cmdline : string;
  cwd : string;
  timeout : Z
}.

(** [subprocess.CompletedProcess], as far as the runners read it. *)
Record CompletedProcess : Type := mkCompletedProcess {
  stdout : string;
  stderr : string;
  returncode : Z
}.

(** What [subprocess.run] did: it returned a [CompletedProcess], or it
    raised [TimeoutExpired] carrying the output captured so far: for each
    stream the bytes read, or [None] when none were read. *)
Inductive proc_outcome : Type :=
| Completed (result : CompletedProcess)
| TimedOut (partial_stdout partial_stderr : option string).

(** The exceptions of a run: the one the runners handle by name, with the
    bytes it carries; those Python raises on the way; and whatever else a
    call into the operating system raises, by the name of its class. *)
Inductive exn : Type :=
| TimeoutExpired (inv : Invocation) (stdout stderr : option string)
| TypeError
| OverflowError
| ValueError
| OtherException (class_name message : string).

(** The calls into the operating system, besides running a child process. *)
Inductive os_call : Type :=
| PathExists (path : string)
| LoadChallenge (name : string)
| MakeTemp
| WriteTemp (name : string) (size : Z)
| GetSize (name : string)
| RemoveFile (name : string).

(** The arguments of the quality runner's [write_result_file], one CSV row. *)
Record ResultRow : Type := mkResultRow {
  row_model : string;
  row_config_file : string;
  row_challenge : string;
  row_can_solve : bool;
  row_needs_full_output : bool;
  row_quality_score : Q;
  row_summary : string;
  row_exit_code : Z
}.

(** The texts the runners print, by the place that prints them. *)
Inductive notice : Type :=
| InfoRetryWithoutForce
| WarnNoChallenges
| Starting (models challenges : list string)
| EvaluationComplete
| WarnNoConfigFiles (model : string)
| WarnConfigMissing (path : string)
| EvaluatingModel (model config_file : string)
| WarnNoCommand (challenge : string)
| ChallengeStart (challenge : string)
| QualityLine (quality_score : Q) (can_solve : bool)
| ErrorLine (e : exn).

(** Everything a run does to the outside world, in order. *)
Inductive event : Type :=
| Spawn (inv : Invocation)
| Print (n : notice)
| WriteFile (name content : string)
| Row (r : ResultRow).

Definition trace : Type := list event.
Bind Scope list_scope with trace.

(** The outside world: what a child process does, what the clock shows, which
    name a new temporary file gets, how a config file name resolves, whether
    the path exists, whether a call into the operating system raises, and
    how many characters reach a test file whose writing fails -- each given
    the history of the run. *)
Record Env : Type := mkEnv {
  sh : trace -> Invocation -> proc_outcome;
  now : trace -> Q;
  mktemp : trace -> string;
  config_path : string -> string;
  path_exists : trace -> string -> bool;
  fault : trace -> os_call -> option exn;
  torn : trace -> Z
}.

(** A computation returns a value or raises. *)
Inductive res (A : Type) : Type :=
| Ok (a : A)
| Raise (e : exn).
Arguments Ok {A} a.
Arguments Raise {A} e.

Module Harness.

Definition M (A : Type) : Type := trace -> res A * trace.

Definition ret {A : Type} (a : A) : M A := fun tr => (Ok a, tr).

Definition bind {A B : Type} (m : M A) (k : A -> M B) : M B :=
  fun tr =>
    match m tr with
    | (Ok a, tr') => k a tr'
    | (Raise e, tr') => (Raise e, tr')
    end.

(** [try: m  except ... as e: handler(e)] *)
Definition try_except {A : Type} (m : M A) (handler : exn -> M A) : M A :=
  fun tr =>
    match m tr with
    | (Ok a, tr') => (Ok a, tr')
    | (Raise e, tr') => handler e tr'
    end.

Definition emit (e : event) : M unit := fun tr => (Ok tt, (tr ++ [e])%list).

(** [raise e] *)
Definition raise {A : Type} (e : exn) : M A := fun tr => (Raise e, tr).

(** The result of a pure computation that may raise. *)
Definition of_res {A : Type} (r : res A) : M A := fun tr => (r, tr).

(** [print(...)] *)
Definition print (n : notice) : M unit := emit (Print n).

(** [for x in xs: body(x)] *)
Fixpoint for_each {A : Type} (xs : list A) (body : A -> M unit) : M unit :=
  match xs with
  | [] => ret tt
  | x :: xs' => bind (body x) (fun _ => for_each xs' body)
  end.

(** The child processes a trace has spawned, oldest first. *)
Fixpoint spawns (tr : trace) : list Invocation :=
  match tr with
  | [] => []
  | Spawn inv :: tr' => inv :: spawns tr'
  | _ :: tr' => spawns tr'
  end.

(** The rows a trace has written. *)
Fixpoint rows (tr : trace) : list ResultRow :=
  match tr with
  | [] => []
  | Row r :: tr' => r :: rows tr'
  | _ :: tr' => rows tr'
  end.

End Harness.

Declare Scope harness_scope.
Delimit Scope harness_scope with harness.
Notation "x <- m ;; k" := (Harness.bind m (fun x => k))
  (at level 61, m at next level, right associativity) : harness_scope.
Notation "' pat <- m ;; k" :=
  (Harness.bind m (fun x => match x with pat => k end))
  (at level 61, pat pattern, m at next level, right associativity)
  : harness_scope.
Notation "m ;;; k" := (Harness.bind m (fun _ => k))
  (at level 61, right associativity) : harness_scope.

(** [TIMEOUT_SECONDS] *)
Definition TIMEOUT_SECONDS : Z := 300.

(** A value that is a [str] or a [bytes]. *)
Inductive text_or_bytes : Type :=
| Str (s : string)
| Bytes (b : string).

(** [x or ""] on the partial output of [TimeoutExpired]: the bytes captured,
    or the empty text when there are none. *)
Definition or_empty (o : option string) : text_or_bytes :=
  match o with
  | Some b => if PyStr.nonempty b then Bytes b else Str EmptyString
  | None => Str EmptyString
  end.

Module PyBytes.
Import PyStr.

Definition BACKSLASH : ascii := ascii_of_N 92.

Definition hex_digit (n : N) : ascii :=
  ascii_of_N (if (n <? 10)%N then 48 + n else 87 + n).

(** One byte inside [repr(b)]. *)
Definition repr_byte (quote c : ascii) : string :=
  let n := N_of_ascii c in
  if Ascii.eqb c quote || Ascii.eqb c BACKSLASH
  then String BACKSLASH (String c EmptyString)
  else if (n =? 9)%N then String BACKSLASH "t"
  else if (n =? 10)%N then String BACKSLASH "n"
  else if (n =? 13)%N then String BACKSLASH "r"
  else if ((n <? 32) || (127 <=? n))%N
  then String BACKSLASH
         (String "x" (String (hex_digit (n / 16)) (String (hex_digit (n mod 16))
                                                     EmptyString)))
  else String c EmptyString.

Fixpoint repr_bytes (quote : ascii) (b : string) : string :=
  match b with
  | EmptyString => EmptyString
  | String c b' => repr_byte quote c ++ repr_bytes quote b'
  end.

(** [repr(b)] of a [bytes]: apostrophes around it, or double quotes when it
    holds an apostrophe and no double quote. *)
Definition repr (b : string) : string :=
  let quote :=
    if contains (String SQ EmptyString) b && negb (contains (String DQ EmptyString) b)
    then DQ else SQ in
  String "b" (String quote (repr_bytes quote b ++ String quote EmptyString)).

(** [f"{x}"] of a text or of bytes. *)
Definition show (x : text_or_bytes) : string :=
  match x with
  | Str s => s
  | Bytes b => repr b
  end.

End PyBytes.

(** [x < y] on rationals. *)
Definition Qlt_bool (x y : Q) : bool := negb (Qle_bool y x).

(* ================================================================== *)
(** * The process invoker shared by both runners *)
(* ================================================================== *)

Module Invoker.
Import PyStr Harness.

(** The command line both [execute] closures build. *)
Definition cg_command (config_file command : string) (use_force : bool) : string :=
  let force_flag := if use_force then "--force-summary" else "" in
  strip ("cg -c " ++ Shell.quote config_file ++ " " ++ force_flag ++ " " ++ command).

(** [subprocess.run(["sh", "-c", cg_command], capture_output=True, text=True,
    cwd=cwd, timeout=timeout)] *)
Definition subprocess_run (env : Env) (inv : Invocation) : M CompletedProcess :=
  fun tr =>
    let tr' := (tr ++ [Spawn inv])%list in
    match sh env tr inv with
    | Completed result => (Ok result, tr')
    | TimedOut out err => (Raise (TimeoutExpired inv out err), tr')
    end.

(** The fallback test of both runners on the lower-cased combined output. *)
Definition mentions_force_flag (combined : string) : bool :=
  contains "unexpected argument '--force-summary'" combined
  || contains "--force-summary" combined.

(** A call into the operating system: it raises when the oracle says so. *)
Definition attempt (env : Env) (call : os_call) : M unit :=
  fun tr =>
    match fault env tr call with
    | Some e => (Raise e, tr)
    | None => (Ok tt, tr)
    end.

(** [path.exists()] *)
Definition exists_ (env : Env) (path : string) : M bool :=
  bind (attempt env (PathExists path))
    (fun _ tr => (Ok (path_exists env tr path), tr)).

End Invoker.

(* ================================================================== *)
(** * evals/quality/runner.py *)
(* ================================================================== *)

Module Quality.
Import PyStr Harness Invoker Scorer.
Local Open Scope harness_scope.

(** The [for line in stdout.split('\n')] loop of [run_command]. *)
Fixpoint scan_lines (lines : list string) : option string :=
  match lines with
  | [] => None
  | line :: rest =>
      if contains "complete output is available at" line then
        let parts := split "available at " line in
        if (1 <? List.length parts)%nat
        then Some (strip (nth 1 parts EmptyString))
        else None
      else scan_lines rest
  end.

Definition output_file_of (stdout : string) : option string :=
  scan_lines (split nl stdout).

Definition used_raw_output_of (stdout : string) : bool :=
  let summary_lower := lower stdout in
  contains "output shorter than" summary_lower
  && contains "returning raw output" summary_lower.

(** [(e.stdout or "") + "\n" + (e.stderr or "")] of the [except] clause:
    adding a text to bytes, or bytes to a text, raises [TypeError], so the
    sum is a text only when nothing was captured on either stream. *)
Definition timeout_stdout (out err : option string) : res string :=
  match or_empty out, or_empty err with
  | Str a, Str b => Ok (a ++ nl ++ b)
  | _, _ => Raise TypeError
  end.

(** The Invocation Result [run_command] goes on with after the first
    attempt: the process result, or what the [except] clause assigns, when
    it does not raise. *)
Definition recorded (o : proc_outcome) : res CompletedProcess :=
  match o with
  | Completed result => Ok result
  | TimedOut out err =>
      match timeout_stdout out err with
      | Ok text => Ok {| stdout := text; stderr := EmptyString; returncode := 124 |}
      | Raise e => Raise e
      end
  end.

(** The two nested tests that guard the retry. *)
Definition wants_retry (force_summary : bool) (first : CompletedProcess) : bool :=
  negb (returncode first =? 0)%Z && force_summary
  && mentions_force_flag (lower (stdout first ++ nl ++ stderr first)).

(** The tuple [run_command] returns for a terminal Invocation Result. *)
Definition classify (terminal : CompletedProcess)
  : string * Z * option string * bool :=
  (stdout terminal, returncode terminal,
   output_file_of (stdout terminal), used_raw_output_of (stdout terminal)).

Section WithEnv.
Variable env : Env.

Definition execute (config_file command cwd : string) (timeout : Z)
  (use_force : bool) : M (string * string * Z) :=
  let cg_command := cg_command config_file command use_force in
  result <- subprocess_run env (mkInvocation cg_command cwd timeout) ;;
  ret (stdout result, stderr result, returncode result).

Definition run_command (config_file command cwd : string) (timeout : Z)
  (force_summary : bool) : M (string * Z * option string * bool) :=
  '(stdout, stderr, exit_code) <-
    try_except (execute config_file command cwd timeout force_summary)
      (fun e =>
         match e with
         | TimeoutExpired _ out err =>
             stdout <- of_res (timeout_stdout out err) ;;
             ret (stdout, EmptyString, 124%Z)
         | other => raise other
         end) ;;
  '(stdout, stderr, exit_code) <-
    (if negb (exit_code =? 0)%Z && force_summary then
       let combined := lower (stdout ++ nl ++ stderr) in
       if mentions_force_flag combined then
         print InfoRetryWithoutForce ;;;
         execute config_file command cwd timeout false
       else ret (stdout, stderr, exit_code)
     else ret (stdout, stderr, exit_code)) ;;
  let output_file := output_file_of stdout in
  let used_raw_output := used_raw_output_of stdout in
  ret (stdout, exit_code, output_file, used_raw_output).

(** The [if used_raw_output: ... else: ...] block of
    [run_quality_evaluation]: the evaluation and [needs_full_output]. *)
Definition assess (used_raw_output : bool) (stdout : string)
  (challenge : Challenge) : Evaluation * bool :=
  if used_raw_output then
    ({| can_solve := false;
        quality_score := 0.0%Q;
        issue_found := false;
        solution_found := false;
        phrase_coverage := 0.0%Q;
        phrases_found := 0;
        total_phrases := List.length (get (key_phrases challenge) []) |},
     true)
  else
    let evaluation := evaluate_summary_quality stdout challenge in
    (evaluation, Qlt_bool (quality_score evaluation) 0.5).

(** The body of [for challenge_file in challenge_files]. *)
Definition run_challenge (repo_root model_name config_file config_path_full : string)
  (challenge_name : string) (challenge : Challenge) : M unit :=
  let command := get (command challenge) "" in
  if negb (nonempty command) then print (WarnNoCommand challenge_name)
  else
    print (ChallengeStart challenge_name) ;;;
    try_except
      ('(stdout, exit_code, output_file, used_raw_output) <-
         run_command config_path_full command repo_root TIMEOUT_SECONDS true ;;
       let '(evaluation, needs_full_output) :=
         assess used_raw_output stdout challenge in
       print (QualityLine (quality_score evaluation) (can_solve evaluation)) ;;;
       emit (Row {| row_model := model_name;
                    row_config_file := config_file;
                    row_challenge := challenge_name;
                    row_can_solve := can_solve evaluation;
                    row_needs_full_output := needs_full_output;
                    row_quality_score := quality_score evaluation;
                    row_summary := stdout;
                    row_exit_code := exit_code |}))
      (fun e => print (ErrorLine e)).

(** [load_challenge(challenge_file)], outside any [try]: it raises, or it
    returns what the file holds.  A file that holds no JSON object counts
    as one whose loading raises: the [challenge.get] that follows, outside
    the [try] too, raises on it. *)
Definition load_challenge (challenge_name : string) (held : Challenge) : M Challenge :=
  attempt env (LoadChallenge challenge_name) ;;;
  ret held.

(** The body of [for config_file in config_files]. *)
Definition run_config (repo_root model_name : string)
  (challenges : list (string * Challenge)) (config_file : string) : M unit :=
  let config_path_full := config_path env config_file in
  found <- exists_ env config_path_full ;;
  if negb found
  then print (WarnConfigMissing config_path_full)
  else
    print (EvaluatingModel model_name config_file) ;;;
    for_each challenges
      (fun '(challenge_name, held) =>
         challenge <- load_challenge challenge_name held ;;
         run_challenge repo_root model_name config_file config_path_full
           challenge_name challenge).

(** The body of [for model_name, model_config in models.items()]. *)
Definition run_model (repo_root : string) (challenges : list (string * Challenge))
  (model : string * list string) : M unit :=
  let '(model_name, config_files) := model in
  match config_files with
  | [] => print (WarnNoConfigFiles model_name)
  | _ :: _ => for_each config_files (run_config repo_root model_name challenges)
  end.

(** [run_quality_evaluation], from the loaded configuration and the
    name-sorted challenge files on, each given with the challenge it holds.
    Creating the result file and writing its header line are left out; a row
    is the [Row] event. *)
Definition run_quality_evaluation (repo_root : string)
  (models : list (string * list string))
  (challenges : list (string * Challenge)) : M unit :=
  match challenges with
  | [] => print WarnNoChallenges
  | _ :: _ =>
      print (Starting (map fst models) (map fst challenges)) ;;;
      for_each models (run_model repo_root challenges) ;;;
      print EvaluationComplete
  end.

End WithEnv.
End Quality.

(* ================================================================== *)
(** * The scoring rubric in IEEE binary64 *)
(* ================================================================== *)

Module Binary64.

Definition prec : Z := 53.
Definition emax : Z := 1024.

(** The literals of the runners as binary64 reads them. *)
Definition f0_0 : spec_float := S754_zero false.
Definition f0_1 : spec_float := S754_finite false 7205759403792794 (-56).
Definition f0_2 : spec_float := S754_finite false 7205759403792794 (-55).
Definition f0_4 : spec_float := S754_finite false 7205759403792794 (-54).
Definition f0_5 : spec_float := S754_finite false 4503599627370496 (-53).
Definition f0_7 : spec_float := S754_finite false 6305039478318694 (-53).
Definition f1_0 : spec_float := S754_finite false 4503599627370496 (-52).
Definition f0_29 : spec_float := S754_finite false 5224175567749775 (-54).
Definition f1e308 : spec_float := S754_finite false 5010420900022432 971.

(** [float(n)] for a count. *)
Definition of_nat (n : nat) : spec_float :=
  binary_normalize prec emax (Z.of_nat n) 0 false.

Definition phrase_coverage (phrases_found total_phrases : nat) : spec_float :=
  match total_phrases with
  | O => f1_0
  | S _ => SFdiv prec emax (of_nat phrases_found) (of_nat total_phrases)
  end.

Definition score (issue_found solution_found : bool) (phrase_coverage : spec_float)
  : spec_float :=
  let q0 := f0_0 in
  let q1 := if issue_found then SFadd prec emax q0 f0_4 else q0 in
  let q2 := if solution_found then SFadd prec emax q1 f0_4 else q1 in
  SFadd prec emax q2 (SFmul prec emax phrase_coverage f0_2).

Definition can_solve (quality_score : spec_float) : bool := SFleb f0_7 quality_score.

Definition needs_full_output (quality_score : spec_float) : bool :=
  SFltb quality_score f0_5.

(** Every count of found phrases for every total up to [n]. *)
Definition ratios_up_to (n : nat) : list (nat * nat) :=
  flat_map (fun total => map (fun found => (found, total)) (seq 0 (S total)))
    (seq 0 (S n)).

Definition in_unit_interval (x : spec_float) : bool := SFleb f0_0 x && SFleb x f1_0.

(** The rational phrase coverage for the same counts. *)
Definition rational_coverage (phrases_found total_phrases : nat) : Q :=
  match total_phrases with
  | O => 1.0%Q
  | S _ => (Qnat phrases_found / Qnat total_phrases)%Q
  end.

(** The four combinations of issue_found and solution_found. *)
Definition found_flags : list (bool * bool) :=
  [(false, false); (false, true); (true, false); (true, true)].

(** [float(n)] for an integer. *)
Definition of_Z (n : Z) : spec_float := binary_normalize prec emax n 0 false.

(** [int(x)]: truncation towards zero; [None] where Python raises. *)
Definition to_int (x : spec_float) : option Z :=
  match x with
  | S754_zero _ => Some 0%Z
  | S754_finite s m e =>
      let magnitude :=
        if (0 <=? e)%Z then (Zpos m * 2 ^ e)%Z else Z.quot (Zpos m) (2 ^ (- e)) in
      Some (if s then (- magnitude)%Z else magnitude)
  | S754_infinity _ | S754_nan => None
  end.

(** [int(size_factor * max_tokens)] of [write_test_file]. *)
Definition size (max_tokens : Z) (size_factor : spec_float) : option Z :=
  to_int (SFmul prec emax size_factor (of_Z max_tokens)).

End Binary64.

(* ================================================================== *)
(** * evals/speed/runner.py *)
(* ================================================================== *)

Module Speed.
Import PyStr Harness Invoker.
Local Open Scope harness_scope.

(** A JSON number as Python reads it: an [int] or a [float]. *)
Inductive number : Type :=
| PyInt (n : Z)
| PyFloat (x : spec_float).

(** [int(x)] of a float: truncation towards zero; [ValueError] on a NaN and
    [OverflowError] on an infinity. *)
Definition int_of_float (x : spec_float) : res Z :=
  match Binary64.to_int x, x with
  | Some n, _ => Ok n
  | None, S754_nan => Raise ValueError
  | None, _ => Raise OverflowError
  end.

(** [float(n)] of an integer, as the product with a float converts it:
    [OverflowError] when it is too large. *)
Definition float_of_int (n : Z) : res spec_float :=
  match Binary64.of_Z n with
  | S754_infinity _ => Raise OverflowError
  | x => Ok x
  end.

(** [int(size_factor * max_tokens)]: with a float factor the product is
    taken in binary64. *)
Definition size_of (max_tokens : Z) (size_factor : number) : res Z :=
  match size_factor with
  | PyInt n => Ok (n * max_tokens)%Z
  | PyFloat x =>
      match float_of_int max_tokens with
      | Raise e => Raise e
      | Ok y => int_of_float (SFmul Binary64.prec Binary64.emax x y)
      end
  end.

(** [str(n)] *)
Definition str_of_int (n : Z) : string :=
  DecimalString.NilZero.string_of_int (Z.to_int n).

(** The two nested tests that guard the retry. *)
Definition wants_retry (force_summary : bool) (first : CompletedProcess) : bool :=
  negb (returncode first =? 0)%Z && force_summary
  && mentions_force_flag (lower (stdout first ++ nl ++ stderr first)).

(** The message the [except] clause returns in place of the output; bytes
    appear in it as [repr] shows them. *)
Definition timeout_message (timeout : Z) (out err : option string) : string :=
  "Command timed out after " ++ str_of_int timeout
  ++ "s. stdout: " ++ PyBytes.show (or_empty out)
  ++ " stderr: " ++ PyBytes.show (or_empty err).

Section WithEnv.
Variable env : Env.

(** [time.time()] *)
Definition time : M Q := fun tr => (Ok (now env tr), tr).

(** [write_test_file]: the size is computed, the temporary file is created,
    and the text is built and written.  When building or writing fails the
    file stays, with the characters that reached it. *)
Definition write_test_file (max_tokens : Z) (size_factor : number) : M string :=
  size <- of_res (size_of max_tokens size_factor) ;;
  attempt env MakeTemp ;;;
  fun tr =>
    let name := mktemp env tr in
    match fault env tr (WriteTemp name size) with
    | Some e =>
        (Raise e, (tr ++ [WriteFile name (mul "a" (Z.min size (torn env tr)))])%list)
    | None => (Ok name, (tr ++ [WriteFile name (mul "a" size)])%list)
    end.

Definition execute (config_file command cwd : string) (timeout : Z)
  (use_force : bool) : M CompletedProcess :=
  let cg_command := cg_command config_file command use_force in
  subprocess_run env (mkInvocation cg_command cwd timeout).

Definition run_command (config_file command cwd : string) (timeout : Z)
  (force_summary : bool) : M (Q * string * Z) :=
  start_time <- time ;;
  first <-
    try_except
      (result <- execute config_file command cwd timeout force_summary ;;
       ret (inl result))
      (fun e =>
         match e with
         | TimeoutExpired _ out err =>
             end_time <- time ;;
             let execution_time := (end_time - start_time)%Q in
             let stdout := or_empty out in
             let stderr := or_empty err in
             let message :=
               "Command timed out after " ++ str_of_int timeout
               ++ "s. stdout: " ++ PyBytes.show stdout
               ++ " stderr: " ++ PyBytes.show stderr in
             ret (inr (execution_time, message, 124%Z))
         | other => raise other
         end) ;;
  match first with
  | inr returned => ret returned
  | inl result =>
      result <-
        (if negb (returncode result =? 0)%Z && force_summary then
           let combined := lower (stdout result ++ nl ++ stderr result) in
           if mentions_force_flag combined then
             print InfoRetryWithoutForce ;;;
             execute config_file command cwd timeout false
           else ret result
         else ret result) ;;
      end_time <- time ;;
      let execution_time := (end_time - start_time)%Q in
      ret (execution_time, stdout result, returncode result)
  end.

End WithEnv.
End Speed.

(* ================================================================== *)
(** * Properties of traces and example environments *)
(* ================================================================== *)

Module Props.
Import Harness.

(** The consistency a result row is expected to have. *)
Definition row_consistent (r : ResultRow) : Prop :=
  row_can_solve r = true -> row_needs_full_output r = false.

Definition rows_consistent (tr : trace) : Prop :=
  Forall row_consistent (rows tr).

(** Every token of the command line is escaped: the shell reads the config
    path, the flag when present and the user command as one literal word
    each. *)
Definition every_token_escaped (config_file command : string) (use_force : bool)
  : Prop :=
  Shell.sh_words (Invoker.cg_command config_file command use_force)
  = Some ("cg" :: "-c" :: config_file
          :: List.app (if use_force then ["--force-summary"] else []) [command]).

End Props.

Module Examples.
Import PyStr Harness.

Definition build_challenge : Challenge :=
  {| command := Some "npm run build";
     expected_issue := Some "build failed";
     expected_solution := Some "missing dependency";
     key_phrases := Some ["npm install"; "ENOENT"] |}.

Definition blank_challenge : Challenge :=
  {| command := Some "true";
     expected_issue := Some "";
     expected_solution := None;
     key_phrases := Some [] |}.

Definition base_env (behaviour : trace -> Invocation -> proc_outcome) : Env :=
  {| sh := behaviour;
     now := fun tr => Qnat (List.length tr);
     mktemp := fun tr => "/tmp/tmp" ++ Speed.str_of_int (Z.of_nat (List.length tr)) ++ ".txt";
     config_path := fun file => "/repo/evals/configs/" ++ file;
     path_exists := fun _ _ => true;
     fault := fun _ _ => None;
     torn := fun _ => 0%Z |}.

(** A subject CLI that summarises at once. *)
Definition summarising : Env :=
  base_env (fun _ _ =>
    Completed {| stdout := "Build failed: missing dependency. Run npm install (ENOENT).";
                 stderr := "";
                 returncode := 0 |}).

(** A subject CLI that echoes its arguments and then hangs on its first run. *)
Definition hangs_after_echo : Env :=
  base_env (fun tr _ =>
    match spawns tr with
    | [] => TimedOut (Some "cg: running with --force-summary") None
    | _ :: _ => Completed {| stdout := "Summary: ok"; stderr := ""; returncode := 0 |}
    end).

(** A subject CLI that rejects the flag, and hangs when run without it. *)
Definition rejects_then_hangs : Env :=
  base_env (fun tr _ =>
    match spawns tr with
    | [] =>
        Completed {| stdout := "";
                     stderr := "error: unexpected argument '--force-summary' found";
                     returncode := 2 |}
    | _ :: _ => TimedOut (Some "partial summary") None
    end).

(** A subject CLI that rejects the flag, and summarises when run without
    it. *)
Definition rejects_then_summarises : Env :=
  base_env (fun tr _ =>
    match spawns tr with
    | [] =>
        Completed {| stdout := "";
                     stderr := "error: unexpected argument '--force-summary' found";
                     returncode := 2 |}
    | _ :: _ =>
        Completed {| stdout := "Build failed: missing dependency. Run npm install (ENOENT).";
                     stderr := "";
                     returncode := 0 |}
    end).

(** A subject CLI that hangs without a word. *)
Definition hangs_silently : Env := base_env (fun _ _ => TimedOut None None).

(** Output of a subject CLI that passed its input through. *)
Definition raw_passthrough : CompletedProcess :=
  {| stdout := "Output shorter than 2000 tokens, returning raw output" ++ nl
               ++ "npm ERR! build failed: missing dependency (ENOENT), run npm install";
     stderr := "";
     returncode := 0 |}.

End Examples.

(* ================================================================== *)
(** * More Python text operations *)
(* ================================================================== *)

Module PyText.
Import PyStr.

(** [s.replace(old, new)] for a non-empty [old]: every occurrence, leftmost
    first and without overlap.  Each replacement consumes at least one
    character of [s], so [length s] rounds are enough. *)
Fixpoint replace_fuel (fuel : nat) (old new s : string) : string :=
  match fuel with
  | O => s
  | S fuel' =>
      match split1 old s with
      | None => s
      | Some (a, b) => a ++ new ++ replace_fuel fuel' old new b
      end
  end.

Definition replace (old new s : string) : string :=
  replace_fuel (String.length s) old new s.

(** [s[:n]] *)
Fixpoint take (n : nat) (s : string) : string :=
  match n, s with
  | O, _ => EmptyString
  | S _, EmptyString => EmptyString
  | S n', String c s' => String c (take n' s')
  end.

(** [str(b)] *)
Definition str_of_bool (b : bool) : string := if b then "True" else "False".

(** The text with every [c] turned into [d]. *)
Fixpoint swap_char (c d : ascii) (s : string) : string :=
  match s with
  | EmptyString => EmptyString
  | String x s' => String (if Ascii.eqb x c then d else x) (swap_char c d s')
  end.

(** Every character of the text passes the test. *)
Fixpoint all_chars (test : ascii -> bool) (s : string) : bool :=
  match s with
  | EmptyString => true
  | String x s' => test x && all_chars test s'
  end.

(** A text that can stand in a CSV field as it is: no comma, no line feed. *)
Definition is_field_char (x : ascii) : bool :=
  negb (Ascii.eqb x ",") && negb (Ascii.eqb x LF).

Definition is_field (s : string) : bool := all_chars is_field_char s.

(** Digits and the minus sign. *)
Definition is_number_char (x : ascii) : bool :=
  let n := N_of_ascii x in ((48 <=? n) && (n <=? 57) || (n =? 45))%N.

End PyText.

(* ================================================================== *)
(** * Result files: [write_result_file] of both runners *)
(* ================================================================== *)

Module ResultFiles.
Import PyStr PyText.

(** [summary.replace('\n', ' ').replace(',', ';')[:500]], the same in both
    runners. *)
Definition summary_clean (summary : string) : string :=
  take 500 (replace "," ";" (replace nl " " summary)).

(** The header line [run_quality_evaluation] writes. *)
Definition quality_header : string :=
  "model,config_file,challenge,can_solve,needs_full_output,"
  ++ "quality_score,exit_code,summary" ++ nl.

(** The quality runner's [write_result_file]: the file's text before and
    after the append.  [format_3f] is the rendering of a float under
    [:.3f]. *)
Definition quality_write_result_file (format_3f : Q -> string) (r : ResultRow)
  (file : string) : string :=
  file
  ++ row_model r ++ "," ++ row_config_file r ++ "," ++ row_challenge r ++ ","
  ++ str_of_bool (row_can_solve r) ++ ","
  ++ str_of_bool (row_needs_full_output r) ++ ","
  ++ format_3f (row_quality_score r) ++ ","
  ++ Speed.str_of_int (row_exit_code r) ++ ","
  ++ summary_clean (row_summary r) ++ nl.

(** The arguments of the speed runner's [write_result_file]. *)
Record SpeedRow : Type := mkSpeedRow {
  speed_model : string;
  speed_config_file : string;
  speed_size_factor : Q;
  speed_execution_time : Q;
  speed_summary : string;
  speed_exit_code : Z
}.

(** The header line [run_speed_evaluation] writes. *)
Definition speed_header : string :=
  "model,config_file,size_factor,execution_time,summary_length,exit_code,summary"
  ++ nl.

(** The speed runner's [write_result_file].  [str_float] is [str] of a
    float, [format_3f] its rendering under [:.3f]. *)
Definition speed_write_result_file (str_float format_3f : Q -> string)
  (r : SpeedRow) (file : string) : string :=
  let summary_length := Z.of_nat (String.length (speed_summary r)) in
  file
  ++ speed_model r ++ "," ++ speed_config_file r ++ ","
  ++ str_float (speed_size_factor r) ++ ","
  ++ format_3f (speed_execution_time r) ++ ","
  ++ Speed.str_of_int summary_length ++ ","
  ++ Speed.str_of_int (speed_exit_code r) ++ ","
  ++ summary_clean (speed_summary r) ++ nl.

(** The quality result file after a run: the header, then one append per
    row written, in order. *)
Definition quality_result_file (format_3f : Q -> string) (tr : trace) : string :=
  fold_left (fun file r => quality_write_result_file format_3f r file)
    (Harness.rows tr) quality_header.

(** The fields of a row's line. *)
Definition quality_fields (format_3f : Q -> string) (r : ResultRow) : list string :=
  [row_model r; row_config_file r; row_challenge r;
   str_of_bool (row_can_solve r); str_of_bool (row_needs_full_output r);
   format_3f (row_quality_score r); Speed.str_of_int (row_exit_code r);
   summary_clean (row_summary r)].

Definition speed_fields (str_float format_3f : Q -> string) (r : SpeedRow)
  : list string :=
  [speed_model r; speed_config_file r; str_float (speed_size_factor r);
   format_3f (speed_execution_time r);
   Speed.str_of_int (Z.of_nat (String.length (speed_summary r)));
   Speed.str_of_int (speed_exit_code r); summary_clean (speed_summary r)].

(** The text of lines, each ended by a line feed. *)
Fixpoint lines_text (lines : list string) : string :=
  match lines with
  | [] => EmptyString
  | line :: rest => line ++ nl ++ lines_text rest
  end.

(** The names of a row stand in a CSV field as they are. *)
Definition plain_names (r : ResultRow) : bool :=
  is_field (row_model r) && is_field (row_config_file r)
  && is_field (row_challenge r).

End ResultFiles.

(* ================================================================== *)
(** * Counting the scenarios of a quality sweep *)
(* ================================================================== *)

Module Sweep.
Import PyStr.

(** The challenge has a command to run. *)
Definition has_command (c : string * Challenge) : bool :=
  nonempty (get (command (snd c)) "").

(** Config files listed over all models, times challenges with a command. *)
Definition scenario_bound (models : list (string * list string))
  (challenges : list (string * Challenge)) : nat :=
  list_sum (map (fun m => List.length (snd m)) models)
  * List.length (filter has_command challenges).

(** The model names, config file names and challenge names of a sweep can
    stand in a CSV field as they are. *)
Definition plain_inputs (models : list (string * list string))
  (challenges : list (string * Challenge)) : bool :=
  forallb (fun m => PyText.is_field (fst m) && forallb PyText.is_field (snd m)) models
  && forallb (fun c => PyText.is_field (fst c)) challenges.

(** Every row of the trace has plain names. *)
Definition rows_plain (tr : trace) : Prop :=
  Forall (fun r => ResultFiles.plain_names r = true) (Harness.rows tr).

(** The calls the quality sweep makes outside its [try]. *)
Definition outside_try (call : os_call) : Prop :=
  (exists path, call = PathExists path) \/ (exists name, call = LoadChallenge name).

(** The sweep returned, or it was stopped by what a call outside its [try]
    raised. *)
Definition returned_or_stopped (env : Env) (r : res unit) : Prop :=
  r = Ok tt
  \/ exists e tr call,
       r = Raise e /\ fault env tr call = Some e /\ outside_try call.

End Sweep.

(* ================================================================== *)
(** * evals/speed/runner.py: [run_speed_evaluation] *)
(* ================================================================== *)

Module SpeedSweep.
Import PyStr Harness Invoker ResultFiles.

(** What [run_speed_evaluation] prints beyond the notices it shares with the
    quality runner. *)
Inductive sweep_notice : Type :=
| SpeedStarting (models : list string) (size_factors : list Speed.number)
| SizeFactorStart (size_factor : Speed.number) (file_size : Z)
| ExecTime (exec_time : Q).

(** The arguments of one call of [write_result_file]. *)
Record RowArgs : Type := mkRowArgs {
  arg_model : string;
  arg_config_file : string;
  arg_size_factor : Speed.number;
  arg_execution_time : Q;
  arg_summary : string;
  arg_exit_code : Z
}.

(** The events of a speed sweep: those of the functions it calls and of the
    shared notices ([Base]), and its own.  [Unlink name] is the call
    [os.unlink(name)], whether or not it removed the file. *)
Inductive sweep_event : Type :=
| Base (e : event)
| Notice (n : sweep_notice)
| SpeedRowWritten (r : RowArgs)
| Unlink (name : string).

Definition sweep_trace : Type := list sweep_event.
Bind Scope list_scope with sweep_trace.

(** The part of the history the functions called by the sweep run in. *)
Fixpoint base_of (st : sweep_trace) : trace :=
  match st with
  | [] => []
  | Base e :: st' => e :: base_of st'
  | _ :: st' => base_of st'
  end.

Definition MS (A : Type) : Type := sweep_trace -> res A * sweep_trace.

Definition ret {A : Type} (a : A) : MS A := fun st => (Ok a, st).

Definition bind {A B : Type} (m : MS A) (k : A -> MS B) : MS B :=
  fun st =>
    match m st with
    | (Ok a, st') => k a st'
    | (Raise e, st') => (Raise e, st')
    end.

(** [try: m  except Exception as e: handler(e)] *)
Definition try_except {A : Type} (m : MS A) (handler : exn -> MS A) : MS A :=
  fun st =>
    match m st with
    | (Ok a, st') => (Ok a, st')
    | (Raise e, st') => handler e st'
    end.

(** [try: m  finally: cleanup], for a cleanup that swallows its own
    exceptions. *)
Definition try_finally {A : Type} (m : MS A) (cleanup : MS unit) : MS A :=
  fun st =>
    let '(r, st') := m st in
    let '(_, st'') := cleanup st' in
    (r, st'').

Definition emit (e : sweep_event) : MS unit := fun st => (Ok tt, (st ++ [e])%list).

(** A computation of the runner, run inside the sweep: it sees the base
    history and what it adds is added to the sweep's history. *)
Definition lift {A : Type} (m : M A) : MS A :=
  fun st =>
    let tr := base_of st in
    let '(r, tr') := m tr in
    (r, (st ++ map Base (skipn (List.length tr) tr'))%list).

(** [for x in xs: body(x)] *)
Fixpoint for_each {A : Type} (xs : list A) (body : A -> MS unit) : MS unit :=
  match xs with
  | [] => ret tt
  | x :: xs' => bind (body x) (fun _ => for_each xs' body)
  end.

(** The text last written under a name. *)
Fixpoint last_written (name : string) (tr : trace) : option string :=
  match tr with
  | [] => None
  | e :: tr' =>
      match last_written name tr' with
      | Some content => Some content
      | None =>
          match e with
          | WriteFile n content => if String.eqb n name then Some content else None
          | _ => None
          end
      end
  end.

(** One model of the configuration: its name, ["max_tokens"] and
    ["config_files"], each possibly missing. *)
Record ModelConfig : Type := mkModelConfig {
  model_name : string;
  max_tokens : option Z;
  config_files : option (list string)
}.

Section WithEnv.
Variable env : Env.

(** [os.path.getsize(name)] of a file of one-byte characters, outside any
    [try]. *)
Definition getsize (name : string) : MS Z :=
  bind (lift (attempt env (GetSize name))) (fun _ st =>
    (Ok (match last_written name (base_of st) with
         | Some content => Z.of_nat (String.length content)
         | None => 0%Z
         end), st)).

(** The inner [try: os.unlink(test_file) except: pass]: the call is made
    and what it raises is dropped. *)
Definition unlink (name : string) : MS unit := emit (Unlink name).

(** The body of [for size_factor in size_factors]. *)
Definition run_size_factor (repo_root model_name config_file config_path_full : string)
  (max_tokens : Z) (size_factor : Speed.number) : MS unit :=
  bind (lift (Speed.write_test_file env max_tokens size_factor)) (fun test_file =>
  bind (getsize test_file) (fun file_size =>
  try_finally
    (try_except
       (bind (emit (Notice (SizeFactorStart size_factor file_size))) (fun _ =>
        bind (lift (Speed.run_command env config_path_full ("cat " ++ test_file)
                      repo_root TIMEOUT_SECONDS true))
          (fun '(exec_time, stdout, exit_code) =>
        bind (emit (Notice (ExecTime exec_time))) (fun _ =>
        emit (SpeedRowWritten
                {| arg_model := model_name;
                   arg_config_file := config_file;
                   arg_size_factor := size_factor;
                   arg_execution_time := exec_time;
                   arg_summary := stdout;
                   arg_exit_code := exit_code |})))))
       (fun e => lift (print (ErrorLine e))))
    (unlink test_file))).

(** The body of [for config_file in config_files]. *)
Definition run_config (repo_root model_name : string) (max_tokens : Z)
  (size_factors : list Speed.number) (config_file : string) : MS unit :=
  let config_path_full := config_path env config_file in
  bind (lift (exists_ env config_path_full)) (fun found =>
  if negb found
  then lift (print (WarnConfigMissing config_path_full))
  else
    bind (lift (print (EvaluatingModel model_name config_file))) (fun _ =>
    for_each size_factors
      (run_size_factor repo_root model_name config_file config_path_full
         max_tokens))).

(** The body of [for model_name, model_config in models.items()]. *)
Definition run_model (repo_root : string) (size_factors : list Speed.number)
  (model : ModelConfig) : MS unit :=
  let max_tokens := get (max_tokens model) 131072%Z in
  let config_files := get (config_files model) [] in
  match config_files with
  | [] => lift (print (WarnNoConfigFiles (model_name model)))
  | _ :: _ =>
      for_each config_files
        (run_config repo_root (model_name model) max_tokens size_factors)
  end.

(** The default of ["size_factors"]. *)
Definition default_size_factors : list Speed.number :=
  [Speed.PyFloat Binary64.f0_1; Speed.PyFloat Binary64.f0_2;
   Speed.PyFloat Binary64.f0_5; Speed.PyFloat Binary64.f1_0].

(** [run_speed_evaluation], from the loaded configuration on.  Creating the
    result file and writing its header line are left out; a row is the
    [SpeedRowWritten] event. *)
Definition run_speed_evaluation (repo_root : string) (models : list ModelConfig)
  (size_factors : option (list Speed.number)) : MS unit :=
  let size_factors := get size_factors default_size_factors in
  bind (emit (Notice (SpeedStarting (map model_name models) size_factors))) (fun _ =>
  bind (for_each models (run_model repo_root size_factors)) (fun _ =>
  lift (print EvaluationComplete))).

End WithEnv.

(** The names of the test files created, oldest first. *)
Fixpoint written (st : sweep_trace) : list string :=
  match st with
  | [] => []
  | Base (WriteFile name _) :: st' => name :: written st'
  | _ :: st' => written st'
  end.

(** The names [os.unlink] was called on, oldest first. *)
Fixpoint unlinked (st : sweep_trace) : list string :=
  match st with
  | [] => []
  | Unlink name :: st' => name :: unlinked st'
  | _ :: st' => unlinked st'
  end.

(** The rows written, oldest first. *)
Fixpoint speed_rows (st : sweep_trace) : list RowArgs :=
  match st with
  | [] => []
  | SpeedRowWritten r :: st' => r :: speed_rows st'
  | _ :: st' => speed_rows st'
  end.

(** Events that neither create a file nor write a row. *)
Definition quiet (e : event) : bool :=
  match e with
  | Spawn _ | Print _ => true
  | WriteFile _ _ | Row _ => false
  end.

(** A stretch of a sweep that cleans up after itself: [os.unlink] is called
    on every test file it creates, in the same order, and it writes at most
    one row per test file. *)
Definition tidy (evs : sweep_trace) : Prop :=
  written evs = unlinked evs
  /\ (List.length (speed_rows evs) <= List.length (written evs))%nat.

(** A stretch that was stopped: [os.unlink] is called on every test file
    it creates but, at most, the last one. *)
Definition stopped (evs : sweep_trace) : Prop :=
  exists leftover,
    (List.length leftover <= 1)%nat
    /\ written evs = (unlinked evs ++ leftover)%list
    /\ (List.length (speed_rows evs) <= List.length (unlinked evs))%nat.

(** The computation returns with a tidy addition to the history, or it
    raises one of the exceptions [outside] with a stopped one. *)
Definition steps_tidily (outside : exn -> Prop) (m : MS unit) : Prop :=
  forall st,
    (exists evs, m st = (Ok tt, (st ++ evs)%list) /\ tidy evs)
    \/ (exists e evs, m st = (Raise e, (st ++ evs)%list)
                      /\ stopped evs /\ outside e).

(** The exception is one a call into the operating system raises. *)
Definition os_raises (env : Env) (e : exn) : Prop :=
  exists tr call, fault env tr call = Some e.

End SpeedSweep.

(* ================================================================== *)
(** * A rendering of numbers for the examples *)
(* ================================================================== *)

Module Renderings.
Import PyStr.

(** A number with leading zeros, to [width] digits. *)
Definition padded (width : nat) (n : Z) : string :=
  let digits := Speed.str_of_int n in
  repeat_nat "0" (width - String.length digits) ++ digits.

(** The magnitude of a rational in thousandths, rounded to the nearest,
    ties to the even one. *)
Definition thousandths (q : Q) : Z :=
  let n := (1000 * Z.abs (Qnum q))%Z in
  let d := Zpos (Qden q) in
  let low := (n / d)%Z in
  let rest := (n mod d)%Z in
  if (2 * rest <? d)%Z then low
  else if (d <? 2 * rest)%Z then (low + 1)%Z
  else if Z.even low then low else (low + 1)%Z.

Definition sign (q : Q) : string := if (Qnum q <? 0)%Z then "-" else "".

(** A rational with three decimals, as [:.3f] renders the float of that
    value. *)
Definition fixed3 (q : Q) : string :=
  let n := thousandths q in
  sign q ++ Speed.str_of_int (n / 1000) ++ "." ++ padded 3 (n mod 1000).

(** A rational with one to three decimals, as few as its thousandths need:
    the shape [str] gives a float such as 0.5 or 1.0. *)
Definition short (q : Q) : string :=
  let n := thousandths q in
  let m := (n mod 1000)%Z in
  sign q ++ Speed.str_of_int (n / 1000) ++ "."
  ++ (if (m mod 100 =? 0)%Z then padded 1 (m / 100)
      else if (m mod 10 =? 0)%Z then padded 2 (m / 10)
      else padded 3 m).

End Renderings.

(* ================================================================== *)
(** * evals/config_manager.py *)
(* ================================================================== *)

Module ConfigManager.
Import PyStr PyText.

(** The one-character string of a double quote. *)
Definition dq : string := String DQ EmptyString.

Definition DEFAULT_CONFIG_TEMPLATE : string :=
  "# Number of days to keep temporary output files before cleaning them up" ++ nl
  ++ "clean_up_days = 5" ++ nl
  ++ nl
  ++ "# Number of minutes to look back for command context (0 = disabled)" ++ nl
  ++ "command_context_minutes = 0" ++ nl
  ++ nl
  ++ "# The provider to use for the summary generation" ++ nl
  ++ "[provider]" ++ nl
  ++ "type = " ++ dq ++ "{provider_type}" ++ dq ++ nl
  ++ "url = " ++ dq ++ "{provider_url}" ++ dq ++ nl
  ++ "model = " ++ dq ++ "{model_name}" ++ dq ++ nl
  ++ nl
  ++ "prompt = " ++ dq ++ dq ++ dq ++ nl
  ++ "You are a command output analyzer that provides concise, actionable summaries for AI agents." ++ nl
  ++ nl
  ++ "${{recent_commands}}" ++ nl
  ++ nl
  ++ "Command executed: ${{command}}" ++ nl
  ++ "Exit code: ${{exit_code}}" ++ nl
  ++ "Output:" ++ nl
  ++ nl
  ++ "${{output}}" ++ nl
  ++ nl
  ++ "Generate a summary in ${{summary_words}} words or less following these guidelines:" ++ nl
  ++ nl
  ++ "1. PRIORITIZE ACTIONABLE INFORMATION:" ++ nl
  ++ "   - If the command failed, identify the root cause and suggest specific fixes" ++ nl
  ++ "   - Include relevant file paths, line numbers, or error codes when available" ++ nl
  ++ "   - Highlight what needs attention vs. what succeeded" ++ nl
  ++ nl
  ++ "2. STRUCTURE FOR CLARITY:" ++ nl
  ++ "   - Start with the outcome (success/failure) and key metrics if relevant" ++ nl
  ++ "   - Focus on errors, warnings, or unexpected behavior first" ++ nl
  ++ "   - Mention important details like test results, build status, or data counts" ++ nl
  ++ nl
  ++ "3. BE SPECIFIC:" ++ nl
  ++ "   - Use exact error messages, file names, or identifiers when critical" ++ nl
  ++ "   - Avoid vague statements like " ++ dq ++ "something went wrong" ++ dq ++ nl
  ++ "   - Include numbers, percentages, or counts when they provide context" ++ nl
  ++ nl
  ++ "4. FORMAT FOR TERMINAL:" ++ nl
  ++ "   - Use plain text only (no markdown, no special formatting)" ++ nl
  ++ "   - Keep it scannable with clear, short sentences" ++ nl
  ++ "   - If the output is very long, focus on the most important parts" ++ nl
  ++ nl
  ++ "5. NEXT STEPS:" ++ nl
  ++ "   - If errors exist, suggest concrete actions to resolve them" ++ nl
  ++ "   - If successful, note any important results or follow-up actions needed" ++ nl
  ++ nl
  ++ "Remember: This summary will help an AI agent decide whether to investigate the full output file or proceed with the next task." ++ nl
  ++ dq ++ dq ++ dq ++ nl
  ++ nl
  ++ "summary_words = {summary_words}" ++ nl
  ++ "output_length_threshold = {output_length_threshold}" ++ nl
  ++ nl
  ++ "# Per-command configuration" ++ nl
  ++ "[commands]" ++ nl.

(** ** [str.format] with keyword arguments

    Literal text is copied, a doubled brace gives one brace, [{name}] gives
    the argument of that name.  A single brace is a [ValueError], a name
    without argument a [KeyError]; errors arise in the order of the text.
    Positional fields, conversions, format specifications and attribute or
    index lookups are outside the model. *)
Inductive formatted : Type :=
| Formatted (text : string)
| FormatValueError
| FormatKeyError (name : string)
| FormatNotModelled.

Definition prepend (v : string) (r : formatted) : formatted :=
  match r with
  | Formatted t => Formatted (v ++ t)
  | other => other
  end.

Fixpoint lookup (name : string) (kwargs : list (string * string)) : option string :=
  match kwargs with
  | [] => None
  | (k, v) :: rest => if String.eqb k name then Some v else lookup name rest
  end.

(** Characters that start something other than a plain name in a field. *)
Definition special (c : ascii) : bool :=
  existsb (Ascii.eqb c) ["{"; "!"; ":"; "."; "["]%char.

Definition is_digit (c : ascii) : bool :=
  let n := N_of_ascii c in ((48 <=? n) && (n <=? 57))%N.

(** A field that is empty or a number takes a positional argument. *)
Definition positional (name : string) : bool := all_chars is_digit name.

(** [field] is [None] in literal text and [Some name] inside a field whose
    name so far is [name]. *)
Fixpoint format_from (kwargs : list (string * string)) (field : option string)
  (s : string) : formatted :=
  match s with
  | EmptyString =>
      match field with
      | None => Formatted EmptyString
      | Some _ => FormatValueError
      end
  | String c r =>
      match field with
      | None =>
          if Ascii.eqb c "{" then
            match r with
            | EmptyString => FormatValueError
            | String c' r' =>
                if Ascii.eqb c' "{" then prepend "{" (format_from kwargs None r')
                else format_from kwargs (Some EmptyString) r
            end
          else if Ascii.eqb c "}" then
            match r with
            | EmptyString => FormatValueError
            | String c' r' =>
                if Ascii.eqb c' "}" then prepend "}" (format_from kwargs None r')
                else FormatValueError
            end
          else prepend (String c EmptyString) (format_from kwargs None r)
      | Some name =>
          if Ascii.eqb c "}" then
            if positional name then FormatNotModelled
            else
              match lookup name kwargs with
              | Some v => prepend v (format_from kwargs None r)
              | None => FormatKeyError name
              end
          else if special c then FormatNotModelled
          else format_from kwargs (Some (name ++ String c EmptyString)) r
      end
  end.

(** [template.format] with the keyword arguments [kwargs]. *)
Definition format (template : string) (kwargs : list (string * string)) : formatted :=
  format_from kwargs None template.

(** ** The files and the standard output

    A path names a file, [file_of path]; two paths that name the same file
    have the same image.  [files] holds the writes, newest first, keyed by
    the file.  A call into the file system may raise: the oracle [fs_fault]
    says when, and [fs_torn] how many characters reach a file whose writing
    fails. *)
Record World : Type := mkWorld {
  files : list (string * string);
  printed : list string
}.

(** The calls into the file system. *)
Inductive fs_call : Type :=
| MakeDirs (dir : string)
| MakeParent (path : string)
| OpenWrite (path : string)
| WriteText (path content : string)
| Exists (path : string)
| ReadText (path : string).

(** What stops a run: an exception of [str.format], or one of the file
    system, with its message. *)
Inductive failure : Type :=
| FormatFailure (e : formatted)
| OsFailure (message : string).

Inductive outcome : Type :=
| Done (w : World)
| Raised (e : failure) (w : World).

Definition say (line : string) (w : World) : World :=
  {| files := files w; printed := (printed w ++ [line])%list |}.

(** The text [generate_config_file] formats. *)
Definition config_content (model_name provider_type provider_url : string)
  (summary_words : Z) (output_length_threshold : option Z) : formatted :=
  let output_length_threshold := get output_length_threshold summary_words in
  format DEFAULT_CONFIG_TEMPLATE
    [("provider_type", provider_type);
     ("provider_url", provider_url);
     ("model_name", model_name);
     ("summary_words", Speed.str_of_int summary_words);
     ("output_length_threshold", Speed.str_of_int output_length_threshold)].

(** One model of [models.json], each key possibly missing. *)
Record ModelEntry : Type := mkModelEntry {
  entry_provider_type : option string;
  entry_provider_url : option string;
  entry_summary_words : option Z;
  entry_output_length_threshold : option Z
}.

(** [model_name.replace("/", "-") + ".toml"] *)
Definition config_filename (model_name : string) : string :=
  replace "/" "-" model_name ++ ".toml".

(** What the loop of [generate_configs_from_models] passes on for a model. *)
Definition entry_content (model_name : string) (model_config : ModelEntry)
  : formatted :=
  let summary_words := get (entry_summary_words model_config) 100%Z in
  config_content model_name
    (get (entry_provider_type model_config) "lmstudio")
    (get (entry_provider_url model_config) "http://127.0.0.1:1234")
    summary_words
    (Some (get (entry_output_length_threshold model_config) summary_words)).

(** The verdict of [validate_config_file], or the exception that left it. *)
Inductive validation : Type :=
| Verdict (valid : bool) (w : World)
| ValidationRaised (message : string) (w : World).

Section WithFileSystem.
Variable file_of : string -> string.
Variable fs_fault : World -> fs_call -> option string.
Variable fs_torn : World -> nat.
(** [output_dir / filename] *)
Variable join : string -> string -> string.

Definition read (path : string) (w : World) : option string :=
  lookup (file_of path) (files w).

Definition write (path content : string) (w : World) : World :=
  {| files := (file_of path, content) :: files w; printed := printed w |}.

(** [generate_config_file]: the text is formatted, the parent directory is
    made, the file is opened for writing, which empties it, and the text is
    written; then the line is printed.  A write that fails leaves the file
    with the characters that reached it. *)
Definition generate_config_file (output_path model_name provider_type
  provider_url : string) (summary_words : Z) (output_length_threshold : option Z)
  (w : World) : outcome :=
  match config_content model_name provider_type provider_url summary_words
          output_length_threshold with
  | Formatted content =>
      match fs_fault w (MakeParent output_path) with
      | Some message => Raised (OsFailure message) w
      | None =>
          match fs_fault w (OpenWrite output_path) with
          | Some message => Raised (OsFailure message) w
          | None =>
              match fs_fault w (WriteText output_path content) with
              | Some message =>
                  Raised (OsFailure message)
                    (write output_path (take (fs_torn w) content) w)
              | None =>
                  Done (say ("Generated config file: " ++ output_path)
                          (write output_path content w))
              end
          end
      end
  | e => Raised (FormatFailure e) w
  end.

(** The loop of [generate_configs_from_models]. *)
Fixpoint generate_each (models : list (string * ModelEntry))
  (output_dir : string) (w : World) : outcome :=
  match models with
  | [] => Done w
  | (model_name, model_config) :: rest =>
      let provider_type := get (entry_provider_type model_config) "lmstudio" in
      let provider_url :=
        get (entry_provider_url model_config) "http://127.0.0.1:1234" in
      let summary_words := get (entry_summary_words model_config) 100%Z in
      let output_length_threshold :=
        get (entry_output_length_threshold model_config) summary_words in
      let filename := config_filename model_name in
      let output_path := join output_dir filename in
      match generate_config_file output_path model_name provider_type provider_url
              summary_words (Some output_length_threshold) w with
      | Done w' => generate_each rest output_dir w'
      | Raised e w' => Raised e w'
      end
  end.

(** [generate_configs_from_models], from the loaded models on: the output
    directory is made, then the loop runs. *)
Definition generate_configs_from_models (models : list (string * ModelEntry))
  (output_dir : string) (w : World) : outcome :=
  match fs_fault w (MakeDirs output_dir) with
  | Some message => Raised (OsFailure message) w
  | None => generate_each models output_dir w
  end.

(** [validate_config_file].  The test that the file exists stands outside
    the [try]; what reading raises is caught and printed. *)
Definition validate_config_file (config_path : string) (w : World) : validation :=
  match fs_fault w (Exists config_path) with
  | Some message => ValidationRaised message w
  | None =>
      match read config_path w with
      | None =>
          Verdict false (say ("Error: Config file does not exist: " ++ config_path) w)
      | Some content =>
          match fs_fault w (ReadText config_path) with
          | Some message =>
              Verdict false
                (say ("Error reading config file " ++ config_path ++ ": " ++ message) w)
          | None =>
              if negb (contains "[provider]" content)
              then Verdict false
                     (say ("Error: Config file missing [provider] section: "
                           ++ config_path) w)
              else Verdict true w
          end
      end
  end.

(** A file is there and has the section [validate_config_file] asks for. *)
Definition valid (path : string) (w : World) : Prop :=
  exists content,
    read path w = Some content /\ contains "[provider]" content = true.

End WithFileSystem.

(** The text of a formatting that succeeded. *)
Definition text_of (r : formatted) : string :=
  match r with Formatted t => t | _ => EmptyString end.

End ConfigManager.

(* ================================================================== *)
(** * script.py *)
(* ================================================================== *)

Module Script.
Import PyStr.

(** What [json.load] returns; an object as the items of the dict. *)
#[warnings="-register-all"]
Inductive json : Type :=
| JNull
| JBool (b : bool)
| JNumber (q : Q)
| JString (s : string)
| JList (items : list json)
| JObject (items : list (string * json)).

Inductive script_exn : Type :=
| FileNotFoundError (message : string)
| JSONDecodeError
| ValueError (message : string)
| KeyError (key : string)
| TypeError.

Inductive result (A : Type) : Type :=
| Returned (a : A)
| Failed (e : script_exn).
Arguments Returned {A} a.
Arguments Failed {A} e.

Definition INPUT_PATH : string := "evals/quality/fixtures/data/input.json".

(** The input file: missing, there without being JSON, or JSON. *)
Inductive input_file : Type :=
| Missing
| NotJson
| Json (payload : json).

Definition load_input (file : input_file) : result json :=
  match file with
  | Missing =>
      Failed (FileNotFoundError
                ("Required input file is missing: " ++ INPUT_PATH ++ ". "
                 ++ "Add a small JSON file with a top-level 'records' list."))
  | NotJson => Failed JSONDecodeError
  | Json payload => Returned payload
  end.

Fixpoint item (key : string) (items : list (string * json)) : option json :=
  match items with
  | [] => None
  | (k, v) :: rest => if String.eqb k key then Some v else item key rest
  end.

Definition is_string (key : string) (v : json) : bool :=
  match v with JString s => String.eqb s key | _ => false end.

(** [key in payload] for a string [key]. *)
Definition py_in (key : string) (payload : json) : result bool :=
  match payload with
  | JObject items =>
      Returned (match item key items with Some _ => true | None => false end)
  | JList items => Returned (existsb (is_string key) items)
  | JString s => Returned (contains key s)
  | JNull | JBool _ | JNumber _ => Failed TypeError
  end.

(** [payload[key]] for a string [key]. *)
Definition getitem (payload : json) (key : string) : result json :=
  match payload with
  | JObject items =>
      match item key items with
      | Some v => Returned v
      | None => Failed (KeyError key)
      end
  | _ => Failed TypeError
  end.

Definition isinstance_list (v : json) : bool :=
  match v with JList _ => true | _ => false end.

(** The truth value of a JSON value. *)
Definition truthy (v : json) : bool :=
  match v with
  | JNull => false
  | JBool b => b
  | JNumber q => negb (Qeq_bool q 0)
  | JString s => nonempty s
  | JList items => match items with [] => false | _ :: _ => true end
  | JObject items => match items with [] => false | _ :: _ => true end
  end.

Definition then_ {A B : Type} (r : result A) (k : A -> result B) : result B :=
  match r with
  | Returned a => k a
  | Failed e => Failed e
  end.

Definition validate_payload (payload : json) : result unit :=
  then_ (py_in "records" payload) (fun has_records =>
  if negb has_records then Failed (ValueError "Input JSON missing 'records' key.")
  else
  then_ (getitem payload "records") (fun records =>
  if negb (isinstance_list records)
  then Failed (ValueError "The 'records' field must be a list of items to process.")
  else
  then_ (getitem payload "records") (fun records' =>
  if negb (truthy records')
  then Failed (ValueError "No records provided in the input file.")
  else Returned tt))).

(** [main]: the lines printed on standard error and how it ends. *)
Definition main (file : input_file) : list string * result unit :=
  match then_ (load_input file) validate_payload with
  | Returned tt => ([], Returned tt)
  | Failed exc =>
      (["Processing failed before any records were handled."], Failed exc)
  end.

End Script.

(* ================================================================== *)
(** * Facts about the quality scorer *)
(* ================================================================== *)

Module ScorerFacts.
Import PyStr Scorer.

Lemma count_phrases_le_length (summary_lower : string) (phrases : list string) :
  (count_phrases summary_lower phrases <= List.length phrases)%nat.
Proof.
  induction phrases as [|p ps IH]; simpl.
  - apply Nat.le_refl.
  - destruct (contains (lower p) summary_lower); simpl; lia.
Qed.

(** A ratio of a count to a positive total that bounds it lies in [0, 1]. *)
Lemma ratio_in_unit (k n : nat) :
  (k <= n)%nat -> (0 < n)%nat -> (0 <= Qnat k / Qnat n /\ Qnat k / Qnat n <= 1)%Q.
Proof.
  intros Hkn Hn.
  assert (Hpos : (0 < Qnat n)%Q).
  { unfold Qnat, Qlt; simpl. lia. }
  assert (Hk : (0 <= Qnat k)%Q).
  { unfold Qnat, Qle; simpl. lia. }
  assert (Hle : (Qnat k <= Qnat n)%Q).
  { unfold Qnat, Qle; simpl. lia. }
  split.
  - apply Qle_shift_div_l; [exact Hpos|]. rewrite Qmult_0_l. exact Hk.
  - apply Qle_shift_div_r; [exact Hpos|]. rewrite Qmult_1_l. exact Hle.
Qed.

Lemma phrase_coverage_in_unit (summary : string) (challenge : Challenge) :
  (0 <= phrase_coverage (evaluate_summary_quality summary challenge) <= 1)%Q.
Proof.
  unfold evaluate_summary_quality; simpl.
  destruct (get (key_phrases challenge) []) as [|p ps] eqn:Hk.
  - split; discriminate.
  - apply ratio_in_unit.
    + apply count_phrases_le_length.
    + simpl; lia.
Qed.

Lemma score_bounds (i s : bool) (cov : Q) :
  (0 <= cov <= 1)%Q -> (0 <= score i s cov <= 1)%Q.
Proof.
  intros [H0 H1]. unfold score.
  destruct i, s; split; lra.
Qed.

Lemma score_formula (i s : bool) (cov : Q) :
  (score i s cov ==
     0.4 * (if i then 1 else 0) + 0.4 * (if s then 1 else 0) + 0.2 * cov)%Q.
Proof.
  unfold score. destruct i, s; lra.
Qed.

(** The two worked examples of the rubric: everything found scores 1.0 and
    passes; the issue alone, with none of two phrases, scores 0.4 and fails. *)
Lemma rubric_examples :
  let all_found :=
    evaluate_summary_quality
      "Build failed: missing dependency. Run npm install (ENOENT)."
      Examples.build_challenge in
  let issue_only := evaluate_summary_quality "The build failed." Examples.build_challenge in
  (quality_score all_found == 1.0)%Q /\ can_solve all_found = true
  /\ (quality_score issue_only == 0.4)%Q /\ can_solve issue_only = false.
Proof. vm_compute. repeat split; reflexivity. Qed.

End ScorerFacts.

(* ================================================================== *)
(** * Facts about traces *)
(* ================================================================== *)

Module HarnessFacts.
Import Harness.

Lemma spawns_app (a b : trace) : spawns (a ++ b)%list = (spawns a ++ spawns b)%list.
Proof.
  induction a as [|e a IH]; simpl; [reflexivity|].
  destruct e; simpl; rewrite IH; reflexivity.
Qed.

Lemma rows_app (a b : trace) : rows (a ++ b)%list = (rows a ++ rows b)%list.
Proof.
  induction a as [|e a IH]; simpl; [reflexivity|].
  destruct e; simpl; rewrite IH; reflexivity.
Qed.

(** A call into the operating system leaves the trace as it is. *)
Lemma attempt_run (env : Env) (call : os_call) (tr : trace) :
  Invoker.attempt env call tr
  = match fault env tr call with
    | Some e => (Raise e, tr)
    | None => (Ok tt, tr)
    end.
Proof. reflexivity. Qed.

(** What follows the test that a path exists. *)
Lemma exists_run {A : Type} (env : Env) (path : string) (tr : trace)
  (k : bool -> M A) :
  bind (Invoker.exists_ env path) k tr
  = match fault env tr (PathExists path) with
    | Some e => (Raise e, tr)
    | None => k (path_exists env tr path) tr
    end.
Proof.
  unfold Invoker.exists_, Invoker.attempt, bind.
  destruct (fault env tr _); reflexivity.
Qed.

(** What follows the loading of a challenge. *)
Lemma load_challenge_run {A : Type} (env : Env) (name : string) (held : Challenge)
  (tr : trace) (k : Challenge -> M A) :
  bind (Quality.load_challenge env name held) k tr
  = match fault env tr (LoadChallenge name) with
    | Some e => (Raise e, tr)
    | None => k held tr
    end.
Proof.
  unfold Quality.load_challenge, Invoker.attempt, ret, bind.
  destruct (fault env tr _); reflexivity.
Qed.

End HarnessFacts.

(* ================================================================== *)
(** * Facts about the quality runner's [run_command] *)
(* ================================================================== *)

Module QualityFacts.
Import PyStr Harness Invoker Scorer Quality.

Section WithEnv.
Variable env : Env.
Variables (config_file command cwd : string) (timeout : Z).

Let inv (use_force : bool) : Invocation :=
  mkInvocation (cg_command config_file command use_force) cwd timeout.

Ltac run_unfold :=
  cbv beta iota zeta delta
    [run_command try_except bind execute subprocess_run ret print emit
     raise of_res wants_retry recorded classify inv].

(** When the [except] clause raises, [run_command] raises after the one
    process. *)
Lemma quality_run_command_raises (force_summary : bool) (tr : trace) (e : exn) :
  recorded (sh env tr (inv force_summary)) = Raise e ->
  run_command env config_file command cwd timeout force_summary tr
  = (Raise e, (tr ++ [Spawn (inv force_summary)])%list).
Proof.
  run_unfold.
  destruct (sh env tr _) as [r|out err]; [discriminate|].
  unfold timeout_stdout.
  destruct (or_empty out), (or_empty err); intros [= <-]; reflexivity.
Qed.

(** Without a retry the first attempt, as recorded, is terminal. *)
Lemma quality_run_command_single (force_summary : bool) (tr : trace)
  (first : CompletedProcess) :
  recorded (sh env tr (inv force_summary)) = Ok first ->
  wants_retry force_summary first = false ->
  run_command env config_file command cwd timeout force_summary tr
  = (Ok (classify first), (tr ++ [Spawn (inv force_summary)])%list).
Proof.
  run_unfold.
  destruct (sh env tr _) as [r|out err].
  - intros [= <-] H. cbn [stdout stderr returncode] in *.
    destruct (negb (returncode r =? 0)%Z && force_summary); cbn [andb] in H |- *;
      [rewrite H|]; reflexivity.
  - unfold timeout_stdout, or_empty.
    destruct out as [[|c b]|], err as [[|c' b']|]; cbn [nonempty]; try discriminate;
      intros [= <-] _; destruct force_summary; reflexivity.
Qed.

(** With a retry, the trace after the notice decides the outcome. *)
Lemma quality_run_command_retry (force_summary : bool) (tr : trace)
  (first : CompletedProcess) :
  recorded (sh env tr (inv force_summary)) = Ok first ->
  wants_retry force_summary first = true ->
  let tr2 := (tr ++ [Spawn (inv force_summary)] ++ [Print InfoRetryWithoutForce])%list in
  run_command env config_file command cwd timeout force_summary tr
  = match sh env tr2 (inv false) with
    | Completed result => (Ok (classify result), (tr2 ++ [Spawn (inv false)])%list)
    | TimedOut out err =>
        (Raise (TimeoutExpired (inv false) out err), (tr2 ++ [Spawn (inv false)])%list)
    end.
Proof.
  run_unfold.
  destruct (sh env tr _) as [r|out err].
  - intros [= <-] H. cbn [stdout stderr returncode] in *.
    destruct (negb (returncode r =? 0)%Z && force_summary); cbn [andb] in H |- *;
      [|discriminate].
    rewrite H. rewrite <- !app_assoc.
    destruct (sh env _ _); reflexivity.
  - unfold timeout_stdout, or_empty.
    destruct out as [[|c b]|], err as [[|c' b']|]; cbn [nonempty]; try discriminate;
      intros [= <-] H; destruct force_summary; discriminate H.
Qed.

(** One call adds one process to the trace, or one process, the notice and
    a second process. *)
Lemma quality_run_command_adds (force_summary : bool) (tr : trace) :
  exists r,
    run_command env config_file command cwd timeout force_summary tr
    = (r, (tr ++ [Spawn (inv force_summary)])%list)
    \/ run_command env config_file command cwd timeout force_summary tr
       = (r, ((tr ++ [Spawn (inv force_summary)] ++ [Print InfoRetryWithoutForce])
              ++ [Spawn (inv false)])%list).
Proof.
  destruct (recorded (sh env tr (inv force_summary))) as [first|e] eqn:R.
  - destruct (wants_retry force_summary first) eqn:W.
    + rewrite (quality_run_command_retry _ _ _ R W).
      destruct (sh env _ (inv false)); eexists; right; reflexivity.
    + rewrite (quality_run_command_single _ _ _ R W). eexists; left; reflexivity.
  - rewrite (quality_run_command_raises _ _ _ R). eexists; left; reflexivity.
Qed.

(** After a first attempt that timed out nothing asks for a retry: what the
    [except] clause records, when it records, is a line feed. *)
Lemma timeout_never_retried (force_summary : bool) (out err : option string)
  (first : CompletedProcess) :
  recorded (TimedOut out err) = Ok first ->
  first = {| stdout := nl; stderr := ""; returncode := 124 |}
  /\ wants_retry force_summary first = false.
Proof.
  unfold recorded, timeout_stdout, or_empty.
  destruct out as [[|c b]|], err as [[|c' b']|]; cbn [nonempty]; try discriminate;
    intros [= <-]; (split; [reflexivity|]);
    unfold wants_retry; cbn [stdout stderr returncode];
    destruct force_summary; reflexivity.
Qed.

End WithEnv.
End QualityFacts.

(* ================================================================== *)
(** * Facts about the speed runner's [run_command] *)
(* ================================================================== *)

Module SpeedFacts.
Import PyStr Harness Invoker Speed.

Section WithEnv.
Variable env : Env.
Variables (config_file command cwd : string) (timeout : Z).

Let inv (use_force : bool) : Invocation :=
  mkInvocation (cg_command config_file command use_force) cwd timeout.

Ltac run_unfold :=
  cbv beta iota zeta delta
    [run_command try_except bind execute subprocess_run ret print emit time
     wants_retry timeout_message inv].

(** A first attempt that times out is returned at once, as exit code 124. *)
Lemma speed_run_command_timeout (force_summary : bool) (tr : trace)
  (out err : option string) :
  sh env tr (inv force_summary) = TimedOut out err ->
  let tr1 := (tr ++ [Spawn (inv force_summary)])%list in
  run_command env config_file command cwd timeout force_summary tr
  = (Ok ((now env tr1 - now env tr)%Q, timeout_message timeout out err, 124%Z), tr1).
Proof.
  run_unfold. intros ->. reflexivity.
Qed.

Lemma speed_run_command_single (force_summary : bool) (tr : trace)
  (first : CompletedProcess) :
  sh env tr (inv force_summary) = Completed first ->
  wants_retry force_summary first = false ->
  let tr1 := (tr ++ [Spawn (inv force_summary)])%list in
  run_command env config_file command cwd timeout force_summary tr
  = (Ok ((now env tr1 - now env tr)%Q, stdout first, returncode first), tr1).
Proof.
  run_unfold. intros -> H.
  destruct (negb (returncode first =? 0)%Z && force_summary); cbn [andb] in H |- *;
    [rewrite H|]; reflexivity.
Qed.

Lemma speed_run_command_retry (force_summary : bool) (tr : trace)
  (first : CompletedProcess) :
  sh env tr (inv force_summary) = Completed first ->
  wants_retry force_summary first = true ->
  let tr2 := (tr ++ [Spawn (inv force_summary)] ++ [Print InfoRetryWithoutForce])%list in
  let tr3 := (tr2 ++ [Spawn (inv false)])%list in
  run_command env config_file command cwd timeout force_summary tr
  = match sh env tr2 (inv false) with
    | Completed result =>
        (Ok ((now env tr3 - now env tr)%Q, stdout result, returncode result), tr3)
    | TimedOut out err => (Raise (TimeoutExpired (inv false) out err), tr3)
    end.
Proof.
  run_unfold. intros -> H.
  destruct (negb (returncode first =? 0)%Z && force_summary); cbn [andb] in H |- *;
    [|discriminate].
  rewrite H. rewrite <- !app_assoc.
  destruct (sh env _ _); reflexivity.
Qed.

End WithEnv.
End SpeedFacts.

(* ================================================================== *)
(** * Facts about the quality orchestrator *)
(* ================================================================== *)

Module OrchestratorFacts.
Import PyStr Harness Invoker Scorer Quality HarnessFacts Props.

Lemma assess_consistent (raw : bool) (out : string) (challenge : Challenge) :
  can_solve (fst (assess raw out challenge)) = true ->
  snd (assess raw out challenge) = false.
Proof.
  unfold assess. destruct raw; simpl; [discriminate|].
  intros H. apply Qle_bool_iff in H.
  unfold Qlt_bool. apply negb_false_iff. apply Qle_bool_iff.
  unfold score in *. lra.
Qed.

Section WithEnv.
Variable env : Env.

Lemma run_command_rows (config_file command cwd : string) (timeout : Z)
  (force_summary : bool) (tr : trace) :
  rows (snd (run_command env config_file command cwd timeout force_summary tr))
  = rows tr.
Proof.
  destruct (QualityFacts.quality_run_command_adds env config_file command cwd
              timeout force_summary tr) as (r & [-> | ->]);
    cbn [snd]; rewrite !rows_app; cbn [rows app]; rewrite !app_nil_r; reflexivity.
Qed.

(** What one challenge adds to the trace. *)
Lemma run_challenge_step (repo_root model_name config_file config_path_full : string)
  (challenge_name : string) (challenge : Challenge) (tr : trace) :
  nonempty (get (command challenge) "") = true ->
  run_challenge env repo_root model_name config_file config_path_full
    challenge_name challenge tr
  = match run_command env config_path_full (get (command challenge) "")
            repo_root TIMEOUT_SECONDS true
            (tr ++ [Print (ChallengeStart challenge_name)])%list with
    | (Ok (out, exit_code, _, raw), tr') =>
        let evaluation := fst (assess raw out challenge) in
        (Ok tt,
         (tr' ++ [Print (QualityLine (quality_score evaluation)
                           (can_solve evaluation));
                  Row {| row_model := model_name;
                         row_config_file := config_file;
                         row_challenge := challenge_name;
                         row_can_solve := can_solve evaluation;
                         row_needs_full_output := snd (assess raw out challenge);
                         row_quality_score := quality_score evaluation;
                         row_summary := out;
                         row_exit_code := exit_code |}])%list)
    | (Raise e, tr') => (Ok tt, (tr' ++ [Print (ErrorLine e)])%list)
    end.
Proof.
  intros Hc. unfold run_challenge. rewrite Hc. cbn [negb].
  unfold bind at 1, print at 1, emit at 1, try_except at 1.
  unfold bind at 1.
  destruct (run_command _ _ _ _ _ _ _) as [[[[[out ec] file] raw]|e] tr'].
  - destruct (assess raw out challenge) as [ev nf].
    unfold bind, print, emit. cbn [fst snd]. rewrite <- app_assoc. reflexivity.
  - reflexivity.
Qed.

Lemma for_each_preserves {A : Type} (P : trace -> Prop) (body : A -> M unit)
  (xs : list A) :
  (forall x tr, P tr -> P (snd (body x tr))) ->
  forall tr, P tr -> P (snd (for_each xs body tr)).
Proof.
  intros Hbody. induction xs as [|x xs IH]; intros tr Htr; cbn [for_each].
  - exact Htr.
  - unfold bind. specialize (Hbody x tr Htr).
    destruct (body x tr) as [[[]|e] tr']; cbn [snd] in *.
    + apply IH, Hbody.
    + exact Hbody.
Qed.

Lemma print_preserves (n : notice) (tr : trace) :
  rows_consistent tr -> rows_consistent (snd (print n tr)).
Proof.
  unfold rows_consistent, print, emit. cbn [snd].
  rewrite rows_app. cbn [rows]. rewrite app_nil_r. trivial.
Qed.

Lemma run_challenge_preserves
  (repo_root model_name config_file config_path_full challenge_name : string)
  (challenge : Challenge) (tr : trace) :
  rows_consistent tr ->
  rows_consistent
    (snd (run_challenge env repo_root model_name config_file config_path_full
            challenge_name challenge tr)).
Proof.
  intros Htr.
  destruct (nonempty (get (command challenge) "")) eqn:Hc.
  - rewrite (run_challenge_step _ _ _ _ _ _ _ Hc).
    pose proof (run_command_rows config_path_full (get (command challenge) "")
                  repo_root TIMEOUT_SECONDS true
                  (tr ++ [Print (ChallengeStart challenge_name)])%list) as Hrows.
    destruct (run_command _ _ _ _ _ _ _) as [[[[[out ec] file] raw]|e] tr'];
      cbn [snd] in *; unfold rows_consistent in *;
      rewrite rows_app, Hrows, rows_app; cbn [rows]; rewrite !app_nil_r.
    + apply Forall_app; split; [exact Htr|].
      constructor; [|constructor].
      unfold row_consistent; cbn. apply assess_consistent.
    + exact Htr.
  - unfold run_challenge. rewrite Hc. cbn [negb]. apply print_preserves, Htr.
Qed.

Lemma run_config_preserves (repo_root model_name : string)
  (challenges : list (string * Challenge)) (config_file : string) (tr : trace) :
  rows_consistent tr ->
  rows_consistent
    (snd (run_config env repo_root model_name challenges config_file tr)).
Proof.
  intros Htr. unfold run_config.
  rewrite (exists_run env (config_path env config_file) tr).
  destruct (fault env tr _); [exact Htr|].
  destruct (negb (path_exists env tr (config_path env config_file))).
  - apply print_preserves, Htr.
  - unfold bind at 1.
    pose proof (print_preserves (EvaluatingModel model_name config_file) tr Htr) as Hp.
    destruct (print _ tr) as [[[]|e] tr1]; cbn [snd] in *; [|exact Hp].
    apply for_each_preserves; [|exact Hp].
    intros [name challenge] tr2 H2.
    rewrite (load_challenge_run env name challenge).
    destruct (fault env tr2 _); [exact H2|]. apply run_challenge_preserves, H2.
Qed.

Lemma run_model_preserves (repo_root : string)
  (challenges : list (string * Challenge)) (model : string * list string)
  (tr : trace) :
  rows_consistent tr ->
  rows_consistent (snd (run_model env repo_root challenges model tr)).
Proof.
  intros Htr. destruct model as [model_name [|c cs]]; cbn [run_model].
  - apply print_preserves, Htr.
  - apply for_each_preserves; [|exact Htr].
    intros config_file tr'. apply run_config_preserves.
Qed.

Lemma run_quality_evaluation_preserves (repo_root : string)
  (models : list (string * list string))
  (challenges : list (string * Challenge)) (tr : trace) :
  rows_consistent tr ->
  rows_consistent
    (snd (run_quality_evaluation env repo_root models challenges tr)).
Proof.
  intros Htr. unfold run_quality_evaluation. destruct challenges as [|c cs].
  - apply print_preserves, Htr.
  - set (challenges := c :: cs).
    unfold bind at 1.
    pose proof (print_preserves (Starting (map fst models) (map fst challenges))
                  tr Htr) as Hp.
    destruct (print _ tr) as [[[]|e] tr1]; cbn [snd] in *; [|exact Hp].
    unfold bind.
    assert (Hloop : rows_consistent
                      (snd (for_each models (run_model env repo_root challenges) tr1))).
    { apply for_each_preserves; [|exact Hp].
      intros model tr'. apply run_model_preserves. }
    destruct (for_each models _ tr1) as [[[]|e] tr2]; cbn [snd] in *;
      [|exact Hloop].
    apply print_preserves, Hloop.
Qed.

End WithEnv.
End OrchestratorFacts.

(* ================================================================== *)
(** * Facts about strings *)
(* ================================================================== *)

Module StrFacts.
Import PyStr.

Lemma app_nil_r (s : string) : s ++ "" = s.
Proof. induction s as [|c s IH]; cbn; [|rewrite IH]; reflexivity. Qed.

Lemma app_assoc (a b c : string) : (a ++ b) ++ c = a ++ b ++ c.
Proof. induction a as [|x a IH]; cbn; [|rewrite IH]; reflexivity. Qed.

Lemma length_app (a b : string) :
  String.length (a ++ b) = (String.length a + String.length b)%nat.
Proof. induction a as [|x a IH]; cbn; [|rewrite IH]; reflexivity. Qed.

Lemma nonempty_app_r (a b : string) : nonempty b = true -> nonempty (a ++ b) = true.
Proof. destruct a; cbn; trivial. Qed.

(** ** Prefixes and occurrences *)

Lemma drop_prefix_app (p r : string) : drop_prefix p (p ++ r) = Some r.
Proof.
  induction p as [|c p IH]; cbn; [reflexivity|].
  rewrite Ascii.eqb_refl. exact IH.
Qed.

Lemma drop_prefix_Some (p s r : string) : drop_prefix p s = Some r -> s = p ++ r.
Proof.
  revert s. induction p as [|c p IH]; intros s; cbn.
  - intros [= ->]. reflexivity.
  - destruct s as [|d s]; [discriminate|].
    destruct (Ascii.eqb c d) eqn:E; [|discriminate].
    apply Ascii.eqb_eq in E. subst d. intros H. rewrite (IH _ H). reflexivity.
Qed.

Lemma contains_cons (p : string) (c : ascii) (s : string) :
  contains p (String c s)
  = match drop_prefix p (String c s) with
    | Some _ => true
    | None => contains p s
    end.
Proof. reflexivity. Qed.

(** [p in s] holds exactly when [s] is some text, [p], some text. *)
Lemma contains_true_iff (p s : string) :
  contains p s = true <-> exists a b, s = a ++ p ++ b.
Proof.
  split.
  - induction s as [|c s IH].
    + cbn. destruct (drop_prefix p "") as [r|] eqn:E; [|discriminate].
      intros _. exists "", r. cbn. apply (drop_prefix_Some _ _ _ E).
    + rewrite contains_cons.
      destruct (drop_prefix p (String c s)) as [r|] eqn:E.
      * intros _. exists "", r. cbn. apply (drop_prefix_Some _ _ _ E).
      * intros H. destruct (IH H) as (a & b & ->).
        exists (String c a), b. reflexivity.
  - intros (a & b & ->). induction a as [|c a IH].
    + cbn [append]. destruct (p ++ b) as [|d t] eqn:E.
      * destruct p; [reflexivity|discriminate].
      * rewrite contains_cons, <- E, drop_prefix_app. reflexivity.
    + cbn [append]. rewrite contains_cons.
      destruct (drop_prefix p _); [reflexivity|exact IH].
Qed.

Lemma contains_false_cons (p : string) (c : ascii) (s : string) :
  contains p (String c s) = false ->
  drop_prefix p (String c s) = None /\ contains p s = false.
Proof.
  rewrite contains_cons. destruct (drop_prefix p (String c s)); [discriminate|].
  auto.
Qed.

(** An occurrence inside a part of [s] is an occurrence in [s]. *)
Lemma contains_within (p x a b : string) :
  contains p x = true -> contains p (a ++ x ++ b) = true.
Proof.
  intros H. apply contains_true_iff in H. destruct H as (u & v & ->).
  apply contains_true_iff. exists (a ++ u), (v ++ b).
  rewrite !app_assoc. reflexivity.
Qed.

(** An occurrence of a text is an occurrence of each of its parts. *)
Lemma contains_part (u p v s : string) :
  contains (u ++ p ++ v) s = true -> contains p s = true.
Proof.
  intros H. apply contains_true_iff in H. destruct H as (a & b & ->).
  apply contains_true_iff. exists (a ++ u), (v ++ b).
  rewrite !app_assoc. reflexivity.
Qed.

(** ** Cutting at the leftmost occurrence *)

Lemma split1_cons (sep : string) (c : ascii) (s : string) :
  split1 sep (String c s)
  = match drop_prefix sep (String c s) with
    | Some rest => Some ("", rest)
    | None =>
        match split1 sep s with
        | Some (a, b) => Some (String c a, b)
        | None => None
        end
    end.
Proof. reflexivity. Qed.

Lemma split1_Some (sep s a b : string) :
  split1 sep s = Some (a, b) -> s = a ++ sep ++ b.
Proof.
  revert a. induction s as [|c s IH]; intros a.
  - cbn. destruct (drop_prefix sep "") as [r|] eqn:E; [|discriminate].
    intros [= <- <-]. cbn. apply (drop_prefix_Some _ _ _ E).
  - rewrite split1_cons.
    destruct (drop_prefix sep (String c s)) as [r|] eqn:E.
    + intros [= <- <-]. cbn. apply (drop_prefix_Some _ _ _ E).
    + destruct (split1 sep s) as [[a' b']|]; [|discriminate].
      intros [= <- <-]. cbn. rewrite (IH a' eq_refl). reflexivity.
Qed.

Lemma split1_None (sep s : string) :
  contains sep s = false -> split1 sep s = None.
Proof.
  induction s as [|c s IH].
  - cbn. destruct (drop_prefix sep ""); [discriminate|reflexivity].
  - intros H. apply contains_false_cons in H. destruct H as [H1 H2].
    rewrite split1_cons, H1, (IH H2). reflexivity.
Qed.

(** Every piece of a split is a part of the text. *)
Lemma split_fuel_parts (fuel : nat) (sep s x : string) :
  In x (split_fuel fuel sep s) -> exists a b, s = a ++ x ++ b.
Proof.
  revert s. induction fuel as [|fuel IH]; intros s; cbn [split_fuel].
  - intros [<-|[]]. exists "", "". cbn. rewrite app_nil_r. reflexivity.
  - destruct (split1 sep s) as [[a b]|] eqn:E.
    + apply split1_Some in E. subst s. intros [<-|H].
      * exists "", (sep ++ b). reflexivity.
      * destruct (IH _ H) as (u & v & ->).
        exists (a ++ sep ++ u), v. rewrite !app_assoc. reflexivity.
    + intros [<-|[]]. exists "", "". cbn. rewrite app_nil_r. reflexivity.
Qed.

Lemma split_parts (sep s x : string) :
  In x (split sep s) -> exists a b, s = a ++ x ++ b.
Proof. apply split_fuel_parts. Qed.

(** A match of [sep] that starts before a character foreign to [sep] ends
    before it. *)
Lemma drop_prefix_before_foreign (sep u : string) (x : ascii) (v r : string) :
  contains (String x "") sep = false ->
  drop_prefix sep (u ++ String x v) = Some r ->
  exists r', drop_prefix sep u = Some r'.
Proof.
  revert u. induction sep as [|c sep IH]; intros u Hx H.
  - exists u. reflexivity.
  - apply contains_false_cons in Hx. destruct Hx as [Hc Hx].
    destruct u as [|d u]; cbn in H |- *.
    + cbn in Hc. destruct (Ascii.eqb x c) eqn:E; [discriminate|].
      rewrite Ascii.eqb_sym, E in H. discriminate.
    + destruct (Ascii.eqb c d); [|discriminate].
      exact (IH u Hx H).
Qed.

(** No occurrence of [sep] straddles a character foreign to [sep]. *)
Lemma contains_false_app_foreign (sep u : string) (x : ascii) (v : string) :
  contains (String x "") sep = false ->
  contains sep u = false ->
  contains sep (String x v) = false ->
  contains sep (u ++ String x v) = false.
Proof.
  intros Hx Hu Hv. induction u as [|d u IH]; [exact Hv|].
  apply contains_false_cons in Hu. destruct Hu as [Hd Hu].
  cbn [append]. rewrite contains_cons.
  destruct (drop_prefix sep (String d (u ++ String x v))) as [r|] eqn:E.
  - change (String d (u ++ String x v)) with (String d u ++ String x v) in E.
    destruct (drop_prefix_before_foreign _ _ _ _ _ Hx E) as [r' Hr'].
    rewrite Hd in Hr'. discriminate.
  - exact (IH Hu).
Qed.

(** The cut falls at the occurrence before which there is none. *)
Lemma split1_first (sep a b : string) :
  (forall u v, a = u ++ v -> nonempty v = true ->
               drop_prefix sep (v ++ sep ++ b) = None) ->
  split1 sep (a ++ sep ++ b) = Some (a, b).
Proof.
  induction a as [|c a IH]; intros H.
  - cbn [append]. destruct (sep ++ b) as [|d t] eqn:E.
    + destruct sep; [|discriminate]. cbn in E. subst b. reflexivity.
    + rewrite split1_cons, <- E, drop_prefix_app. reflexivity.
  - cbn [append]. rewrite split1_cons.
    rewrite (H "" (String c a) eq_refl eq_refl : drop_prefix sep (String c (a ++ sep ++ b)) = None).
    rewrite IH; [reflexivity|].
    intros u v -> Hv. apply (H (String c u) v eq_refl Hv).
Qed.

End StrFacts.

Module SplitFacts.
Import PyStr StrFacts.

(** Skipping a text without occurrence that ends before a character foreign
    to the separator. *)
Lemma split1_skip (sep pre : string) (x : ascii) (rest : string) :
  contains (String x "") sep = false ->
  contains sep pre = false ->
  split1 sep (pre ++ String x rest)
  = match split1 sep (String x rest) with
    | Some (a, b) => Some (pre ++ a, b)
    | None => None
    end.
Proof.
  intros Hx. induction pre as [|d pre IH]; intros Hpre.
  - cbn [append]. destruct (split1 sep (String x rest)) as [[a b]|]; reflexivity.
  - apply contains_false_cons in Hpre. destruct Hpre as [Hd Hpre].
    cbn [append]. rewrite split1_cons.
    destruct (drop_prefix sep (String d (pre ++ String x rest))) as [r|] eqn:E.
    + change (String d (pre ++ String x rest)) with (String d pre ++ String x rest) in E.
      destruct (drop_prefix_before_foreign _ _ _ _ _ Hx E) as [r' Hr'].
      rewrite Hd in Hr'. discriminate.
    + rewrite (IH Hpre).
      destruct (split1 sep (String x rest)) as [[a b]|]; reflexivity.
Qed.

Lemma split1_shorter (sep s a b : string) :
  nonempty sep = true -> split1 sep s = Some (a, b) ->
  (String.length b < String.length s)%nat.
Proof.
  intros Hsep H. apply split1_Some in H. subst s.
  rewrite !length_app. destruct sep; [discriminate|]. cbn. lia.
Qed.

Lemma split1_empty (sep : string) : nonempty sep = true -> split1 sep "" = None.
Proof. destruct sep; [discriminate|reflexivity]. Qed.

(** Any fuel from the length of the text on gives the same split. *)
Lemma split_fuel_enough (sep : string) (n m : nat) (s : string) :
  nonempty sep = true ->
  (String.length s <= n)%nat -> (String.length s <= m)%nat ->
  split_fuel n sep s = split_fuel m sep s.
Proof.
  intros Hsep. revert m s. induction n as [|n IH]; intros m s Hn Hm.
  - destruct s; [|cbn in Hn; lia].
    destruct m; cbn [split_fuel]; [reflexivity|].
    rewrite (split1_empty _ Hsep). reflexivity.
  - cbn [split_fuel]. destruct (split1 sep s) as [[a b]|] eqn:E.
    + pose proof (split1_shorter _ _ _ _ Hsep E) as Hb.
      destruct m as [|m]; [lia|]. cbn [split_fuel]. rewrite E.
      f_equal. apply IH; lia.
    + destruct m; cbn [split_fuel]; [|rewrite E]; reflexivity.
Qed.

(** [split] cuts at the leftmost occurrence and splits the rest. *)
Lemma split_unfold (sep s : string) :
  nonempty sep = true ->
  split sep s
  = match split1 sep s with
    | None => [s]
    | Some (a, b) => a :: split sep b
    end.
Proof.
  intros Hsep. unfold split.
  destruct (split1 sep s) as [[a b]|] eqn:E.
  - pose proof (split1_shorter _ _ _ _ Hsep E) as Hb.
    destruct (String.length s) as [|n] eqn:L; [lia|].
    cbn [split_fuel]. rewrite E. f_equal.
    apply split_fuel_enough; [exact Hsep|lia|lia].
  - destruct (String.length s); cbn [split_fuel]; [|rewrite E]; reflexivity.
Qed.

End SplitFacts.

Module ClassifierFacts.
Import PyStr StrFacts SplitFacts Quality.

Lemma scan_lines_none (lines : list string) :
  Forall (fun line => contains "complete output is available at" line = false) lines ->
  scan_lines lines = None.
Proof.
  induction 1 as [|line lines Hl _ IH]; cbn [scan_lines]; [reflexivity|].
  rewrite Hl. exact IH.
Qed.

Lemma scan_lines_skip (head rest : list string) :
  Forall (fun line => contains "complete output is available at" line = false) head ->
  scan_lines (head ++ rest) = scan_lines rest.
Proof.
  induction 1 as [|line lines Hl _ IH]; cbn [scan_lines app]; [reflexivity|].
  rewrite Hl. exact IH.
Qed.

(** Text without "available at" has no output file. *)
Lemma output_file_none (stdout : string) :
  contains "available at" stdout = false -> output_file_of stdout = None.
Proof.
  intros H. unfold output_file_of. apply scan_lines_none.
  apply Forall_forall. intros line Hin.
  destruct (contains "complete output is available at" line) eqn:E; [|reflexivity].
  apply split_parts in Hin. destruct Hin as (a & b & ->).
  apply (contains_part "complete output is " "available at" "") in E.
  rewrite (contains_within _ _ a b E) in H. discriminate.
Qed.

(** The two pieces the marker line splits into. *)
Lemma marker_line_parts (pre path : string) :
  contains "available at " pre = false ->
  contains "available at " path = false ->
  split "available at " (pre ++ "complete output is available at " ++ path)
  = [pre ++ "complete output is "; path].
Proof.
  intros Hpre Hpath.
  rewrite split_unfold by reflexivity.
  change (pre ++ "complete output is available at " ++ path)
    with (pre ++ String "c" ("omplete output is available at " ++ path)).
  rewrite (split1_skip "available at " pre "c" _ eq_refl Hpre).
  cbn [split1 drop_prefix append Ascii.eqb Bool.eqb].
  rewrite split_unfold by reflexivity.
  rewrite (split1_None _ _ Hpath). reflexivity.
Qed.

Lemma scan_marker_line (pre path : string) (tail : list string) :
  contains "available at " pre = false ->
  contains "available at " path = false ->
  scan_lines ((pre ++ "complete output is available at " ++ path) :: tail)
  = Some (strip path).
Proof.
  intros Hpre Hpath. cbn [scan_lines].
  assert (Hm : contains "complete output is available at"
                 (pre ++ "complete output is available at " ++ path) = true).
  { apply contains_true_iff. exists pre, (" " ++ path). reflexivity. }
  rewrite Hm, (marker_line_parts _ _ Hpre Hpath). reflexivity.
Qed.

End ClassifierFacts.

(* ================================================================== *)
(** * Properties of the response classifier *)
(* ================================================================== *)

Module ClassifierProperties.
Import PyStr Quality ClassifierFacts.

(** C5, as the code has it.  Output that nowhere contains "available at"
    yields no output-file path.  When the first line that contains the
    marker phrase "complete output is available at" reads
    [pre + "complete output is available at " + path], with no
    "available at " inside [pre] or [path], the result is [path] trimmed of
    surrounding whitespace, whatever the later lines are. *)
Theorem output_file_extraction :
  (forall stdout : string,
     contains "available at" stdout = false -> output_file_of stdout = None)
  /\ (forall (stdout : string) (head : list string) (pre path : string)
        (tail : list string),
        split nl stdout
        = List.app head ((pre ++ "complete output is available at " ++ path) :: tail) ->
        Forall (fun line => contains "complete output is available at" line = false)
          head ->
        contains "available at " pre = false ->
        contains "available at " path = false ->
        output_file_of stdout = Some (strip path)).
Proof.
  split.
  - exact output_file_none.
  - intros stdout head pre path tail Hlines Hhead Hpre Hpath.
    unfold output_file_of. rewrite Hlines.
    rewrite (scan_lines_skip _ _ Hhead).
    apply scan_marker_line; assumption.
Qed.

Lemma output_file_extraction_witness :
  output_file_of ("Summary: build failed" ++ nl ++ "See the log for details.") = None
  /\ output_file_of
       ("Summary: build failed" ++ nl
        ++ "The complete output is available at /tmp/x.out  " ++ nl
        ++ "A copy of the complete output is available at /tmp/y.out")
     = Some "/tmp/x.out".
Proof.
  destruct output_file_extraction as [Hnone Hsome]. split.
  - apply Hnone. reflexivity.
  - apply (Hsome _ ["Summary: build failed"] "The " "/tmp/x.out  "
             ["A copy of the complete output is available at /tmp/y.out"]).
    + reflexivity.
    + repeat constructor.
    + reflexivity.
    + reflexivity.
Defined.

(** C5, as stated, fails: a line of the form "... available at /tmp/x.out"
    that lacks the words "complete output is" yields no path. *)
Lemma available_at_alone_is_no_marker :
  output_file_of "Full log available at /tmp/x.out" <> Some "/tmp/x.out".
Proof. vm_compute. discriminate. Qed.

End ClassifierProperties.

(* ================================================================== *)
(** * Properties of scoring and of the result rows *)
(* ================================================================== *)

Module ScoringProperties.
Import PyStr Harness Invoker Scorer Quality ScorerFacts Props Examples.

(** C7.  For every summary text and every challenge,
    [evaluate_summary_quality] returns a quality score between 0.0 and 1.0.
    The score is 0.4 when the issue is found, plus 0.4 when the solution is
    found, plus 0.2 times the phrase coverage; the phrase coverage is the
    number of key phrases found divided by their total, and 1.0 when there
    are no key phrases. *)
Theorem quality_score_in_unit_interval (summary : string) (challenge : Challenge) :
  let ev := evaluate_summary_quality summary challenge in
  (0 <= quality_score ev <= 1)%Q
  /\ (quality_score ev ==
        0.4 * (if issue_found ev then 1 else 0)
        + 0.4 * (if solution_found ev then 1 else 0)
        + 0.2 * phrase_coverage ev)%Q
  /\ (phrase_coverage ev ==
        if (total_phrases ev =? 0)%nat then 1
        else Qnat (phrases_found ev) / Qnat (total_phrases ev))%Q
  /\ total_phrases ev = List.length (get (key_phrases challenge) [])
  /\ phrases_found ev
     = count_phrases (lower summary) (get (key_phrases challenge) []).
Proof.
  intros ev. repeat split.
  - apply score_bounds. apply phrase_coverage_in_unit.
  - apply score_bounds. apply phrase_coverage_in_unit.
  - apply score_formula.
  - subst ev. unfold evaluate_summary_quality.
    cbn [phrase_coverage total_phrases phrases_found].
    destruct (get (key_phrases challenge) []) as [|p ps]; reflexivity.
Qed.

(** C8.  For every challenge whose expected issue and expected solution are
    empty and whose list of key phrases is empty, and for every summary text,
    [evaluate_summary_quality] returns quality score 1.0 and can_solve true. *)
Theorem empty_challenge_scores_full (summary : string) (challenge : Challenge) :
  get (expected_issue challenge) "" = "" ->
  get (expected_solution challenge) "" = "" ->
  get (key_phrases challenge) [] = [] ->
  let ev := evaluate_summary_quality summary challenge in
  (quality_score ev == 1.0)%Q /\ can_solve ev = true.
Proof.
  intros Hi Hs Hk ev. subst ev. unfold evaluate_summary_quality.
  rewrite Hi, Hs, Hk. cbn. split; reflexivity.
Qed.

Lemma empty_challenge_scores_full_witness :
  (quality_score (evaluate_summary_quality "anything at all" blank_challenge) == 1.0)%Q
  /\ can_solve (evaluate_summary_quality "anything at all" blank_challenge) = true.
Proof.
  apply (empty_challenge_scores_full "anything at all" blank_challenge);
    reflexivity.
Defined.

(** C1.  When the classification of the terminal invocation result reports
    used_raw_output, the orchestrator does not score the text: whatever the
    challenge and the summary contain, the evaluation has issue_found false,
    solution_found false, phrase coverage 0, no phrases found, quality score
    0.0 and can_solve false, and the row asks for the full output. *)
Theorem raw_output_zeroes_evaluation (terminal : CompletedProcess)
  (challenge : Challenge) :
  let '(summary, _, _, used_raw_output) := classify terminal in
  used_raw_output = true ->
  let '(ev, needs_full_output) := assess used_raw_output summary challenge in
  issue_found ev = false /\ solution_found ev = false
  /\ phrase_coverage ev = 0.0%Q /\ phrases_found ev = 0%nat
  /\ quality_score ev = 0.0%Q /\ can_solve ev = false
  /\ needs_full_output = true.
Proof.
  unfold classify. intros ->. cbn. repeat split; reflexivity.
Qed.

Lemma raw_output_zeroes_evaluation_witness :
  used_raw_output_of (stdout raw_passthrough) = true
  /\ issue_found (evaluate_summary_quality (stdout raw_passthrough) build_challenge) = true
  /\ solution_found (evaluate_summary_quality (stdout raw_passthrough) build_challenge) = true
  /\ can_solve (fst (assess (used_raw_output_of (stdout raw_passthrough))
                       (stdout raw_passthrough) build_challenge)) = false.
Proof.
  split; [reflexivity|]. split; [reflexivity|]. split; [reflexivity|].
  pose proof (raw_output_zeroes_evaluation raw_passthrough build_challenge) as H.
  unfold classify in H. specialize (H eq_refl).
  destruct (assess _ _ _) as [ev nf]. cbn [fst]. apply H.
Defined.

(** C10.  Every result row the quality orchestrator records is consistent:
    can_solve true implies needs_full_output false. *)
Theorem can_solve_excludes_needs_full_output (env : Env) (repo_root : string)
  (models : list (string * list string))
  (challenges : list (string * Challenge)) (r : ResultRow) :
  In r (rows (snd (run_quality_evaluation env repo_root models challenges []))) ->
  row_can_solve r = true -> row_needs_full_output r = false.
Proof.
  intros Hin.
  pose proof (OrchestratorFacts.run_quality_evaluation_preserves env repo_root
                models challenges [] (Forall_nil _)) as H.
  unfold rows_consistent in H. rewrite Forall_forall in H.
  exact (H r Hin).
Qed.

Lemma can_solve_excludes_needs_full_output_witness :
  exists r,
    In r (rows (snd (run_quality_evaluation summarising "/repo"
                       [("gpt-oss-20b", ["gpt-oss-20b.toml"])]
                       [("build", build_challenge)] [])))
    /\ row_can_solve r = true /\ row_needs_full_output r = false.
Proof.
  set (tr := snd (run_quality_evaluation summarising "/repo"
                    [("gpt-oss-20b", ["gpt-oss-20b.toml"])]
                    [("build", build_challenge)] [])).
  destruct (rows tr) as [|r rest] eqn:E; [vm_compute in E; discriminate|].
  assert (Hin : In r (rows tr)) by (rewrite E; left; reflexivity).
  assert (Hc : row_can_solve r = true).
  { vm_compute in E. injection E as <- _. reflexivity. }
  exists r. split; [left; reflexivity|]. split; [exact Hc|].
  exact (can_solve_excludes_needs_full_output summarising "/repo" _ _ r Hin Hc).
Defined.

End ScoringProperties.

(* ================================================================== *)
(** * Facts about binary64: exact conversions and products *)
(* ================================================================== *)

Module Binary64Facts.
Import Binary64.

(** ** Digits *)

Lemma digits2_pos_iter (p : positive) (k : positive) :
  digits2_pos (Pos.iter xO p k) = (digits2_pos p + k)%positive.
Proof.
  induction k as [|k IH] using Pos.peano_ind.
  - cbn. rewrite Pos.add_1_r. reflexivity.
  - rewrite Pos.iter_succ. cbn [digits2_pos]. rewrite IH.
    rewrite Pos.add_succ_r. reflexivity.
Qed.

Lemma digits2_pos_lower (p : positive) :
  (2 ^ (Zpos (digits2_pos p) - 1) <= Zpos p)%Z.
Proof.
  induction p as [p IH|p IH|]; cbn [digits2_pos].
  - rewrite Pos2Z.inj_succ.
    replace (Z.succ (Zpos (digits2_pos p)) - 1)%Z
      with (Z.succ (Zpos (digits2_pos p) - 1))%Z by lia.
    rewrite Z.pow_succ_r by lia.
    set (x := (2 ^ (Zpos (digits2_pos p) - 1))%Z) in *.
    rewrite Pos2Z.inj_xI. lia.
  - rewrite Pos2Z.inj_succ.
    replace (Z.succ (Zpos (digits2_pos p)) - 1)%Z
      with (Z.succ (Zpos (digits2_pos p) - 1))%Z by lia.
    rewrite Z.pow_succ_r by lia.
    set (x := (2 ^ (Zpos (digits2_pos p) - 1))%Z) in *.
    rewrite Pos2Z.inj_xO. lia.
  - reflexivity.
Qed.

Lemma digits2_pos_bound (p : positive) (k : Z) :
  (0 <= k)%Z -> (Zpos p < 2 ^ k)%Z -> (Zpos (digits2_pos p) <= k)%Z.
Proof.
  intros Hk Hp.
  destruct (Z.le_gt_cases (Zpos (digits2_pos p)) k) as [H|H]; [exact H|].
  exfalso.
  pose proof (digits2_pos_lower p) as Hl.
  assert (2 ^ k <= 2 ^ (Zpos (digits2_pos p) - 1))%Z
    by (apply Z.pow_le_mono_r; lia).
  apply (Z.lt_irrefl (Zpos p)).
  eapply Z.lt_le_trans; [exact Hp|]. eapply Z.le_trans; eassumption.
Qed.

Lemma iter_xO_value (p k : positive) :
  Zpos (Pos.iter xO p k) = (Zpos p * 2 ^ Zpos k)%Z.
Proof.
  change (Pos.iter xO p k) with (shift_pos k p).
  rewrite shift_pos_correct, Zpower_pos_nat, Zpower_nat_Z, positive_nat_Z.
  apply Z.mul_comm.
Qed.

(** ** Rounding what needs none *)

(** A mantissa of 53 digits with an exponent in range is what rounding
    gives back. *)
Lemma round_canonical (s : bool) (m : positive) (e : Z) :
  digits2_pos m = 53%positive -> (-1074 <= e <= 971)%Z ->
  binary_round_aux prec emax s (Zpos m) e loc_Exact = S754_finite s m e.
Proof.
  intros Hd He.
  assert (Hf : fexp prec emax (Zdigits2 (Zpos m) + e) = e).
  { unfold fexp, emin, prec, emax. cbn [Zdigits2]. rewrite Hd. lia. }
  unfold binary_round_aux, shr_fexp.
  rewrite Hf, Z.sub_diag. cbn [shr shr_record_of_loc shr_m loc_of_shr_record
                                round_nearest_even].
  rewrite Hf, Z.sub_diag. cbn [shr shr_record_of_loc shr_m].
  replace (e <=? emax - prec)%Z with true; [reflexivity|].
  symmetry. apply Z.leb_le. unfold emax, prec. lia.
Qed.

(** [float(n)] of a positive integer below 2^53 is the integer itself. *)
Lemma of_Z_exact (p : positive) :
  (Zpos p < 2 ^ 53)%Z ->
  exists (m : positive) (e : Z),
    of_Z (Zpos p) = S754_finite false m e
    /\ digits2_pos m = 53%positive /\ (-52 <= e <= 0)%Z
    /\ to_int (S754_finite false m e) = Some (Zpos p).
Proof.
  intros Hp.
  pose proof (digits2_pos_bound p 53 ltac:(lia) Hp) as Hd.
  unfold of_Z, binary_normalize, binary_round, shl_align.
  assert (Hf : fexp prec emax (Zpos (digits2_pos p) + 0) = (Zpos (digits2_pos p) - 53)%Z).
  { unfold fexp, emin, prec, emax. lia. }
  rewrite Hf, Z.sub_0_r.
  destruct (Zpos (digits2_pos p) - 53)%Z as [|k|k] eqn:E; [|lia|].
  - assert (Hd53 : digits2_pos p = 53%positive) by lia.
    exists p, 0%Z. rewrite (round_canonical false p 0 Hd53) by lia.
    split; [reflexivity|]. split; [exact Hd53|]. split; [lia|].
    unfold to_int. cbn [Z.leb Z.compare]. rewrite Z.pow_0_r, Z.mul_1_r. reflexivity.
  - assert (Hk : (digits2_pos p + k)%positive = 53%positive) by lia.
    exists (Pos.iter xO p k), (Zneg k).
    rewrite (round_canonical false (Pos.iter xO p k) (Zneg k));
      [|rewrite digits2_pos_iter; exact Hk|lia].
    split; [reflexivity|]. split; [rewrite digits2_pos_iter; exact Hk|].
    split; [lia|].
    unfold to_int. cbn [Z.leb Z.compare Z.opp].
    rewrite iter_xO_value, Z.quot_mul by (apply Z.pow_nonzero; lia).
    reflexivity.
Qed.

(** Multiplying by 1.0 changes nothing. *)
Lemma times_one (m : positive) (e : Z) :
  digits2_pos m = 53%positive -> (-1074 <= e <= 971)%Z ->
  SFmul prec emax f1_0 (S754_finite false m e) = S754_finite false m e.
Proof.
  intros Hd He. unfold SFmul, f1_0. cbn [xorb].
  change (4503599627370496 * m)%positive with (Pos.iter xO m 52).
  unfold binary_round_aux, shr_fexp.
  assert (Hf : fexp prec emax (Zdigits2 (Zpos (Pos.iter xO m 52)) + (-52 + e)) = e).
  { unfold fexp, emin, prec, emax. cbn [Zdigits2].
    rewrite digits2_pos_iter, Hd. lia. }
  rewrite Hf.
  replace (e - (-52 + e))%Z with 52%Z by lia.
  cbn [shr shr_record_of_loc].
  replace (iter_pos shr_1 52
             {| shr_m := Zpos (Pos.iter xO m 52); shr_r := false; shr_s := false |})
    with {| shr_m := Zpos m; shr_r := false; shr_s := false |} by reflexivity.
  cbn [shr_m loc_of_shr_record round_nearest_even].
  replace (-52 + e + 52)%Z with e by lia.
  assert (Hf2 : fexp prec emax (Zdigits2 (Zpos m) + e) = e).
  { unfold fexp, emin, prec, emax. cbn [Zdigits2]. rewrite Hd. lia. }
  rewrite Hf2, Z.sub_diag. cbn [shr shr_record_of_loc shr_m].
  replace (e <=? emax - prec)%Z with true; [reflexivity|].
  symmetry. apply Z.leb_le. unfold emax, prec. lia.
Qed.

(** [int] of a finite float is its integer part: the sign is kept and the
    magnitude is the greatest integer not above m * 2^e. *)
Lemma int_of_float_truncates (s : bool) (m : positive) (e : Z) (n : Z) :
  Speed.int_of_float (S754_finite s m e) = Ok n ->
  exists k,
    (0 <= k)%Z /\ n = (if s then - k else k)%Z
    /\ (k * 2 ^ Z.max 0 (- e) <= Zpos m * 2 ^ Z.max 0 e
        < (k + 1) * 2 ^ Z.max 0 (- e))%Z.
Proof.
  unfold Speed.int_of_float, to_int.
  destruct (0 <=? e)%Z eqn:E; intros [= <-].
  - apply Z.leb_le in E. exists (Zpos m * 2 ^ e)%Z.
    assert (0 < 2 ^ e)%Z by (apply Z.pow_pos_nonneg; lia).
    replace (Z.max 0 (- e)) with 0%Z by lia.
    replace (Z.max 0 e) with e by lia.
    rewrite Z.pow_0_r. split; [nia|]. split; [reflexivity|]. lia.
  - apply Z.leb_gt in E. exists (Z.quot (Zpos m) (2 ^ (- e))).
    assert (Hp : (0 < 2 ^ (- e))%Z) by (apply Z.pow_pos_nonneg; lia).
    replace (Z.max 0 (- e)) with (- e)%Z by lia.
    replace (Z.max 0 e) with 0%Z by lia.
    rewrite Z.pow_0_r, Z.mul_1_r.
    rewrite Z.quot_div_nonneg by lia.
    set (d := (2 ^ (- e))%Z) in *.
    pose proof (Z.mul_div_le (Zpos m) d Hp).
    pose proof (Z.mul_succ_div_gt (Zpos m) d Hp).
    pose proof (Z.div_pos (Zpos m) d ltac:(lia) Hp).
    split; [assumption|]. split; [reflexivity|]. lia.
Qed.

(** With the factor 1.0 the size is the token limit itself, up to 2^53. *)
Lemma size_of_times_one (max_tokens : Z) :
  (0 <= max_tokens < 2 ^ 53)%Z ->
  Speed.size_of max_tokens (Speed.PyFloat f1_0) = Ok max_tokens.
Proof.
  intros [H0 H1]. destruct max_tokens as [|p|p]; [reflexivity| |lia].
  destruct (of_Z_exact p H1) as (m & e & Hf & Hd & He & Hi).
  unfold Speed.size_of, Speed.float_of_int. rewrite Hf.
  rewrite (times_one m e Hd) by lia.
  unfold Speed.int_of_float. rewrite Hi. reflexivity.
Qed.

End Binary64Facts.

(* ================================================================== *)
(** * The synthetic test input *)
(* ================================================================== *)

Module TestFileProperties.
Import PyStr Harness Invoker Speed StrFacts Examples.

Lemma length_repeat_nat (s : string) (n : nat) :
  String.length (repeat_nat s n) = (n * String.length s)%nat.
Proof.
  induction n as [|n IH]; cbn [repeat_nat]; [reflexivity|].
  rewrite length_app, IH. reflexivity.
Qed.

Lemma length_mul_a (n : Z) :
  Z.of_nat (String.length (mul "a" n)) = Z.max 0 n.
Proof.
  unfold mul. rewrite length_repeat_nat. cbn [String.length]. lia.
Qed.

Lemma repeat_nat_a_chars (n : nat) (c : ascii) :
  In c (list_ascii_of_string (repeat_nat "a" n)) -> c = "a"%char.
Proof.
  induction n as [|n IH]; cbn [repeat_nat]; [intros []|].
  cbn. intros [H|H]; [symmetry; exact H|exact (IH H)].
Qed.



End TestFileProperties.

(* ================================================================== *)
(** * Properties of the fallback negotiation *)
(* ================================================================== *)

Module FallbackProperties.
Import PyStr Harness Invoker HarnessFacts Props Examples.

Lemma wants_retry_quality (force_summary : bool) (first : CompletedProcess) :
  Quality.wants_retry force_summary first = true ->
  force_summary = true /\ returncode first <> 0%Z
  /\ mentions_force_flag (lower (stdout first ++ nl ++ stderr first)) = true.
Proof.
  unfold Quality.wants_retry. intros H.
  apply andb_true_iff in H. destruct H as [H Hm].
  apply andb_true_iff in H. destruct H as [Hrc Hf].
  apply negb_true_iff, Z.eqb_neq in Hrc. auto.
Qed.

Lemma wants_retry_speed (force_summary : bool) (first : CompletedProcess) :
  Speed.wants_retry force_summary first = true ->
  force_summary = true /\ returncode first <> 0%Z
  /\ mentions_force_flag (lower (stdout first ++ nl ++ stderr first)) = true.
Proof. exact (wants_retry_quality force_summary first). Qed.

Lemma spawns_one (tr : trace) (i : Invocation) :
  spawns (tr ++ [Spawn i]) = (spawns tr ++ [i])%list.
Proof. rewrite spawns_app. reflexivity. Qed.

Lemma spawns_two (tr : trace) (i j : Invocation) :
  spawns ((tr ++ [Spawn i] ++ [Print InfoRetryWithoutForce]) ++ [Spawn j])
  = (spawns tr ++ [i; j])%list.
Proof. rewrite !spawns_app. cbn [spawns app]. rewrite <- app_assoc. reflexivity. Qed.

(** C3.  One call of [run_command], in either runner, spawns the subject CLI
    once or twice.  It spawns it a second time, without the force flag, only
    when the force flag was requested and the first attempt ran to its end
    with an exit code that is not zero and with the flag mentioned in its
    lower-cased stdout and stderr; a first attempt that timed out is never
    retried.  Whatever the retry returns is final, a non-zero exit code
    included.  The returned text, exit code, output-file path and raw-output
    flag all come from the terminal attempt alone, and so does the row the
    quality orchestrator writes.  When nothing is returned, an exception
    left [run_command] after the one or two processes: the [TimeoutExpired]
    of the retry, or, in the quality runner, the [TypeError] of the [except]
    clause on a first attempt that timed out with output captured. *)
Theorem at_most_one_fallback_retry (env : Env) (config_file cmd cwd : string)
  (timeout : Z) (force_summary : bool) (tr : trace) :
  let first := mkInvocation (cg_command config_file cmd force_summary) cwd timeout in
  let retry := mkInvocation (cg_command config_file cmd false) cwd timeout in
  let tr_retry := (tr ++ [Spawn first] ++ [Print InfoRetryWithoutForce])%list in
  (let '(r, tr') :=
     Quality.run_command env config_file cmd cwd timeout force_summary tr in
   match sh env tr first with
   | TimedOut out err =>
       spawns tr' = (spawns tr ++ [first])%list
       /\ r = match out, err with
              | None, None | None, Some "" | Some "", None | Some "", Some "" =>
                  Ok (Quality.classify
                        {| stdout := nl; stderr := ""; returncode := 124 |})
              | _, _ => Raise TypeError
              end
   | Completed attempt =>
       (spawns tr' = (spawns tr ++ [first])%list
        /\ r = Ok (Quality.classify attempt))
       \/ (spawns tr' = (spawns tr ++ [first; retry])%list
           /\ force_summary = true /\ returncode attempt <> 0%Z
           /\ mentions_force_flag
                (lower (stdout attempt ++ nl ++ stderr attempt)) = true
           /\ match sh env tr_retry retry with
              | Completed terminal => r = Ok (Quality.classify terminal)
              | TimedOut out err => r = Raise (TimeoutExpired retry out err)
              end)
   end)
  /\ (let '(r, tr') :=
        Speed.run_command env config_file cmd cwd timeout force_summary tr in
      match sh env tr first with
      | TimedOut out err =>
          spawns tr' = (spawns tr ++ [first])%list
          /\ r = Ok ((now env tr' - now env tr)%Q,
                     Speed.timeout_message timeout out err, 124%Z)
      | Completed attempt =>
          (spawns tr' = (spawns tr ++ [first])%list
           /\ r = Ok ((now env tr' - now env tr)%Q, stdout attempt, returncode attempt))
          \/ (spawns tr' = (spawns tr ++ [first; retry])%list
              /\ force_summary = true /\ returncode attempt <> 0%Z
              /\ mentions_force_flag
                   (lower (stdout attempt ++ nl ++ stderr attempt)) = true
              /\ match sh env tr_retry retry with
                 | Completed terminal =>
                     r = Ok ((now env tr' - now env tr)%Q,
                             stdout terminal, returncode terminal)
                 | TimedOut out err => r = Raise (TimeoutExpired retry out err)
                 end)
      end)
  /\ (forall (repo_root model_name file challenge_name : string)
        (challenge : Challenge) (terminal : CompletedProcess) (tr' : trace),
        nonempty (get (command challenge) "") = true ->
        Quality.run_command env config_file (get (command challenge) "")
          repo_root TIMEOUT_SECONDS true
          (tr ++ [Print (ChallengeStart challenge_name)])%list
        = (Ok (Quality.classify terminal), tr') ->
        let verdict :=
          Quality.assess (Quality.used_raw_output_of (stdout terminal))
            (stdout terminal) challenge in
        rows (snd (Quality.run_challenge env repo_root model_name file config_file
                     challenge_name challenge tr))
        = (rows tr
           ++ [{| row_model := model_name;
                  row_config_file := file;
                  row_challenge := challenge_name;
                  row_can_solve := can_solve (fst verdict);
                  row_needs_full_output := snd verdict;
                  row_quality_score := quality_score (fst verdict);
                  row_summary := stdout terminal;
                  row_exit_code := returncode terminal |}])%list).
Proof.
  intros first retry tr_retry. split; [|split].
  - destruct (sh env tr first) as [attempt|out err] eqn:E1.
    + assert (R : Quality.recorded (sh env tr first) = Ok attempt)
        by (rewrite E1; reflexivity).
      destruct (Quality.wants_retry force_summary attempt) eqn:W.
      * rewrite (QualityFacts.quality_run_command_retry env _ _ _ _ _ _ _ R W).
        destruct (wants_retry_quality _ _ W) as (Hf & Hrc & Hm).
        fold first retry tr_retry.
        destruct (sh env tr_retry retry) as [terminal|out err];
          right; unfold tr_retry; rewrite spawns_two; auto.
      * rewrite (QualityFacts.quality_run_command_single env _ _ _ _ _ _ _ R W).
        left. rewrite spawns_one. auto.
    + destruct (Quality.recorded (sh env tr first)) as [attempt|e] eqn:R.
      * rewrite E1 in R.
        destruct (QualityFacts.timeout_never_retried force_summary _ _ _ R)
          as [-> W].
        rewrite <- E1 in R.
        rewrite (QualityFacts.quality_run_command_single env _ _ _ _ _ _ _ R W).
        rewrite spawns_one. split; [reflexivity|].
        rewrite E1 in R. clear - R.
        destruct out as [[|c b]|], err as [[|c' b']|]; try discriminate R;
          reflexivity.
      * rewrite (QualityFacts.quality_run_command_raises env _ _ _ _ _ _ _ R).
        rewrite spawns_one. split; [reflexivity|].
        rewrite E1 in R. clear - R.
        destruct out as [[|c b]|], err as [[|c' b']|]; try discriminate R;
          injection R as <-; reflexivity.
  - destruct (sh env tr first) as [attempt|out err] eqn:E1.
    + destruct (Speed.wants_retry force_summary attempt) eqn:W.
      * rewrite (SpeedFacts.speed_run_command_retry env _ _ _ _ _ _ _ E1 W).
        destruct (wants_retry_speed _ _ W) as (Hf & Hrc & Hm).
        fold first retry tr_retry.
        destruct (sh env tr_retry retry) as [terminal|out err];
          right; unfold tr_retry; rewrite spawns_two; auto.
      * rewrite (SpeedFacts.speed_run_command_single env _ _ _ _ _ _ _ E1 W).
        left. rewrite spawns_one. auto.
    + rewrite (SpeedFacts.speed_run_command_timeout env _ _ _ _ _ _ _ _ E1).
      rewrite spawns_one. auto.
  - intros repo_root model_name file challenge_name challenge terminal tr' Hc Hrun verdict.
    rewrite (OrchestratorFacts.run_challenge_step env _ _ _ _ _ _ _ Hc).
    pose proof (OrchestratorFacts.run_command_rows env config_file
                  (get (command challenge) "") repo_root TIMEOUT_SECONDS true
                  (tr ++ [Print (ChallengeStart challenge_name)])%list) as Hrows.
    rewrite Hrun in Hrows |- *. unfold Quality.classify. cbn [snd] in Hrows |- *.
    rewrite rows_app, Hrows, rows_app. cbn [rows]. rewrite app_nil_r. reflexivity.
Qed.

Lemma at_most_one_fallback_retry_witness :
  exists r,
    rows (snd (Quality.run_challenge rejects_then_summarises "/repo" "gpt-oss-20b"
                 "gpt-oss-20b.toml" "/repo/evals/configs/gpt-oss-20b.toml"
                 "build" build_challenge []))
    = [r]
    /\ row_summary r = "Build failed: missing dependency. Run npm install (ENOENT)."
    /\ row_exit_code r = 0%Z.
Proof.
  destruct (at_most_one_fallback_retry rejects_then_summarises
              "/repo/evals/configs/gpt-oss-20b.toml" "npm run build" "/repo"
              TIMEOUT_SECONDS true []) as (_ & _ & H).
  eexists. split.
  - apply (H "/repo" "gpt-oss-20b" "gpt-oss-20b.toml" "build" build_challenge
             {| stdout := "Build failed: missing dependency. Run npm install (ENOENT).";
                stderr := "";
                returncode := 0 |}
             [Print (ChallengeStart "build");
              Spawn (mkInvocation
                       (cg_command "/repo/evals/configs/gpt-oss-20b.toml"
                          "npm run build" true)
                       "/repo" TIMEOUT_SECONDS);
              Print InfoRetryWithoutForce;
              Spawn (mkInvocation
                       (cg_command "/repo/evals/configs/gpt-oss-20b.toml"
                          "npm run build" false)
                       "/repo" TIMEOUT_SECONDS)]).
    + reflexivity.
    + vm_compute. reflexivity.
  - split; reflexivity.
Defined.

(** The speed runner returns a first-attempt timeout at once: one process,
    exit code 124, no look at the output. *)
Lemma speed_timeout_is_terminal (env : Env) (config_file command cwd : string)
  (timeout : Z) (force_summary : bool) (tr : trace) (out err : option string) :
  let first := mkInvocation (cg_command config_file command force_summary) cwd timeout in
  sh env tr first = TimedOut out err ->
  exists execution_time,
    Speed.run_command env config_file command cwd timeout force_summary tr
    = (Ok (execution_time, Speed.timeout_message timeout out err, 124%Z),
       (tr ++ [Spawn first])%list).
Proof.
  intros first H. eexists.
  apply (SpeedFacts.speed_run_command_timeout env _ _ _ _ _ _ _ _ H).
Qed.

(** The quality runner never retries after a first attempt that timed out:
    it spawns the one process, and returns exit code 124 when nothing was
    captured and raises [TypeError] otherwise. *)
Lemma quality_timeout_is_not_retried (env : Env)
  (config_file command cwd : string) (timeout : Z) (force_summary : bool)
  (tr : trace) (out err : option string) :
  let first := mkInvocation (cg_command config_file command force_summary) cwd timeout in
  sh env tr first = TimedOut out err ->
  let '(r, tr') :=
    Quality.run_command env config_file command cwd timeout force_summary tr in
  tr' = (tr ++ [Spawn first])%list
  /\ r = match Quality.timeout_stdout out err with
         | Ok text =>
             Ok (Quality.classify {| stdout := text; stderr := ""; returncode := 124 |})
         | Raise e => Raise e
         end.
Proof.
  intros first H.
  destruct (Quality.recorded (sh env tr first)) as [attempt|e] eqn:R.
  - pose proof R as R'. rewrite H in R'.
    destruct (QualityFacts.timeout_never_retried force_summary _ _ _ R') as [-> W].
    rewrite (QualityFacts.quality_run_command_single env _ _ _ _ _ _ _ R W).
    split; [reflexivity|].
    unfold Quality.recorded in R'.
    destruct (Quality.timeout_stdout out err); [|discriminate].
    injection R' as ->. reflexivity.
  - rewrite (QualityFacts.quality_run_command_raises env _ _ _ _ _ _ _ R).
    split; [reflexivity|].
    rewrite H in R. unfold Quality.recorded in R.
    destruct (Quality.timeout_stdout out err); [discriminate|].
    injection R as ->. reflexivity.
Qed.

(** C2, on the code.  The quality runner's [run_command] is called with the
    force flag and its first attempt times out after printing a line.  The
    specification asks for no retry and for the timeout result, exit code
    124, as the terminal one.  The runner does not retry, but it returns no
    result: the [except] clause adds the captured bytes to a text and
    [TypeError] leaves [run_command]; the orchestrator prints an error line
    and writes no row.  The speed runner, on the same subject CLI, returns
    exit code 124 after one process. *)
Theorem quality_timeout_raises_type_error :
  let first := mkInvocation (cg_command "eval.toml" "make test" true) "/repo" 300 in
  sh hangs_after_echo [] first
  = TimedOut (Some "cg: running with --force-summary") None
  /\ Quality.run_command hangs_after_echo "eval.toml" "make test" "/repo" 300 true []
     = (Raise TypeError, [Spawn first])
  /\ rows (snd (Quality.run_challenge hangs_after_echo "/repo" "gpt-oss-20b"
                  "eval.toml" "eval.toml" "tests"
                  {| command := Some "make test";
                     expected_issue := None;
                     expected_solution := None;
                     key_phrases := None |} []))
     = []
  /\ exists execution_time,
       Speed.run_command hangs_after_echo "eval.toml" "make test" "/repo" 300 true []
       = (Ok (execution_time,
              "Command timed out after 300s. stdout: "
              ++ "b'cg: running with --force-summary' stderr: ",
              124%Z),
          [Spawn first]).
Proof.
  intros first. split; [reflexivity|]. split; [vm_compute; reflexivity|].
  split; [vm_compute; reflexivity|].
  eexists. vm_compute. reflexivity.
Qed.

(** C6, on the code.  The subject CLI rejects the force flag and the retry
    without the flag times out.  The specification asks for a result with
    exit code 124; in both runners the retry runs outside the [try] block, so
    [run_command] raises [TimeoutExpired] and returns nothing.  The quality
    orchestrator then prints an error line and writes no row. *)
Theorem retry_timeout_escapes_run_command :
  let first := mkInvocation (cg_command "eval.toml" "make test" true) "/repo" 300 in
  let retry := mkInvocation (cg_command "eval.toml" "make test" false) "/repo" 300 in
  let escaped := TimeoutExpired retry (Some "partial summary") None in
  Quality.run_command rejects_then_hangs "eval.toml" "make test" "/repo" 300 true []
  = (Raise escaped, [Spawn first; Print InfoRetryWithoutForce; Spawn retry])
  /\ Speed.run_command rejects_then_hangs "eval.toml" "make test" "/repo" 300 true []
     = (Raise escaped, [Spawn first; Print InfoRetryWithoutForce; Spawn retry])
  /\ rows (snd (Quality.run_challenge rejects_then_hangs "/repo" "gpt-oss-20b"
                  "eval.toml" "eval.toml" "tests"
                  {| command := Some "make test";
                     expected_issue := None;
                     expected_solution := None;
                     key_phrases := None |} []))
     = [].
Proof.
  intros first retry escaped. repeat split; vm_compute; reflexivity.
Qed.

(** A first attempt that times out is returned by the speed runner with exit
    code 124 and the captured bytes shown in the text; the quality runner
    returns exit code 124 when nothing was captured. *)
Lemma first_timeout_is_recorded (env : Env) (config_file command cwd : string)
  (timeout : Z) (tr : trace) (out err : option string) :
  let first := mkInvocation (cg_command config_file command false) cwd timeout in
  sh env tr first = TimedOut out err ->
  (or_empty out = Str "" -> or_empty err = Str "" ->
   fst (Quality.run_command env config_file command cwd timeout false tr)
   = Ok (Quality.classify {| stdout := nl; stderr := ""; returncode := 124 |}))
  /\ exists execution_time,
       fst (Speed.run_command env config_file command cwd timeout false tr)
       = Ok (execution_time, Speed.timeout_message timeout out err, 124%Z).
Proof.
  intros first H. split.
  - intros Ho He.
    pose proof (quality_timeout_is_not_retried env config_file command cwd timeout
                  false tr out err H) as Q.
    destruct (Quality.run_command _ _ _ _ _ _ _) as [r tr'].
    destruct Q as [_ ->]. unfold Quality.timeout_stdout. rewrite Ho, He.
    reflexivity.
  - eexists. rewrite (SpeedFacts.speed_run_command_timeout env _ _ _ _ _ _ _ _ H).
    reflexivity.
Qed.

End FallbackProperties.

(* ================================================================== *)
(** * Facts about quoting and the shell's reading *)
(* ================================================================== *)

Module ShellFacts.
Import PyStr StrFacts Shell.

(** A character [shlex.quote] leaves alone means nothing to the shell and is
    no whitespace. *)
Lemma safe_char_plain (c : ascii) :
  is_safe_char c = true ->
  is_blank c = false /\ Ascii.eqb c SQ = false /\ Ascii.eqb c DQ = false
  /\ is_meta c = false /\ is_space c = false.
Proof.
  destruct c as [[] [] [] [] [] [] [] []]; vm_compute; intros H;
    try discriminate H; repeat split.
Qed.

Lemma extend_add_char (cur : option string) (c : ascii) (s : string) :
  extend (add_char cur c) s = extend cur (String c s).
Proof.
  unfold extend, add_char. destruct s as [|d s].
  - destruct cur; reflexivity.
  - destruct cur as [w|]; cbn [or_empty]; rewrite app_assoc; reflexivity.
Qed.

Lemma literal_words_safe (s rest : string) (cur : option string) :
  all_safe s = true ->
  literal_words Bare cur (s ++ rest) = literal_words Bare (extend cur s) rest.
Proof.
  revert cur. induction s as [|c s IH]; intros cur Hs; [reflexivity|].
  cbn [all_safe] in Hs. apply andb_true_iff in Hs. destruct Hs as [Hc Hs].
  destruct (safe_char_plain c Hc) as (Hb & Hq & Hd & Hm & _).
  cbn [append literal_words]. rewrite Hb, Hq, Hd, Hm.
  rewrite (IH _ Hs). rewrite extend_add_char. reflexivity.
Qed.

(** Single steps of the reading at the two quote characters. *)
Lemma bare_at_apostrophe (cur : option string) (rest : string) :
  literal_words Bare cur (String SQ rest) = literal_words Single (open_word cur) rest.
Proof. reflexivity. Qed.

Lemma bare_at_double_quote (cur : option string) (rest : string) :
  literal_words Bare cur (String DQ rest) = literal_words Double (open_word cur) rest.
Proof. reflexivity. Qed.

Lemma single_at_apostrophe (cur : option string) (rest : string) :
  literal_words Single cur (String SQ rest) = literal_words Bare cur rest.
Proof. reflexivity. Qed.

Lemma single_at_other (cur : option string) (c : ascii) (rest : string) :
  Ascii.eqb c SQ = false ->
  literal_words Single cur (String c rest)
  = literal_words Single (add_char cur c) rest.
Proof. intros H. cbn [literal_words]. rewrite H. reflexivity. Qed.

Lemma double_at_apostrophe (cur : option string) (rest : string) :
  literal_words Double cur (String SQ rest)
  = literal_words Double (add_char cur SQ) rest.
Proof. reflexivity. Qed.

Lemma double_at_double_quote (cur : option string) (rest : string) :
  literal_words Double cur (String DQ rest) = literal_words Bare cur rest.
Proof. reflexivity. Qed.

Lemma literal_words_single (s rest w : string) :
  literal_words Single (Some w) (escape_apostrophes s ++ String SQ rest)
  = literal_words Bare (Some (w ++ s)) rest.
Proof.
  revert w. induction s as [|c s IH]; intros w.
  - cbn [escape_apostrophes append].
    rewrite single_at_apostrophe, app_nil_r. reflexivity.
  - cbn [escape_apostrophes]. destruct (Ascii.eqb c SQ) eqn:E.
    + apply Ascii.eqb_eq in E. subst c.
      unfold sq_escape. cbn [append].
      rewrite single_at_apostrophe, bare_at_double_quote, double_at_apostrophe,
        double_at_double_quote, bare_at_apostrophe.
      unfold open_word, add_char.
      rewrite (IH (w ++ String SQ "")), app_assoc. reflexivity.
    + cbn [append]. rewrite (single_at_other _ _ _ E). unfold add_char.
      rewrite (IH (w ++ String c "")), app_assoc. reflexivity.
Qed.

(** The shell reads [quote s] as the single word [s], whatever [s] is. *)
Lemma literal_words_quote (s rest : string) :
  literal_words Bare None (quote s ++ rest) = literal_words Bare (Some s) rest.
Proof.
  unfold quote. destruct s as [|c s]; [reflexivity|]. cbn [nonempty negb].
  destruct (all_safe (String c s)) eqn:Hs.
  - rewrite (literal_words_safe _ _ _ Hs). reflexivity.
  - change ("'" ++ escape_apostrophes (String c s) ++ "'")
      with (String SQ (escape_apostrophes (String c s) ++ String SQ "")).
    cbn [append]. rewrite app_assoc. cbn [append].
    rewrite bare_at_apostrophe. unfold open_word.
    apply (literal_words_single (String c s) rest "").
Qed.

(** ** Trailing whitespace *)

Lemma rstrip_cons_keep (c : ascii) (s : string) :
  nonempty (rstrip s) = true -> rstrip (String c s) = String c (rstrip s).
Proof. intros H. cbn [rstrip]. rewrite H. reflexivity. Qed.

Lemma rstrip_app_keep (a b : string) :
  rstrip a = a -> rstrip (a ++ b) = a ++ rstrip b.
Proof.
  induction a as [|c a IH]; [reflexivity|].
  cbn [rstrip append]. intros H.
  destruct (negb (nonempty (rstrip a)) && is_space c) eqn:E; [discriminate|].
  injection H as H. rewrite (IH H), H in *.
  destruct a as [|d a]; cbn [append nonempty negb andb] in *; [|reflexivity].
  rewrite E, andb_false_r. reflexivity.
Qed.

Lemma rstrip_safe (s : string) : all_safe s = true -> rstrip s = s.
Proof.
  induction s as [|c s IH]; [reflexivity|]. cbn [all_safe rstrip]. intros Hs.
  apply andb_true_iff in Hs. destruct Hs as [Hc Hs].
  destruct (safe_char_plain c Hc) as (_ & _ & _ & _ & Hsp).
  rewrite (IH Hs), Hsp, andb_false_r. reflexivity.
Qed.

Lemma rstrip_ends_with_quote (x : string) :
  rstrip (x ++ String SQ "") = x ++ String SQ "".
Proof.
  induction x as [|c x IH]; [reflexivity|].
  cbn [append]. rewrite rstrip_cons_keep; rewrite IH; [reflexivity|].
  apply nonempty_app_r. reflexivity.
Qed.

Lemma rstrip_prefix_keep (p s : string) :
  rstrip s = s -> nonempty s = true -> rstrip (p ++ s) = p ++ s.
Proof.
  intros Hs Hn. induction p as [|c p IH]; [exact Hs|].
  cbn [append]. rewrite rstrip_cons_keep; rewrite IH; [reflexivity|].
  apply nonempty_app_r, Hn.
Qed.

Lemma quote_kept (s : string) :
  rstrip (quote s) = quote s /\ nonempty (quote s) = true.
Proof.
  unfold quote. destruct s as [|c s]; [split; reflexivity|]. cbn [nonempty negb].
  destruct (all_safe (String c s)) eqn:Hs.
  - split; [apply rstrip_safe, Hs|reflexivity].
  - split; [|reflexivity].
    change ("'" ++ escape_apostrophes (String c s) ++ "'")
      with (("'" ++ escape_apostrophes (String c s)) ++ String SQ "").
    apply rstrip_ends_with_quote.
Qed.

End ShellFacts.

(* ================================================================== *)
(** * Command construction *)
(* ================================================================== *)

Module CommandProperties.
Import PyStr StrFacts Shell ShellFacts Invoker Props.


(** The text of the command line: nothing but trailing whitespace of the
    unescaped remainder is stripped. *)
Lemma cg_command_text (config_file command : string) (use_force : bool) :
  cg_command config_file command use_force
  = "cg -c " ++ quote config_file
    ++ rstrip (" " ++ (if use_force then "--force-summary" else "") ++ " " ++ command).
Proof.
  unfold cg_command, strip.
  set (tail := " " ++ (if use_force then "--force-summary" else "") ++ " " ++ command).
  destruct (quote_kept config_file) as [Hq Hn].
  change (lstrip ("cg -c " ++ quote config_file ++ tail))
    with ("cg -c " ++ quote config_file ++ tail).
  rewrite <- (app_assoc "cg -c " (quote config_file) tail).
  rewrite rstrip_app_keep.
  - apply app_assoc.
  - apply rstrip_prefix_keep; assumption.
Qed.

Lemma reads_cg_c (rest : string) :
  literal_words Bare None ("cg -c " ++ rest)
  = option_map (close_word (Some "cg"))
      (option_map (close_word (Some "-c")) (literal_words Bare None rest)).
Proof. reflexivity. Qed.

Lemma rstrip_cons_cases (c : ascii) (t : string) :
  rstrip (String c t) = "" \/ rstrip (String c t) = String c (rstrip t).
Proof.
  cbn [rstrip]. destruct (negb (nonempty (rstrip t)) && is_space c); auto.
Qed.

(** C4, as the code has it.  Command construction shell-escapes the config
    file path and nothing else.  The command line is "cg -c ", the quoted
    config path, then a space, the fixed flag token or nothing, a space and
    the user command as written, with trailing whitespace removed.  Whatever
    the config path contains, the shell reads it as one literal word after
    [cg] and [-c]; the flag token is a fixed text that quoting leaves as it
    is; what the shell makes of the rest is what it makes of the flag and the
    unescaped command text. *)
Theorem only_config_path_is_escaped (config_file command : string)
  (use_force : bool) :
  let rest :=
    rstrip (" " ++ (if use_force then "--force-summary" else "") ++ " " ++ command) in
  cg_command config_file command use_force = "cg -c " ++ quote config_file ++ rest
  /\ quote "--force-summary" = "--force-summary"
  /\ sh_words (cg_command config_file command use_force)
     = option_map (fun ws => "cg" :: "-c" :: config_file :: ws) (sh_words rest).
Proof.
  intros rest. split; [apply cg_command_text|]. split; [reflexivity|].
  rewrite cg_command_text. fold rest. unfold sh_words.
  rewrite reads_cg_c, literal_words_quote.
  subst rest.
  set (t := (if use_force then "--force-summary" else "") ++ " " ++ command).
  change (" " ++ t) with (String " " t).
  destruct (rstrip_cons_cases " " t) as [E|E]; rewrite E.
  - reflexivity.
  - cbn [literal_words]. change (is_blank " ") with true. cbn iota.
    destruct (literal_words Bare None _); reflexivity.
Qed.

(** C4, as stated, fails: the user command is not escaped, so a command
    separator in it reaches the shell unquoted and the command text is not
    one literal word. *)
Lemma command_text_is_not_escaped :
  ~ every_token_escaped "eval.toml" "cat notes.txt; id" true.
Proof. vm_compute. discriminate. Qed.

End CommandProperties.


(* ================================================================== *)
(** * The rubric's corner values in binary64 *)
(* ================================================================== *)

Module Binary64Check.
Import Binary64.

(** With both texts found and full coverage the binary64 score is exactly
    1.0, and it passes the 0.7 threshold. *)
Lemma full_marks : score true true f1_0 = f1_0 /\ can_solve (score true true f1_0) = true.
Proof. split; vm_compute; reflexivity. Qed.

(** The specification's second example: the issue alone, none of two
    phrases, scores exactly 0.4 and fails. *)
Lemma issue_only : score true false (phrase_coverage 0 2) = f0_4
  /\ can_solve (score true false (phrase_coverage 0 2)) = false.
Proof. split; vm_compute; reflexivity. Qed.

(** For every total up to 40 key phrases and every count of found phrases,
    the binary64 score lies between 0.0 and 1.0. *)
Lemma score_in_unit_interval_up_to_40 :
  forallb (fun '(found, total) =>
             forallb (fun '(i, s) => in_unit_interval (score i s (phrase_coverage found total)))
               found_flags)
    (ratios_up_to 40) = true.
Proof. vm_compute. reflexivity. Qed.

(** For the same counts the binary64 rubric and the rational rubric take the
    same two decisions, can_solve and needs_full_output. *)
Lemma decisions_agree_up_to_40 :
  forallb (fun '(found, total) =>
             forallb (fun '(i, s) =>
                        let b := score i s (phrase_coverage found total) in
                        let q := Scorer.score i s (rational_coverage found total) in
                        Bool.eqb (can_solve b) (Qle_bool 0.7 q)
                        && Bool.eqb (needs_full_output b) (Qlt_bool q 0.5))
               found_flags)
    (ratios_up_to 40) = true.
Proof. vm_compute. reflexivity. Qed.

(** The sizes of the default size factors with the default token limit; a
    product that binary64 rounds below the next integer; a product that
    overflows; and a size factor that is not a number. *)
Lemma sizes_in_binary64 :
  map (fun x => Speed.size_of 131072 (Speed.PyFloat x)) [f0_1; f0_2; f0_5; f1_0]
  = [Ok 13107%Z; Ok 26214%Z; Ok 65536%Z; Ok 131072%Z]
  /\ Speed.size_of 100 (Speed.PyFloat f0_29) = Ok 28%Z
  /\ Speed.size_of 131072 (Speed.PyFloat f1e308) = Raise OverflowError
  /\ Speed.size_of 131072 (Speed.PyFloat S754_nan) = Raise ValueError
  /\ Speed.size_of 3 (Speed.PyInt 2) = Ok 6%Z.
Proof. repeat split; vm_compute; reflexivity. Qed.

(** In binary64 too, no score passes the 0.7 threshold and falls below the
    0.5 threshold. *)
Lemma thresholds_exclusive (x : spec_float) :
  can_solve x = true -> needs_full_output x = false.
Proof.
  unfold can_solve, needs_full_output, SFleb, SFltb, f0_7, f0_5, SFcompare.
  destruct x as [s|s| |s m e]; cbv beta iota.
  - discriminate.
  - destruct s; [discriminate|reflexivity].
  - discriminate.
  - destruct s; [discriminate|].
    rewrite (Z.compare_antisym e (-53)).
    destruct (e ?= -53)%Z eqn:E; cbv beta iota delta [CompOpp].
    + destruct (Pos.compare_cont Eq 6305039478318694 m) eqn:C1;
        try discriminate; intros _.
      * apply (Pos.compare_eq 6305039478318694 m) in C1. subst m. reflexivity.
      * change (6305039478318694 ?= m)%positive with
          (Pos.compare_cont Eq 6305039478318694 m) in *.
        assert (H : (6305039478318694 < m)%positive) by exact C1.
        destruct (Pos.compare_cont Eq m 4503599627370496) eqn:C2; try reflexivity.
        assert (H2 : (m < 4503599627370496)%positive) by exact C2.
        pose proof (Pos.lt_trans _ _ _ H H2) as H3.
        vm_compute in H3. discriminate H3.
    + discriminate.
    + reflexivity.
Qed.

End Binary64Check.

(* ================================================================== *)
(** * More about the scoring rubric *)
(* ================================================================== *)

Module RubricFacts.
Import PyStr Scorer ScorerFacts StrFacts Quality.

Lemma Qle_bool_false (x y : Q) : (y < x)%Q -> Qle_bool x y = false.
Proof.
  intros H. destruct (Qle_bool x y) eqn:E; [|reflexivity].
  apply Qle_bool_iff in E. lra.
Qed.

Lemma Qle_bool_true (x y : Q) : (x <= y)%Q -> Qle_bool x y = true.
Proof. apply Qle_bool_iff. Qed.

(** Half of a positive total, against the count. *)
Lemma half_le_ratio (k n : nat) :
  (0 < n)%nat -> ((1 # 2) <= Qnat k / Qnat n)%Q <-> (n <= 2 * k)%nat.
Proof.
  intros Hn.
  assert (Hpos : (0 < Qnat n)%Q) by (unfold Qnat, Qlt; simpl; lia).
  split.
  - intros H. apply (Qmult_le_r _ _ _ Hpos) in H.
    assert (E : (Qnat k / Qnat n * Qnat n == Qnat k)%Q).
    { field. intros C. rewrite C in Hpos. apply (Qlt_irrefl 0), Hpos. }
    rewrite E in H. unfold Qnat, Qle, Qmult, inject_Z in H.
    cbn [Qnum Qden] in H. lia.
  - intros H. apply Qle_shift_div_l; [exact Hpos|].
    unfold Qnat, Qle, Qmult, inject_Z. cbn [Qnum Qden]. lia.
Qed.

(** Lower-casing a text of code points below 256 goes letter by letter. *)
Lemma lower_app (a b : string) : lower (a ++ b) = lower a ++ lower b.
Proof. induction a as [|c a IH]; cbn; [|rewrite IH]; reflexivity. Qed.

Lemma count_phrases_mono (s s' : string) (phrases : list string) :
  (forall p, contains p s = true -> contains p s' = true) ->
  (count_phrases s phrases <= count_phrases s' phrases)%nat.
Proof.
  intros H. induction phrases as [|p ps IH]; cbn [count_phrases]; [lia|].
  destruct (contains (lower p) s) eqn:E.
  - rewrite (H _ E). lia.
  - destruct (contains (lower p) s'); lia.
Qed.

Lemma Qnat_le (k k' : nat) : (k <= k')%nat -> (Qnat k <= Qnat k')%Q.
Proof. intros H. unfold Qnat, Qle. simpl. lia. Qed.

Lemma ratio_mono (k k' n : nat) :
  (k <= k')%nat -> (0 < n)%nat -> (Qnat k / Qnat n <= Qnat k' / Qnat n)%Q.
Proof.
  intros Hk Hn.
  assert (Hpos : (0 < Qnat n)%Q) by (unfold Qnat, Qlt; simpl; lia).
  unfold Qdiv. apply Qmult_le_compat_r; [apply Qnat_le, Hk|].
  apply Qlt_le_weak, Qinv_lt_0_compat, Hpos.
Qed.

Lemma score_mono (i s i' s' : bool) (cov cov' : Q) :
  (i = true -> i' = true) -> (s = true -> s' = true) -> (cov <= cov')%Q ->
  (score i s cov <= score i' s' cov')%Q.
Proof.
  intros Hi Hs Hc. unfold score.
  destruct i, s, i', s';
    try (specialize (Hi eq_refl); discriminate);
    try (specialize (Hs eq_refl); discriminate); lra.
Qed.

(** The verdict against the two found-flags. *)
Lemma verdict_is_both_found (summary : string) (challenge : Challenge) :
  can_solve (evaluate_summary_quality summary challenge)
  = issue_found (evaluate_summary_quality summary challenge)
    && solution_found (evaluate_summary_quality summary challenge).
Proof.
  set (ev := evaluate_summary_quality summary challenge).
  pose proof (phrase_coverage_in_unit summary challenge) as [H0 H1].
  fold ev in H0, H1.
  change (can_solve ev) with (Qle_bool 0.7 (quality_score ev)).
  change (quality_score ev)
    with (score (issue_found ev) (solution_found ev) (phrase_coverage ev)).
  unfold score.
  destruct (issue_found ev), (solution_found ev); cbn [andb].
  - apply Qle_bool_true. lra.
  - apply Qle_bool_false. lra.
  - apply Qle_bool_false. lra.
  - apply Qle_bool_false. lra.
Qed.

End RubricFacts.

Module RubricProperties.
Import PyStr Scorer ScorerFacts StrFacts Quality RubricFacts.

(** X1.  The verdict is decided by the two expected texts alone: can_solve holds
    exactly when the issue and the solution are both found, whatever the key
    phrases are. *)
Theorem can_solve_iff_both_found (summary : string) (challenge : Challenge) :
  let ev := evaluate_summary_quality summary challenge in
  can_solve ev = issue_found ev && solution_found ev.
Proof. intros ev. apply verdict_is_both_found. Qed.

(** X2.  When the text was summarised, the row asks for the full output in these
    cases and no others: neither expected text is found; or exactly one is
    found and fewer than half of the key phrases are. *)
Theorem needs_full_output_cases (stdout : string) (challenge : Challenge) :
  let ev := evaluate_summary_quality stdout challenge in
  snd (assess false stdout challenge)
  = if issue_found ev && solution_found ev then false
    else if issue_found ev || solution_found ev
         then (2 * phrases_found ev <? total_phrases ev)%nat
         else true.
Proof.
  intros ev.
  pose proof (phrase_coverage_in_unit stdout challenge) as [H0 H1].
  fold ev in H0, H1.
  assert (Hcov : total_phrases ev = O /\ (phrase_coverage ev == 1)%Q
                 \/ (0 < total_phrases ev)%nat
                    /\ phrase_coverage ev
                       = (Qnat (phrases_found ev) / Qnat (total_phrases ev))%Q).
  { subst ev. unfold evaluate_summary_quality.
    cbn [total_phrases phrase_coverage phrases_found].
    destruct (get (key_phrases challenge) []) as [|p ps].
    - left. split; reflexivity.
    - right. split; [cbn; lia|reflexivity]. }
  cbn [assess snd]. fold ev. unfold Qlt_bool.
  change (quality_score ev)
    with (score (issue_found ev) (solution_found ev) (phrase_coverage ev)).
  unfold score.
  assert (Hone : Qle_bool 0.5 (0.0 + 0.4 + phrase_coverage ev * 0.2)
                 = negb (2 * phrases_found ev <? total_phrases ev)%nat).
  { destruct Hcov as [[Hn Hc]|[Hn Hc]].
    - rewrite Hn. cbn [Nat.ltb Nat.leb negb]. apply Qle_bool_true. lra.
    - destruct (2 * phrases_found ev <? total_phrases ev)%nat eqn:E; cbn [negb].
      + apply Nat.ltb_lt in E. apply Qle_bool_false.
        assert (Hh : ~ ((1 # 2) <= phrase_coverage ev)%Q).
        { rewrite Hc. intros C. apply (half_le_ratio _ _ Hn) in C. lia. }
        apply Qnot_le_lt in Hh. lra.
      + apply Nat.ltb_ge in E. apply Qle_bool_true.
        assert (Hh : ((1 # 2) <= phrase_coverage ev)%Q).
        { rewrite Hc. apply (half_le_ratio _ _ Hn). lia. }
        lra. }
  destruct (issue_found ev), (solution_found ev); cbn [andb orb].
  - rewrite Qle_bool_true by lra. reflexivity.
  - rewrite Hone. apply negb_involutive.
  - rewrite Hone. apply negb_involutive.
  - rewrite Qle_bool_false by lra. reflexivity.
Qed.

(** X3.  A text whose lower-cased form holds the lower-cased summary, as a
    summary with text added around it does when lower-casing goes letter by
    letter, never has the lower evaluation: what was found stays found, the
    score does not drop and a passing verdict stays. *)
Theorem longer_summary_scores_no_less (summary longer : string)
  (challenge : Challenge) :
  contains (lower summary) (lower longer) = true ->
  let ev := evaluate_summary_quality summary challenge in
  let ev' := evaluate_summary_quality longer challenge in
  (issue_found ev = true -> issue_found ev' = true)
  /\ (solution_found ev = true -> solution_found ev' = true)
  /\ (phrases_found ev <= phrases_found ev')%nat
  /\ (quality_score ev <= quality_score ev')%Q
  /\ (can_solve ev = true -> can_solve ev' = true).
Proof.
  intros Hin ev ev'.
  assert (Hsub : forall p, contains p (lower summary) = true ->
                           contains p (lower longer) = true).
  { intros p H. apply contains_true_iff in Hin. destruct Hin as (a & b & ->).
    apply contains_within, H. }
  assert (Hi : issue_found ev = true -> issue_found ev' = true).
  { subst ev ev'. unfold evaluate_summary_quality. cbn [issue_found].
    destruct (nonempty _); [apply Hsub|trivial]. }
  assert (Hs : solution_found ev = true -> solution_found ev' = true).
  { subst ev ev'. unfold evaluate_summary_quality. cbn [solution_found].
    destruct (nonempty _); [apply Hsub|trivial]. }
  assert (Hk : (phrases_found ev <= phrases_found ev')%nat).
  { subst ev ev'. unfold evaluate_summary_quality. cbn [phrases_found].
    apply count_phrases_mono, Hsub. }
  assert (Hc : (phrase_coverage ev <= phrase_coverage ev')%Q).
  { revert Hk. subst ev ev'. unfold evaluate_summary_quality.
    cbn [phrase_coverage phrases_found].
    destruct (get (key_phrases challenge) []) as [|p ps]; intros Hk.
    - apply Qle_refl.
    - apply ratio_mono; [exact Hk|cbn; lia]. }
  assert (Hq : (quality_score ev <= quality_score ev')%Q).
  { change (quality_score ev)
      with (score (issue_found ev) (solution_found ev) (phrase_coverage ev)).
    change (quality_score ev')
      with (score (issue_found ev') (solution_found ev') (phrase_coverage ev')).
    apply score_mono; assumption. }
  repeat split; try assumption.
  pose proof (verdict_is_both_found summary challenge) as E.
  pose proof (verdict_is_both_found longer challenge) as E'.
  fold ev in E. fold ev' in E'. rewrite E, E'.
  intros H. apply andb_true_iff in H. destruct H as [A B].
  rewrite (Hi A), (Hs B). reflexivity.
Qed.

Lemma longer_summary_scores_no_less_witness :
  (quality_score (evaluate_summary_quality "build failed: enoent"
                    Examples.build_challenge)
   <= quality_score (evaluate_summary_quality
                       "Build FAILED: ENOENT, a missing dependency. Run npm install."
                       Examples.build_challenge))%Q.
Proof.
  apply (longer_summary_scores_no_less "build failed: enoent"
           "Build FAILED: ENOENT, a missing dependency. Run npm install."
           Examples.build_challenge).
  reflexivity.
Defined.

End RubricProperties.

(* ================================================================== *)
(** * More about trimming and splitting *)
(* ================================================================== *)

Module TrimFacts.
Import PyStr StrFacts SplitFacts.

Lemma rstrip_idempotent (s : string) : rstrip (rstrip s) = rstrip s.
Proof.
  induction s as [|c s IH]; [reflexivity|].
  cbn [rstrip].
  destruct (negb (nonempty (rstrip s)) && is_space c) eqn:E; [reflexivity|].
  cbn [rstrip]. rewrite IH, E. reflexivity.
Qed.

Lemma lstrip_rstrip_lstrip (s : string) : lstrip (rstrip (lstrip s)) = rstrip (lstrip s).
Proof.
  induction s as [|c s IH]; [reflexivity|].
  cbn [lstrip]. destruct (is_space c) eqn:E; [exact IH|].
  cbn [rstrip]. rewrite E, andb_false_r. cbn [lstrip]. rewrite E. reflexivity.
Qed.

Lemma strip_idempotent (s : string) : strip (strip s) = strip s.
Proof.
  unfold strip. rewrite lstrip_rstrip_lstrip. apply rstrip_idempotent.
Qed.

Lemma lstrip_part (s : string) : exists a, s = a ++ lstrip s.
Proof.
  induction s as [|c s [a IH]]; [exists ""; reflexivity|].
  cbn [lstrip]. destruct (is_space c).
  - exists (String c a). cbn. rewrite <- IH. reflexivity.
  - exists "". reflexivity.
Qed.

Lemma rstrip_part (s : string) : exists b, s = rstrip s ++ b.
Proof.
  induction s as [|c s [b IH]]; [exists ""; reflexivity|].
  cbn [rstrip]. destruct (negb (nonempty (rstrip s)) && is_space c).
  - exists (String c s). reflexivity.
  - exists b. cbn. rewrite <- IH. reflexivity.
Qed.

(** A trimmed text is a part of the text. *)
Lemma strip_part (s : string) : exists a b, s = a ++ strip s ++ b.
Proof.
  destruct (lstrip_part s) as [a Ha]. destruct (rstrip_part (lstrip s)) as [b Hb].
  exists a, b. unfold strip. rewrite <- Hb. exact Ha.
Qed.

Lemma drop_prefix_app_l (p x y r : string) :
  drop_prefix p x = Some r -> drop_prefix p (x ++ y) = Some (r ++ y).
Proof.
  intros H. apply drop_prefix_Some in H. subst x.
  rewrite app_assoc. apply drop_prefix_app.
Qed.

Lemma contains_empty (sep : string) : nonempty sep = true -> contains sep "" = false.
Proof. destruct sep; [discriminate|reflexivity]. Qed.

(** The text before the leftmost occurrence has no occurrence. *)
Lemma split1_before (sep s a b : string) :
  nonempty sep = true -> split1 sep s = Some (a, b) -> contains sep a = false.
Proof.
  intros Hsep. revert a. induction s as [|c s IH]; intros a.
  - rewrite (split1_empty _ Hsep). discriminate.
  - rewrite split1_cons.
    destruct (drop_prefix sep (String c s)) as [r|] eqn:E.
    + intros [= <- <-]. apply contains_empty, Hsep.
    + destruct (split1 sep s) as [[a' b']|] eqn:E1; [|discriminate].
      intros [= <- <-]. rewrite contains_cons.
      destruct (drop_prefix sep (String c a')) as [r|] eqn:E2.
      * apply split1_Some in E1. subst s.
        apply (drop_prefix_app_l _ _ (sep ++ b')) in E2.
        cbn [append] in E2. rewrite E in E2. discriminate.
      * apply (IH a' eq_refl).
Qed.

Lemma split1_None_inv (sep s : string) :
  split1 sep s = None -> contains sep s = false.
Proof.
  induction s as [|c s IH].
  - cbn. destruct (drop_prefix sep ""); [discriminate|reflexivity].
  - rewrite split1_cons, contains_cons.
    destruct (drop_prefix sep (String c s)); [discriminate|].
    destruct (split1 sep s) as [[a b]|]; [discriminate|].
    intros _. apply IH. reflexivity.
Qed.

(** No piece of a split contains the separator. *)
Lemma split_fuel_pieces (fuel : nat) (sep s x : string) :
  nonempty sep = true -> (String.length s <= fuel)%nat ->
  In x (split_fuel fuel sep s) -> contains sep x = false.
Proof.
  intros Hsep. revert s. induction fuel as [|fuel IH]; intros s Hlen; cbn [split_fuel].
  - destruct s; [|cbn in Hlen; lia]. intros [<-|[]]. apply contains_empty, Hsep.
  - destruct (split1 sep s) as [[a b]|] eqn:E.
    + intros [<-|H].
      * apply (split1_before _ _ _ _ Hsep E).
      * apply (IH b); [|exact H].
        pose proof (split1_shorter _ _ _ _ Hsep E). lia.
    + intros [<-|[]]. apply split1_None_inv, E.
Qed.

Lemma split_pieces (sep s x : string) :
  nonempty sep = true -> In x (split sep s) -> contains sep x = false.
Proof. intros Hsep. apply split_fuel_pieces; [exact Hsep|apply Nat.le_refl]. Qed.

End TrimFacts.

Module ClassifierMore.
Import PyStr StrFacts SplitFacts TrimFacts Quality ClassifierFacts.

(** A path comes from the first line that carries the marker phrase. *)
Lemma scan_lines_some (lines : list string) (p : string) :
  scan_lines lines = Some p ->
  exists line piece,
    In line lines /\ In piece (split "available at " line) /\ p = strip piece.
Proof.
  induction lines as [|line lines IH]; cbn [scan_lines]; [discriminate|].
  destruct (contains "complete output is available at" line).
  - destruct (1 <? List.length (split "available at " line))%nat eqn:L; [|discriminate].
    intros [= <-]. exists line, (nth 1 (split "available at " line) "").
    split; [left; reflexivity|]. split; [|reflexivity].
    apply nth_In. apply Nat.ltb_lt, L.
  - intros H. destruct (IH H) as (l & piece & Hin & Hp & ->).
    exists l, piece. split; [right; exact Hin|]. split; [exact Hp|reflexivity].
Qed.

(** A marker line without the delimiter ends the scan with no path. *)
Lemma scan_marker_without_delimiter (line : string) (tail : list string) :
  contains "complete output is available at" line = true ->
  contains "available at " line = false ->
  scan_lines (line :: tail) = None.
Proof.
  intros Hm Hd. cbn [scan_lines]. rewrite Hm.
  rewrite split_unfold by reflexivity. rewrite (split1_None _ _ Hd). reflexivity.
Qed.

(** X4.  The first line with the marker phrase decides: when the phrase is not
    followed by a space, no path is returned, whatever the later lines
    carry. *)
Theorem marker_without_delimiter_blocks_later_lines (stdout : string)
  (head : list string) (line : string) (tail : list string) :
  split nl stdout = List.app head (line :: tail) ->
  Forall (fun l => contains "complete output is available at" l = false) head ->
  contains "complete output is available at" line = true ->
  contains "available at " line = false ->
  output_file_of stdout = None.
Proof.
  intros Hlines Hhead Hm Hd. unfold output_file_of.
  rewrite Hlines, (scan_lines_skip _ _ Hhead).
  apply scan_marker_without_delimiter; assumption.
Qed.

Lemma marker_without_delimiter_blocks_later_lines_witness :
  output_file_of ("The complete output is available at:/tmp/a.out" ++ nl
                  ++ "The complete output is available at /tmp/b.out")
  = None.
Proof.
  apply (marker_without_delimiter_blocks_later_lines _ []
           "The complete output is available at:/tmp/a.out"
           ["The complete output is available at /tmp/b.out"]).
  - reflexivity.
  - constructor.
  - reflexivity.
  - reflexivity.
Defined.

(** X5.  A returned output-file path is a trimmed fragment of one line: trimming
    it again changes nothing, and it contains neither a line break nor the
    delimiter "available at ". *)
Theorem output_file_is_trimmed_fragment (stdout p : string) :
  output_file_of stdout = Some p ->
  strip p = p /\ contains nl p = false /\ contains "available at " p = false.
Proof.
  unfold output_file_of. intros H.
  destruct (scan_lines_some _ _ H) as (line & piece & Hline & Hpiece & ->).
  split; [apply strip_idempotent|].
  destruct (strip_part piece) as (a & b & Hab).
  pose proof (split_pieces nl stdout line eq_refl Hline) as Hnl.
  pose proof (split_pieces "available at " line piece eq_refl Hpiece) as Hsep.
  apply split_parts in Hpiece. destruct Hpiece as (u & v & ->).
  split.
  - destruct (contains nl (strip piece)) eqn:E; [|reflexivity].
    apply (contains_within _ _ a b) in E. rewrite <- Hab in E.
    apply (contains_within _ _ u v) in E. rewrite E in Hnl. discriminate.
  - destruct (contains "available at " (strip piece)) eqn:E; [|reflexivity].
    apply (contains_within _ _ a b) in E. rewrite <- Hab in E.
    rewrite E in Hsep. discriminate.
Qed.

Lemma output_file_is_trimmed_fragment_witness :
  strip "/tmp/x.out" = "/tmp/x.out" /\ contains nl "/tmp/x.out" = false
  /\ contains "available at " "/tmp/x.out" = false.
Proof.
  apply (output_file_is_trimmed_fragment
           ("Summary" ++ nl ++ "The complete output is available at  /tmp/x.out " ++ nl
            ++ "done")).
  reflexivity.
Defined.

End ClassifierMore.

(* ================================================================== *)
(** * Facts about replacing, cutting and CSV fields *)
(* ================================================================== *)

Module TextFacts.
Import PyStr PyText StrFacts SplitFacts TrimFacts.

Lemma drop_prefix_char (c x : ascii) (s : string) :
  drop_prefix (String c "") (String x s) = if Ascii.eqb c x then Some s else None.
Proof. cbn. destruct (Ascii.eqb c x); reflexivity. Qed.

Lemma split1_char (c x : ascii) (s : string) :
  split1 (String c "") (String x s)
  = if Ascii.eqb c x then Some ("", s)
    else match split1 (String c "") s with
         | Some (a, b) => Some (String x a, b)
         | None => None
         end.
Proof.
  rewrite split1_cons, drop_prefix_char. destruct (Ascii.eqb c x); reflexivity.
Qed.

(** Replacing one character by another works character by character. *)
Lemma replace_fuel_char (fuel : nat) (c d : ascii) (s : string) :
  (String.length s <= fuel)%nat ->
  replace_fuel fuel (String c "") (String d "") s = swap_char c d s.
Proof.
  revert s. induction fuel as [|fuel IH]; intros s Hlen.
  - destruct s; [reflexivity|cbn in Hlen; lia].
  - induction s as [|x s IHs]; [reflexivity|].
    cbn [replace_fuel]. rewrite split1_char. rewrite Ascii.eqb_sym.
    cbn [swap_char]. destruct (Ascii.eqb x c) eqn:E.
    + cbn [append]. rewrite IH by (cbn in Hlen; lia). reflexivity.
    + assert (Hs : (String.length s <= S fuel)%nat) by (cbn in Hlen; lia).
      specialize (IHs Hs). cbn [replace_fuel] in IHs.
      destruct (split1 (String c "") s) as [[a b]|].
      * change (String x (a ++ String d "" ++ replace_fuel fuel (String c "") (String d "") b)
                = String x (swap_char c d s)).
        f_equal. exact IHs.
      * f_equal. exact IHs.
Qed.

Lemma replace_char (c d : ascii) (s : string) :
  replace (String c "") (String d "") s = swap_char c d s.
Proof. apply replace_fuel_char, Nat.le_refl. Qed.

Lemma length_swap_char (c d : ascii) (s : string) :
  String.length (swap_char c d s) = String.length s.
Proof. induction s as [|x s IH]; cbn; [|rewrite IH]; reflexivity. Qed.

Lemma length_take (n : nat) (s : string) :
  String.length (take n s) = Nat.min n (String.length s).
Proof.
  revert s. induction n as [|n IH]; intros [|x s]; cbn; try reflexivity.
  rewrite IH. reflexivity.
Qed.

Lemma all_chars_take (test : ascii -> bool) (n : nat) (s : string) :
  all_chars test s = true -> all_chars test (take n s) = true.
Proof.
  revert s. induction n as [|n IH]; intros [|x s]; cbn; try reflexivity.
  intros H. apply andb_true_iff in H. destruct H as [Hx Hs].
  rewrite Hx, (IH _ Hs). reflexivity.
Qed.

Lemma all_chars_app (test : ascii -> bool) (a b : string) :
  all_chars test (a ++ b) = all_chars test a && all_chars test b.
Proof.
  induction a as [|x a IH]; cbn; [reflexivity|].
  rewrite IH, andb_assoc. reflexivity.
Qed.

(** A text whose characters all differ from [c] has no occurrence of [c]. *)
Lemma all_chars_no_char (test : ascii -> bool) (c : ascii) (s : string) :
  test c = false -> all_chars test s = true -> contains (String c "") s = false.
Proof.
  intros Hc. induction s as [|x s IH]; [reflexivity|].
  cbn [all_chars]. intros H. apply andb_true_iff in H. destruct H as [Hx Hs].
  rewrite contains_cons, drop_prefix_char.
  destruct (Ascii.eqb c x) eqn:E.
  - apply Ascii.eqb_eq in E. subst x. rewrite Hc in Hx. discriminate.
  - apply IH, Hs.
Qed.

Lemma is_field_no_comma (s : string) : is_field s = true -> contains "," s = false.
Proof. apply all_chars_no_char. reflexivity. Qed.

Lemma is_field_no_newline (s : string) : is_field s = true -> contains nl s = false.
Proof. apply (all_chars_no_char is_field_char LF). reflexivity. Qed.

Lemma swap_newline_then_comma (s : string) :
  is_field (swap_char "," ";" (swap_char LF " " s)) = true.
Proof.
  induction s as [|x s IH]; [reflexivity|].
  cbn [swap_char is_field all_chars]. fold (is_field (swap_char "," ";" (swap_char LF " " s))).
  rewrite IH, andb_true_r.
  destruct x as [[] [] [] [] [] [] [] []]; reflexivity.
Qed.

Lemma string_of_uint_digits (d : Decimal.uint) :
  all_chars is_number_char (DecimalString.NilEmpty.string_of_uint d) = true.
Proof. induction d; cbn; auto. Qed.

Lemma str_of_int_digits (n : Z) : all_chars is_number_char (Speed.str_of_int n) = true.
Proof.
  unfold Speed.str_of_int, DecimalString.NilZero.string_of_int,
    DecimalString.NilZero.string_of_uint.
  destruct (Z.to_int n) as [d|d]; destruct d; cbn [all_chars];
    try reflexivity;
    try (apply (string_of_uint_digits (Decimal.D0 _)));
    rewrite ?andb_true_l;
    first [ apply (string_of_uint_digits (Decimal.D0 _))
          | apply (string_of_uint_digits (Decimal.D1 _))
          | apply (string_of_uint_digits (Decimal.D2 _))
          | apply (string_of_uint_digits (Decimal.D3 _))
          | apply (string_of_uint_digits (Decimal.D4 _))
          | apply (string_of_uint_digits (Decimal.D5 _))
          | apply (string_of_uint_digits (Decimal.D6 _))
          | apply (string_of_uint_digits (Decimal.D7 _))
          | apply (string_of_uint_digits (Decimal.D8 _))
          | apply (string_of_uint_digits (Decimal.D9 _)) ].
Qed.

Lemma all_chars_weaken (p q : ascii -> bool) (s : string) :
  (forall x, p x = true -> q x = true) ->
  all_chars p s = true -> all_chars q s = true.
Proof.
  intros Hpq. induction s as [|x s IH]; [reflexivity|]. cbn.
  intros H. apply andb_true_iff in H. destruct H as [Hx Hs].
  rewrite (Hpq _ Hx), (IH Hs). reflexivity.
Qed.

Lemma str_of_int_is_field (n : Z) : is_field (Speed.str_of_int n) = true.
Proof.
  apply (all_chars_weaken is_number_char); [|apply str_of_int_digits].
  intros x. destruct x as [[] [] [] [] [] [] [] []]; vm_compute; intros H;
    try discriminate H; reflexivity.
Qed.

Lemma str_of_bool_is_field (b : bool) : is_field (str_of_bool b) = true.
Proof. destruct b; reflexivity. Qed.

(** Cutting a comma-separated text at its first field. *)
Lemma split_comma_cons (field rest : string) :
  is_field field = true ->
  split "," (field ++ "," ++ rest) = field :: split "," rest.
Proof.
  intros Hf. rewrite split_unfold by reflexivity.
  assert (E : split1 "," (field ++ "," ++ rest) = Some (field, rest)).
  { induction field as [|x f IH]; [reflexivity|].
    cbn [is_field all_chars] in Hf. apply andb_true_iff in Hf.
    destruct Hf as [Hx Hf].
    change (String x f ++ "," ++ rest) with (String x (f ++ "," ++ rest)).
    rewrite split1_char.
    destruct (Ascii.eqb "," x) eqn:E.
    - apply Ascii.eqb_eq in E. subst x. discriminate Hx.
    - rewrite (IH Hf). reflexivity. }
  rewrite E. reflexivity.
Qed.

Lemma split_comma_last (field : string) :
  is_field field = true -> split "," field = [field].
Proof.
  intros Hf. rewrite split_unfold by reflexivity.
  rewrite (split1_None _ _ (is_field_no_comma _ Hf)). reflexivity.
Qed.

End TextFacts.

(* ================================================================== *)
(** * Properties of the result files *)
(* ================================================================== *)

Module ResultFileFacts.
Import PyStr PyText StrFacts SplitFacts TrimFacts TextFacts ResultFiles.

Lemma summary_clean_chars (summary : string) :
  summary_clean summary = take 500 (swap_char "," ";" (swap_char LF " " summary)).
Proof. unfold summary_clean, nl. rewrite !replace_char. reflexivity. Qed.

Lemma summary_clean_is_field (summary : string) :
  is_field (summary_clean summary) = true.
Proof.
  rewrite summary_clean_chars. apply all_chars_take, swap_newline_then_comma.
Qed.

Lemma is_field_app (a b : string) :
  is_field a = true -> is_field b = true -> is_field (a ++ b) = true.
Proof. unfold is_field. rewrite all_chars_app. intros -> ->. reflexivity. Qed.

(** A comma-separated line of plain fields has no line feed and splits into
    its fields. *)
Lemma join_comma_fields (fields : list string) :
  Forall (fun f => is_field f = true) fields -> fields <> [] ->
  contains nl (join "," fields) = false
  /\ split "," (join "," fields) = fields.
Proof.
  induction 1 as [|f fs Hf Hfs IH]; intros Hne; [congruence|].
  destruct fs as [|g fs].
  - cbn [join]. split; [apply is_field_no_newline, Hf|apply split_comma_last, Hf].
  - destruct (IH ltac:(discriminate)) as [IH1 IH2].
    change (join "," (f :: g :: fs)) with (f ++ "," ++ join "," (g :: fs)).
    split.
    + assert (Hall : all_chars (fun x => negb (Ascii.eqb x LF)) (join "," (g :: fs)) = true
                     -> contains nl (f ++ "," ++ join "," (g :: fs)) = false).
      { intros H. apply (all_chars_no_char (fun x => negb (Ascii.eqb x LF)) LF);
          [reflexivity|].
        rewrite !all_chars_app, H.
        rewrite (all_chars_weaken is_field_char _ f); [reflexivity| |exact Hf].
        intros x Hx. apply andb_true_iff in Hx. apply Hx. }
      apply Hall. clear Hall IH IH1 IH2 Hne.
      revert Hfs. generalize (g :: fs). intros l Hl.
      induction Hl as [|h hs Hh Hhs IHl]; [reflexivity|].
      destruct hs as [|h2 hs].
      * cbn [join]. apply (all_chars_weaken is_field_char); [|exact Hh].
        intros x Hx. apply andb_true_iff in Hx. apply Hx.
      * change (join "," (h :: h2 :: hs)) with (h ++ "," ++ join "," (h2 :: hs)).
        rewrite !all_chars_app, IHl.
        rewrite (all_chars_weaken is_field_char _ h); [reflexivity| |exact Hh].
        intros x Hx. apply andb_true_iff in Hx. apply Hx.
    + rewrite (split_comma_cons _ _ Hf), IH2. reflexivity.
Qed.

Lemma quality_line (format_3f : Q -> string) (r : ResultRow) (file : string) :
  quality_write_result_file format_3f r file
  = file ++ join "," (quality_fields format_3f r) ++ nl.
Proof.
  unfold quality_write_result_file, quality_fields. cbn [join].
  rewrite !app_assoc. reflexivity.
Qed.

Lemma speed_line (str_float format_3f : Q -> string) (r : SpeedRow) (file : string) :
  speed_write_result_file str_float format_3f r file
  = file ++ join "," (speed_fields str_float format_3f r) ++ nl.
Proof.
  unfold speed_write_result_file, speed_fields. cbn [join].
  rewrite !app_assoc. reflexivity.
Qed.

Lemma quality_fields_plain (format_3f : Q -> string) (r : ResultRow) :
  plain_names r = true -> is_field (format_3f (row_quality_score r)) = true ->
  Forall (fun f => is_field f = true) (quality_fields format_3f r).
Proof.
  unfold plain_names. intros Hn Hq.
  apply andb_true_iff in Hn. destruct Hn as [Hn Hc].
  apply andb_true_iff in Hn. destruct Hn as [Hm Hf].
  unfold quality_fields. repeat constructor; auto using str_of_bool_is_field,
    str_of_int_is_field, summary_clean_is_field.
Qed.

Lemma speed_fields_plain (str_float format_3f : Q -> string) (r : SpeedRow) :
  is_field (speed_model r) = true -> is_field (speed_config_file r) = true ->
  is_field (str_float (speed_size_factor r)) = true ->
  is_field (format_3f (speed_execution_time r)) = true ->
  Forall (fun f => is_field f = true) (speed_fields str_float format_3f r).
Proof.
  intros Hm Hc Hs He.
  unfold speed_fields. repeat constructor; auto using str_of_int_is_field,
    summary_clean_is_field.
Qed.

End ResultFileFacts.


(* ================================================================== *)
(** * Facts about the example renderings *)
(* ================================================================== *)

Module RenderingFacts.
Import PyStr PyText TextFacts ResultFileFacts Renderings.

Lemma repeat_zero_is_field (n : nat) : is_field (repeat_nat "0" n) = true.
Proof. induction n as [|n IH]; [reflexivity|exact IH]. Qed.

Lemma padded_is_field (width : nat) (n : Z) : is_field (padded width n) = true.
Proof.
  unfold padded. apply is_field_app;
    [apply repeat_zero_is_field|apply str_of_int_is_field].
Qed.

Lemma sign_is_field (q : Q) : is_field (sign q) = true.
Proof. unfold sign. destruct (Qnum q <? 0)%Z; reflexivity. Qed.

Lemma fixed3_is_field (q : Q) : is_field (fixed3 q) = true.
Proof.
  unfold fixed3.
  apply is_field_app; [apply sign_is_field|].
  apply is_field_app; [apply str_of_int_is_field|].
  apply is_field_app; [reflexivity|apply padded_is_field].
Qed.

Lemma short_is_field (q : Q) : is_field (short q) = true.
Proof.
  unfold short.
  apply is_field_app; [apply sign_is_field|].
  apply is_field_app; [apply str_of_int_is_field|].
  apply is_field_app; [reflexivity|].
  repeat match goal with |- context [if ?b then _ else _] => destruct b end;
    apply padded_is_field.
Qed.

End RenderingFacts.
Module ResultFileProperties.
Import PyStr PyText StrFacts SplitFacts TrimFacts TextFacts ResultFiles ResultFileFacts.

(** X6.  The summary column of both result files: line feeds become spaces,
    commas become semicolons, character by character, and the text is cut
    after 500 characters.  What is written has no comma and no line feed and
    is as long as the summary, up to 500. *)
Theorem summary_column_is_sanitised (summary : string) :
  summary_clean summary = take 500 (swap_char "," ";" (swap_char LF " " summary))
  /\ String.length (summary_clean summary) = Nat.min 500 (String.length summary)
  /\ contains "," (summary_clean summary) = false
  /\ contains nl (summary_clean summary) = false.
Proof.
  split; [apply summary_clean_chars|]. split; [|split].
  - rewrite summary_clean_chars, length_take, !length_swap_char. reflexivity.
  - apply is_field_no_comma, summary_clean_is_field.
  - apply is_field_no_newline, summary_clean_is_field.
Qed.

(** X7.  The quality runner appends exactly one line per call, and the line has
    the header's eight columns, provided the model name, the config file name
    and the challenge name contain no comma and no line feed (the summary is
    sanitised, the other columns are numbers and truth values). *)
Theorem quality_row_matches_header (format_3f : Q -> string) (r : ResultRow)
  (file : string) :
  plain_names r = true ->
  is_field (format_3f (row_quality_score r)) = true ->
  let line := join "," (quality_fields format_3f r) in
  quality_write_result_file format_3f r file = file ++ line ++ nl
  /\ contains nl line = false
  /\ split "," line = quality_fields format_3f r
  /\ List.length (split "," line) = List.length (split "," quality_header).
Proof.
  intros Hn Hq line.
  destruct (join_comma_fields (quality_fields format_3f r)
              (quality_fields_plain _ _ Hn Hq) ltac:(discriminate)) as [H1 H2].
  split; [apply quality_line|]. split; [exact H1|]. split; [exact H2|].
  subst line. rewrite H2. reflexivity.
Qed.

Lemma quality_row_matches_header_witness :
  let r := {| row_model := "qwen/qwen3-4b"; row_config_file := "short.toml";
              row_challenge := "build"; row_can_solve := true;
              row_needs_full_output := false; row_quality_score := 0.85%Q;
              row_exit_code := 1%Z;
              row_summary := "Build failed, see log" ++ nl ++ "Run npm install" |} in
  quality_write_result_file Renderings.fixed3 r quality_header
  = quality_header
    ++ "qwen/qwen3-4b,short.toml,build,True,False,0.850,1,"
    ++ "Build failed; see log Run npm install" ++ nl.
Proof.
  intros r.
  destruct (quality_row_matches_header Renderings.fixed3 r quality_header
              eq_refl (RenderingFacts.fixed3_is_field _)) as (H & _).
  rewrite H. reflexivity.
Defined.

(** X8.  The speed runner appends exactly one line per call, and the line has the
    header's seven columns, provided the model name and the config file name
    contain no comma and no line feed and the two floats are rendered without
    them.  The summary_length column is the length of the whole summary, also
    when the summary column holds only its first 500 characters. *)
Theorem speed_row_matches_header (str_float format_3f : Q -> string) (r : SpeedRow)
  (file : string) :
  is_field (speed_model r) = true -> is_field (speed_config_file r) = true ->
  is_field (str_float (speed_size_factor r)) = true ->
  is_field (format_3f (speed_execution_time r)) = true ->
  let line := join "," (speed_fields str_float format_3f r) in
  speed_write_result_file str_float format_3f r file = file ++ line ++ nl
  /\ contains nl line = false
  /\ split "," line = speed_fields str_float format_3f r
  /\ List.length (split "," line) = List.length (split "," speed_header)
  /\ nth 4 (split "," line) "" = Speed.str_of_int (Z.of_nat (String.length (speed_summary r)))
  /\ String.length (nth 6 (split "," line) "")
     = Nat.min 500 (String.length (speed_summary r)).
Proof.
  intros Hm Hc Hs He line.
  destruct (join_comma_fields (speed_fields str_float format_3f r)
              (speed_fields_plain _ _ _ Hm Hc Hs He) ltac:(discriminate)) as [H1 H2].
  split; [apply speed_line|]. split; [exact H1|]. split; [exact H2|].
  subst line. rewrite H2. split; [reflexivity|]. split; [reflexivity|].
  cbn [speed_fields nth].
  rewrite summary_clean_chars, length_take, !length_swap_char. reflexivity.
Qed.

Lemma speed_row_matches_header_witness :
  let r := {| speed_model := "qwen/qwen3-4b"; speed_config_file := "short.toml";
              speed_size_factor := 0.5%Q; speed_execution_time := 1.5%Q;
              speed_summary := "a, b" ++ nl ++ "c"; speed_exit_code := 0%Z |} in
  speed_write_result_file Renderings.short Renderings.fixed3 r speed_header
  = speed_header ++ "qwen/qwen3-4b,short.toml,0.5,1.500,6,0,a; b c" ++ nl.
Proof.
  intros r.
  destruct (speed_row_matches_header Renderings.short Renderings.fixed3 r
              speed_header eq_refl eq_refl
              (RenderingFacts.short_is_field _)
              (RenderingFacts.fixed3_is_field _)) as (H & _).
  rewrite H. reflexivity.
Defined.

End ResultFileProperties.

(* ================================================================== *)
(** * The quality sweep as a whole *)
(* ================================================================== *)

Module SweepFacts.
Import PyStr PyText Harness Invoker Scorer Quality HarnessFacts OrchestratorFacts.
Import ResultFiles Sweep.

(** ** Loops *)

Lemma for_each_ok {A : Type} (env : Env) (body : A -> M unit) (xs : list A) :
  (forall x tr, returned_or_stopped env (fst (body x tr))) ->
  forall tr, returned_or_stopped env (fst (for_each xs body tr)).
Proof.
  intros Hbody. induction xs as [|x xs IH]; intros tr; [left; reflexivity|].
  cbn [for_each]. unfold bind. specialize (Hbody x tr).
  destruct (body x tr) as [[[]|e] tr']; cbn [fst] in *; [apply IH|exact Hbody].
Qed.

Lemma print_ok (env : Env) (n : notice) (tr : trace) :
  returned_or_stopped env (fst (print n tr)).
Proof. left. reflexivity. Qed.

Lemma for_each_keeps {A : Type} (P : trace -> Prop) (body : A -> M unit)
  (xs : list A) :
  (forall x, In x xs -> forall tr, P tr -> P (snd (body x tr))) ->
  forall tr, P tr -> P (snd (for_each xs body tr)).
Proof.
  induction xs as [|x xs IH]; intros Hbody tr Htr; cbn [for_each]; [exact Htr|].
  unfold bind. pose proof (Hbody x (or_introl eq_refl) tr Htr) as Hx.
  destruct (body x tr) as [[[]|e] tr']; cbn [snd] in *; [|exact Hx].
  apply IH; [|exact Hx]. intros y Hy. apply Hbody. right. exact Hy.
Qed.

Lemma for_each_bound {A : Type} (f : trace -> nat) (k : A -> nat)
  (body : A -> M unit) (xs : list A) :
  (forall x tr, (f (snd (body x tr)) <= f tr + k x)%nat) ->
  forall tr, (f (snd (for_each xs body tr)) <= f tr + list_sum (map k xs))%nat.
Proof.
  intros Hbody. induction xs as [|x xs IH]; intros tr.
  - simpl. lia.
  - change (list_sum (map k (x :: xs))) with (k x + list_sum (map k xs))%nat.
    cbn [for_each]. unfold bind. specialize (Hbody x tr).
    destruct (body x tr) as [[[]|e] tr']; cbn [snd] in *.
    + specialize (IH tr'). lia.
    + lia.
Qed.

Lemma list_sum_const {A : Type} (c : nat) (xs : list A) :
  list_sum (map (fun _ => c) xs) = (List.length xs * c)%nat.
Proof. induction xs as [|x xs IH]; simpl; [|rewrite IH]; reflexivity. Qed.

Section WithEnv.
Variable env : Env.

(** ** One call of [run_command] *)

Lemma run_command_spawns (config_file command cwd : string) (timeout : Z)
  (force_summary : bool) (tr : trace) :
  exists added,
    spawns (snd (run_command env config_file command cwd timeout force_summary tr))
    = (spawns tr ++ added)%list
    /\ (1 <= List.length added <= 2)%nat.
Proof.
  destruct (QualityFacts.quality_run_command_adds env config_file command cwd
              timeout force_summary tr) as (r & [-> | ->]); cbn [snd].
  - eexists [_]. rewrite FallbackProperties.spawns_one.
    split; [reflexivity|cbn; lia].
  - eexists [_; _]. rewrite FallbackProperties.spawns_two.
    split; [reflexivity|cbn; lia].
Qed.

(** ** One challenge *)

Lemma run_challenge_ok (repo_root model_name config_file config_path_full name : string)
  (challenge : Challenge) (tr : trace) :
  fst (run_challenge env repo_root model_name config_file config_path_full
         name challenge tr) = Ok tt.
Proof.
  destruct (nonempty (get (command challenge) "")) eqn:Hc.
  - rewrite (run_challenge_step env _ _ _ _ _ _ _ Hc).
    destruct (run_command _ _ _ _ _ _ _) as [[[[[out ec] file] raw]|e] tr'];
      reflexivity.
  - unfold run_challenge. rewrite Hc. reflexivity.
Qed.

(** The rows and the processes one challenge adds. *)
Lemma run_challenge_adds (repo_root model_name config_file config_path_full name : string)
  (challenge : Challenge) (tr : trace) :
  let tr' := snd (run_challenge env repo_root model_name config_file
                    config_path_full name challenge tr) in
  let n := if Sweep.has_command (name, challenge) then 1%nat else 0%nat in
  (exists added,
     rows tr' = (rows tr ++ added)%list /\ (List.length added <= n)%nat
     /\ Forall (fun r => row_model r = model_name /\ row_config_file r = config_file
                         /\ row_challenge r = name) added)
  /\ (List.length (spawns tr') <= List.length (spawns tr) + 2 * n)%nat.
Proof.
  unfold Sweep.has_command. cbn [snd].
  destruct (nonempty (get (command challenge) "")) eqn:Hc.
  - rewrite (run_challenge_step env _ _ _ _ _ _ _ Hc).
    pose proof (run_command_rows env config_path_full (get (command challenge) "")
                  repo_root TIMEOUT_SECONDS true
                  (tr ++ [Print (ChallengeStart name)])%list) as Hrows.
    destruct (run_command_spawns config_path_full (get (command challenge) "")
                repo_root TIMEOUT_SECONDS true
                (tr ++ [Print (ChallengeStart name)])%list) as (sp & Hsp & Hlen).
    destruct (run_command _ _ _ _ _ _ _) as [[[[[out ec] file] raw]|e] tr'];
      cbn [snd] in *.
    + split.
      * eexists [_]. rewrite rows_app, Hrows, rows_app. cbn [rows].
        rewrite app_nil_r. split; [reflexivity|]. split; [cbn; lia|].
        repeat constructor.
      * rewrite spawns_app, Hsp, spawns_app. cbn [spawns].
        rewrite !app_nil_r, List.length_app. lia.
    + split.
      * exists []. rewrite rows_app, Hrows, rows_app. cbn [rows].
        rewrite !app_nil_r. split; [reflexivity|]. split; [cbn; lia|constructor].
      * rewrite spawns_app, Hsp, spawns_app. cbn [spawns].
        rewrite !app_nil_r, List.length_app. lia.
  - unfold run_challenge. rewrite Hc. cbn [negb]. unfold print, emit. cbn [snd].
    split.
    + exists []. rewrite rows_app. cbn [rows]. split; [reflexivity|].
      split; [cbn; lia|constructor].
    + rewrite spawns_app. cbn [spawns]. rewrite app_nil_r. lia.
Qed.

(** ** The loops, for a measure of traces that printing leaves alone *)

Section Measure.
Variable f : trace -> nat.
Variable c : nat.
Hypothesis f_print : forall tr n, f (tr ++ [Print n])%list = f tr.
Hypothesis f_challenge :
  forall repo_root model_name config_file config_path_full name challenge tr,
    (f (snd (run_challenge env repo_root model_name config_file config_path_full
               name challenge tr))
     <= f tr + (if Sweep.has_command (name, challenge) then c else 0))%nat.

Lemma list_sum_filter {A : Type} (p : A -> bool) (xs : list A) :
  list_sum (map (fun x => if p x then c else 0%nat) xs)
  = (List.length (filter p xs) * c)%nat.
Proof.
  induction xs as [|x xs IH]; [reflexivity|].
  change (list_sum (map (fun x => if p x then c else 0%nat) (x :: xs)))
    with ((if p x then c else 0) + list_sum (map (fun x => if p x then c else 0%nat) xs))%nat.
  rewrite IH. cbn [filter]. destruct (p x); cbn [List.length]; lia.
Qed.

Lemma run_config_measure (repo_root model_name : string)
  (challenges : list (string * Challenge)) (config_file : string) (tr : trace) :
  (f (snd (run_config env repo_root model_name challenges config_file tr))
   <= f tr + List.length (filter Sweep.has_command challenges) * c)%nat.
Proof.
  unfold run_config. rewrite (exists_run env (config_path env config_file) tr).
  destruct (fault env tr _); [cbn [snd]; lia|].
  destruct (negb (path_exists env tr (config_path env config_file))).
  - unfold print, emit. cbn [snd]. rewrite f_print. lia.
  - unfold bind at 1, print at 1, emit at 1.
    rewrite <- (list_sum_filter Sweep.has_command challenges).
    rewrite <- (f_print tr (EvaluatingModel model_name config_file)).
    apply (for_each_bound f
             (fun x => if Sweep.has_command x then c else 0%nat)).
    intros [name challenge] tr'.
    rewrite (load_challenge_run env name challenge).
    destruct (fault env tr' _); [cbn [snd]; lia|]. apply f_challenge.
Qed.

Lemma run_model_measure (repo_root : string)
  (challenges : list (string * Challenge)) (model : string * list string)
  (tr : trace) :
  (f (snd (run_model env repo_root challenges model tr))
   <= f tr + List.length (snd model)
             * (List.length (filter Sweep.has_command challenges) * c))%nat.
Proof.
  destruct model as [model_name [|cf cfs]]; cbn [run_model snd].
  - unfold print, emit. cbn [snd]. rewrite f_print. cbn. lia.
  - rewrite <- (list_sum_const _ (cf :: cfs)).
    apply (for_each_bound f). intros config_file tr'. apply run_config_measure.
Qed.

Lemma list_sum_scale {A : Type} (g : A -> nat) (k : nat) (xs : list A) :
  list_sum (map (fun x => g x * k)%nat xs) = (list_sum (map g xs) * k)%nat.
Proof.
  induction xs as [|x xs IH]; [reflexivity|].
  change (list_sum (map (fun x => g x * k)%nat (x :: xs)))
    with (g x * k + list_sum (map (fun x => g x * k)%nat xs))%nat.
  change (list_sum (map g (x :: xs))) with (g x + list_sum (map g xs))%nat.
  rewrite IH. lia.
Qed.

Lemma sweep_measure (repo_root : string) (models : list (string * list string))
  (challenges : list (string * Challenge)) (tr : trace) :
  (f (snd (run_quality_evaluation env repo_root models challenges tr))
   <= f tr + Sweep.scenario_bound models challenges * c)%nat.
Proof.
  unfold run_quality_evaluation. destruct challenges as [|ch chs].
  - unfold print, emit. cbn [snd]. rewrite f_print. lia.
  - set (challenges := ch :: chs).
    unfold bind at 1, print at 1, emit at 1. unfold bind.
    pose proof (for_each_bound f
                  (fun m => (List.length (snd m)
                             * (List.length (filter Sweep.has_command challenges) * c))%nat)
                  (run_model env repo_root challenges) models
                  (fun m tr' => run_model_measure repo_root challenges m tr')
                  (tr ++ [Print (Starting (map fst models) (map fst challenges))])%list)
      as H.
    rewrite f_print, list_sum_scale in H.
    unfold Sweep.scenario_bound. fold challenges.
    destruct (for_each models _ _) as [[[]|e] tr2]; cbn [snd] in *.
    + unfold print, emit. cbn [snd]. rewrite f_print. lia.
    + lia.
Qed.

End Measure.

Lemma rows_print (tr : trace) (n : notice) :
  List.length (rows (tr ++ [Print n])) = List.length (rows tr).
Proof. rewrite rows_app. cbn [rows]. rewrite List.app_nil_r. reflexivity. Qed.

Lemma spawns_print (tr : trace) (n : notice) :
  List.length (spawns (tr ++ [Print n])) = List.length (spawns tr).
Proof. rewrite spawns_app. cbn [spawns]. rewrite List.app_nil_r. reflexivity. Qed.

Lemma sweep_rows (repo_root : string) (models : list (string * list string))
  (challenges : list (string * Challenge)) (tr : trace) :
  (List.length (rows (snd (run_quality_evaluation env repo_root models challenges tr)))
   <= List.length (rows tr) + Sweep.scenario_bound models challenges)%nat.
Proof.
  pose proof (sweep_measure (fun t => List.length (rows t)) 1 rows_print) as H.
  rewrite <- (Nat.mul_1_r (Sweep.scenario_bound models challenges)).
  apply H. intros.
  destruct (run_challenge_adds repo_root0 model_name config_file config_path_full
              name challenge tr0) as [(added & Hr & Hl & _) _].
  rewrite Hr, List.length_app. lia.
Qed.

Lemma sweep_spawns (repo_root : string) (models : list (string * list string))
  (challenges : list (string * Challenge)) (tr : trace) :
  (List.length (spawns (snd (run_quality_evaluation env repo_root models challenges tr)))
   <= List.length (spawns tr) + Sweep.scenario_bound models challenges * 2)%nat.
Proof.
  pose proof (sweep_measure (fun t => List.length (spawns t)) 2 spawns_print) as H.
  apply H. intros.
  destruct (run_challenge_adds repo_root0 model_name config_file config_path_full
              name challenge tr0) as [_ Hs].
  destruct (Sweep.has_command (name, challenge)); lia.
Qed.

(** ** The sweep returns, or a call outside the [try] stopped it *)

Lemma sweep_ok (repo_root : string) (models : list (string * list string))
  (challenges : list (string * Challenge)) (tr : trace) :
  returned_or_stopped env
    (fst (run_quality_evaluation env repo_root models challenges tr)).
Proof.
  unfold run_quality_evaluation. destruct challenges as [|ch chs];
    [apply print_ok|].
  set (challenges := ch :: chs).
  unfold bind at 1, print at 1, emit at 1. unfold bind.
  assert (H : forall tr',
             returned_or_stopped env
               (fst (for_each models (run_model env repo_root challenges) tr'))).
  { apply for_each_ok. intros [model_name [|cf cfs]] tr'; cbn [run_model];
      [apply print_ok|].
    apply for_each_ok. intros config_file tr''. unfold run_config.
    rewrite (exists_run env (config_path env config_file) tr'').
    destruct (fault env tr'' _) as [e|] eqn:F.
    { right. exists e, tr'', (PathExists (config_path env config_file)).
      split; [reflexivity|]. split; [exact F|]. left. eauto. }
    destruct (negb (path_exists env tr'' (config_path env config_file)));
      [apply print_ok|].
    unfold bind at 1, print at 1, emit at 1.
    apply for_each_ok. intros [name challenge] tr3.
    rewrite (load_challenge_run env name challenge).
    destruct (fault env tr3 _) as [e|] eqn:F3.
    { right. exists e, tr3, (LoadChallenge name).
      split; [reflexivity|]. split; [exact F3|]. right. eauto. }
    left. apply run_challenge_ok. }
  specialize (H (tr ++ [Print (Starting (map fst models) (map fst challenges))])%list).
  destruct (for_each models _ _) as [[[]|e] tr2]; cbn [fst] in H |- *;
    [apply print_ok|exact H].
Qed.

(** ** The names in the rows *)

Lemma run_challenge_plain (repo_root model_name config_file config_path_full name : string)
  (challenge : Challenge) (tr : trace) :
  PyText.is_field model_name = true -> PyText.is_field config_file = true ->
  PyText.is_field name = true ->
  rows_plain tr ->
  rows_plain (snd (run_challenge env repo_root model_name config_file
                     config_path_full name challenge tr)).
Proof.
  intros Hm Hc Hn Htr. unfold rows_plain in *.
  destruct (run_challenge_adds repo_root model_name config_file config_path_full
              name challenge tr) as [(added & Hr & _ & Hq) _].
  rewrite Hr. apply Forall_app. split; [exact Htr|].
  eapply Forall_impl; [|exact Hq].
  intros r (E1 & E2 & E3). unfold plain_names.
  rewrite E1, E2, E3, Hm, Hc, Hn. reflexivity.
Qed.

Lemma print_plain (n : notice) (tr : trace) :
  rows_plain tr -> rows_plain (snd (print n tr)).
Proof.
  unfold rows_plain, print, emit. cbn [snd]. rewrite rows_app. cbn [rows].
  rewrite List.app_nil_r. trivial.
Qed.

Lemma sweep_plain (repo_root : string) (models : list (string * list string))
  (challenges : list (string * Challenge)) (tr : trace) :
  Sweep.plain_inputs models challenges = true ->
  rows_plain tr ->
  rows_plain (snd (run_quality_evaluation env repo_root models challenges tr)).
Proof.
  unfold Sweep.plain_inputs. intros Hin Htr.
  apply andb_true_iff in Hin. destruct Hin as [Hmodels Hchs].
  rewrite forallb_forall in Hmodels, Hchs.
  unfold run_quality_evaluation. destruct challenges as [|ch chs].
  - apply print_plain, Htr.
  - set (challenges := ch :: chs) in *.
    unfold bind at 1.
    pose proof (print_plain (Starting (map fst models) (map fst challenges)) tr Htr)
      as Hp.
    destruct (print _ tr) as [[[]|e] tr1]; cbn [snd] in *; [|exact Hp].
    unfold bind.
    assert (Hloop : rows_plain
                      (snd (for_each models (run_model env repo_root challenges) tr1))).
    { apply for_each_keeps; [|exact Hp].
      intros [model_name cfs] Hmodel tr2 H2.
      specialize (Hmodels _ Hmodel). cbn [fst snd] in Hmodels.
      apply andb_true_iff in Hmodels. destruct Hmodels as [Hname Hcfs].
      rewrite forallb_forall in Hcfs.
      destruct cfs as [|cf cfs]; cbn [run_model]; [apply print_plain, H2|].
      apply for_each_keeps; [|exact H2].
      intros config_file Hcf tr3 H3. specialize (Hcfs _ Hcf).
      unfold run_config.
      rewrite (exists_run env (config_path env config_file) tr3).
      destruct (fault env tr3 _); [exact H3|].
      destruct (negb (path_exists env tr3 (config_path env config_file)));
        [apply print_plain, H3|].
      unfold bind at 1.
      pose proof (print_plain (EvaluatingModel model_name config_file) tr3 H3) as Hp3.
      destruct (print _ tr3) as [[[]|e] tr4]; cbn [snd] in *; [|exact Hp3].
      apply for_each_keeps; [|exact Hp3].
      intros [name challenge] Hch tr5 H5. specialize (Hchs _ Hch). cbn [fst] in Hchs.
      rewrite (load_challenge_run env name challenge).
      destruct (fault env tr5 _); [exact H5|].
      apply run_challenge_plain; assumption. }
    destruct (for_each models _ tr1) as [[[]|e] tr2]; cbn [snd] in *;
      [|exact Hloop].
    apply print_plain, Hloop.
Qed.

End WithEnv.
End SweepFacts.

Module SweepProperties.
Import PyStr PyText Harness Quality ResultFiles SweepFacts.


End SweepProperties.

Module ResultFileSweep.
Import PyStr PyText Harness Quality ResultFiles Sweep.
Import StrFacts SplitFacts TextFacts ResultFileFacts.

Lemma split1_char_first (c : ascii) (field rest : string) :
  contains (String c "") field = false ->
  split1 (String c "") (field ++ String c "" ++ rest) = Some (field, rest).
Proof.
  induction field as [|x f IH]; intros H.
  - cbn [append]. rewrite split1_char, Ascii.eqb_refl. reflexivity.
  - apply contains_false_cons in H. destruct H as [Hx Hf].
    rewrite drop_prefix_char in Hx.
    change (String x f ++ String c "" ++ rest)
      with (String x (f ++ String c "" ++ rest)).
    rewrite split1_char. destruct (Ascii.eqb c x); [discriminate|].
    rewrite (IH Hf). reflexivity.
Qed.

Lemma split_lines_text (lines : list string) :
  Forall (fun line => contains nl line = false) lines ->
  split nl (lines_text lines) = (lines ++ [""])%list.
Proof.
  induction 1 as [|line rest Hl _ IH]; [reflexivity|].
  cbn [lines_text]. rewrite split_unfold by reflexivity.
  unfold nl at 1 2. rewrite (split1_char_first LF line _ Hl).
  fold nl. rewrite IH. reflexivity.
Qed.

Lemma fold_write (format_3f : Q -> string) (rs : list ResultRow) (file : string) :
  fold_left (fun file r => quality_write_result_file format_3f r file) rs file
  = file ++ lines_text (map (fun r => join "," (quality_fields format_3f r)) rs).
Proof.
  revert file. induction rs as [|r rs IH]; intros file.
  - cbn. rewrite app_nil_r. reflexivity.
  - cbn [fold_left map lines_text]. rewrite IH, quality_line, !app_assoc.
    reflexivity.
Qed.

End ResultFileSweep.

Module ResultFileSweepProperties.
Import PyStr PyText Harness Quality ResultFiles Sweep.
Import StrFacts SplitFacts TextFacts ResultFileFacts ResultFileSweep.

(** X10.  When the model names, config file names and challenge names contain no
    comma and no line feed, the result file of a quality sweep is the header
    line followed by exactly one line per row written, and every such line
    splits at its commas into the row's eight columns. *)
Theorem quality_result_file_is_csv (env : Env) (format_3f : Q -> string)
  (repo_root : string) (models : list (string * list string))
  (challenges : list (string * Challenge)) :
  plain_inputs models challenges = true ->
  (forall q, is_field (format_3f q) = true) ->
  let tr := snd (run_quality_evaluation env repo_root models challenges []) in
  let line_of := fun r => join "," (quality_fields format_3f r) in
  split nl (quality_result_file format_3f tr)
  = List.app
      (("model,config_file,challenge,can_solve,needs_full_output,"
        ++ "quality_score,exit_code,summary") :: map line_of (rows tr))
      [""]
  /\ Forall (fun r => split "," (line_of r) = quality_fields format_3f r) (rows tr).
Proof.
  intros Hin Hfmt tr line_of.
  pose proof (SweepFacts.sweep_plain env repo_root models challenges [] Hin
                (Forall_nil _)) as Hplain.
  fold tr in Hplain. unfold rows_plain in Hplain.
  assert (Hlines : Forall (fun r => contains nl (line_of r) = false
                                    /\ split "," (line_of r) = quality_fields format_3f r)
                     (rows tr)).
  { eapply Forall_impl; [|exact Hplain]. intros r Hr.
    apply join_comma_fields; [|discriminate].
    apply quality_fields_plain; [exact Hr|apply Hfmt]. }
  split.
  - unfold quality_result_file. rewrite fold_write.
    fold line_of.
    assert (E : forall body,
               quality_header ++ lines_text body
               = lines_text
                   (("model,config_file,challenge,can_solve,needs_full_output,"
                     ++ "quality_score,exit_code,summary") :: body))
      by reflexivity.
    rewrite E, split_lines_text; [reflexivity|].
    constructor; [reflexivity|].
    apply Forall_map. eapply Forall_impl; [|exact Hlines]. intros r [H _]. exact H.
  - eapply Forall_impl; [|exact Hlines]. intros r [_ H]. exact H.
Qed.

Lemma quality_result_file_is_csv_witness :
  split nl (quality_result_file Renderings.fixed3
              (snd (run_quality_evaluation Examples.summarising "/repo"
                      [("qwen/qwen3-4b", ["short.toml"])]
                      [("build", Examples.build_challenge)] [])))
  = ["model,config_file,challenge,can_solve,needs_full_output,quality_score,exit_code,summary";
     "qwen/qwen3-4b,short.toml,build,True,False,1.000,0,"
     ++ "Build failed: missing dependency. Run npm install (ENOENT).";
     ""].
Proof.
  destruct (quality_result_file_is_csv Examples.summarising Renderings.fixed3 "/repo"
              [("qwen/qwen3-4b", ["short.toml"])]
              [("build", Examples.build_challenge)]
              eq_refl RenderingFacts.fixed3_is_field) as (H & _).
  rewrite H. reflexivity.
Defined.

End ResultFileSweepProperties.

(* ================================================================== *)
(** * Facts about the speed sweep *)
(* ================================================================== *)

Module SpeedSweepFacts.
Import PyStr Harness Invoker ResultFiles SpeedSweep.

Lemma base_of_app (a b : sweep_trace) :
  base_of (a ++ b) = (base_of a ++ base_of b)%list.
Proof.
  induction a as [|e a IH]; [reflexivity|].
  destruct e; cbn [app base_of]; rewrite IH; reflexivity.
Qed.

Lemma skipn_length_app {A : Type} (a b : list A) : skipn (List.length a) (a ++ b) = b.
Proof. induction a as [|x a IH]; [reflexivity|exact IH]. Qed.

(** A computation that extends the base history extends the sweep's. *)
Lemma lift_extends {A : Type} (m : M A) (st : sweep_trace) (r : res A)
  (added : trace) :
  m (base_of st) = (r, (base_of st ++ added)%list) ->
  lift m st = (r, (st ++ map Base added)%list).
Proof.
  intros H. unfold lift. rewrite H, skipn_length_app. reflexivity.
Qed.

(** A computation that leaves the base history leaves the sweep's. *)
Lemma lift_same {A : Type} (m : M A) (st : sweep_trace) (r : res A) :
  m (base_of st) = (r, base_of st) -> lift m st = (r, st).
Proof.
  intros H. rewrite (lift_extends m st r []); [apply f_equal, List.app_nil_r|].
  rewrite List.app_nil_r. exact H.
Qed.

Lemma written_app (a b : sweep_trace) : written (a ++ b) = (written a ++ written b)%list.
Proof.
  induction a as [|e a IH]; [reflexivity|].
  destruct e as [[]| | |]; cbn [app written]; rewrite IH; reflexivity.
Qed.

Lemma unlinked_app (a b : sweep_trace) :
  unlinked (a ++ b) = (unlinked a ++ unlinked b)%list.
Proof.
  induction a as [|e a IH]; [reflexivity|].
  destruct e; cbn [app unlinked]; rewrite IH; reflexivity.
Qed.

Lemma speed_rows_app (a b : sweep_trace) :
  speed_rows (a ++ b) = (speed_rows a ++ speed_rows b)%list.
Proof.
  induction a as [|e a IH]; [reflexivity|].
  destruct e; cbn [app speed_rows]; rewrite IH; reflexivity.
Qed.

(** Quiet events change none of the three readings. *)
Lemma quiet_stretch (added : trace) :
  forallb quiet added = true ->
  written (map Base added) = [] /\ unlinked (map Base added) = []
  /\ speed_rows (map Base added) = [].
Proof.
  induction added as [|e added IH]; intros H; [repeat split|].
  cbn [forallb] in H. apply andb_true_iff in H. destruct H as [He H].
  destruct (IH H) as (I2 & I3 & I4).
  destruct e; try discriminate He; cbn [map written unlinked speed_rows];
    repeat split; auto.
Qed.

Lemma tidy_nil : tidy [].
Proof. split; [reflexivity|]. cbn. lia. Qed.

Lemma tidy_app (a b : sweep_trace) : tidy a -> tidy b -> tidy (a ++ b).
Proof.
  intros (A2 & A3) (B2 & B3). unfold tidy.
  rewrite written_app, unlinked_app, speed_rows_app, A2, B2, !List.length_app.
  rewrite A2 in A3. rewrite B2 in B3. split; [reflexivity|lia].
Qed.

Lemma tidy_quiet (added : trace) : forallb quiet added = true -> tidy (map Base added).
Proof.
  intros H. destruct (quiet_stretch added H) as (I2 & I3 & I4).
  unfold tidy. rewrite I2, I3, I4. split; [reflexivity|]. cbn. lia.
Qed.

Lemma stopped_nil : stopped [].
Proof. exists []. repeat split; cbn; lia. Qed.

Lemma stopped_app (a b : sweep_trace) : tidy a -> stopped b -> stopped (a ++ b).
Proof.
  intros (A2 & A3) (leftover & L & B2 & B3). exists leftover.
  rewrite written_app, unlinked_app, speed_rows_app, A2, B2, !List.length_app.
  rewrite A2 in A3. split; [exact L|]. split; [|lia].
  rewrite List.app_assoc. reflexivity.
Qed.

(** A test file was created and the stretch stopped there. *)
Lemma stopped_after_write (name content : string) :
  stopped (map Base [WriteFile name content]).
Proof. exists [name]. repeat split; cbn; lia. Qed.

(** The stretch of one size factor: the test file is created, the command
    runs, something quiet or a row follows, [os.unlink] is called. *)
Lemma scenario_tidy (name content : string) (n : sweep_notice) (added : trace)
  (tail : sweep_trace) :
  forallb quiet added = true ->
  written tail = [] -> unlinked tail = [] ->
  (List.length (speed_rows tail) <= 1)%nat ->
  tidy (map Base [WriteFile name content] ++ [Notice n] ++ map Base added
          ++ tail ++ [Unlink name]).
Proof.
  intros Hq W U R. destruct (quiet_stretch added Hq) as (Q2 & Q3 & Q4).
  unfold tidy. cbn [map app written unlinked speed_rows].
  rewrite !written_app, !unlinked_app, !speed_rows_app, Q2, Q3, Q4, W, U.
  cbn [written unlinked speed_rows app List.length].
  split; [reflexivity|]. rewrite List.app_nil_r. lia.
Qed.

(** ** Loops that return tidily or stop *)

Lemma steps_weaken (P Q : exn -> Prop) (m : MS unit) :
  (forall e, P e -> Q e) -> steps_tidily P m -> steps_tidily Q m.
Proof.
  intros HPQ Hm st. destruct (Hm st) as [H|(e & evs & H & Hs & He)];
    [left; exact H|right; exists e, evs; auto].
Qed.

Lemma for_each_tidy {A : Type} (P : exn -> Prop) (body : A -> MS unit)
  (xs : list A) :
  (forall x, In x xs -> steps_tidily P (body x)) ->
  steps_tidily P (for_each xs body).
Proof.
  induction xs as [|x xs IH]; intros Hbody st.
  - left. exists []. cbn [for_each]. unfold ret. rewrite List.app_nil_r.
    split; [reflexivity|apply tidy_nil].
  - cbn [for_each]. unfold bind.
    destruct (Hbody x (or_introl eq_refl) st)
      as [(evs & -> & Hx)|(e & evs & -> & Hs & He)].
    + destruct (IH (fun y Hy => Hbody y (or_intror Hy)) (st ++ evs)%list)
        as [(evs' & -> & Hxs)|(e & evs' & -> & Hs & He)].
      * left. exists (evs ++ evs')%list. rewrite List.app_assoc.
        split; [reflexivity|apply tidy_app; assumption].
      * right. exists e, (evs ++ evs')%list. rewrite List.app_assoc.
        split; [reflexivity|]. split; [apply stopped_app; assumption|exact He].
    + right. exists e, evs. auto.
Qed.

Lemma lift_print_tidy (P : exn -> Prop) (n : notice) :
  steps_tidily P (lift (print n)).
Proof.
  intros st. left. exists (map Base [Print n]).
  split; [apply lift_extends; reflexivity|apply tidy_quiet; reflexivity].
Qed.

(** After a step that returned tidily, the next one decides. *)
Lemma then_tidy (P : exn -> Prop) (m : MS unit) (k : MS unit) :
  steps_tidily P m -> steps_tidily P k -> steps_tidily P (bind m (fun _ => k)).
Proof.
  intros Hm Hk st. unfold bind.
  destruct (Hm st) as [(evs & -> & Hx)|(e & evs & -> & Hs & He)].
  - destruct (Hk (st ++ evs)%list) as [(evs' & -> & Hxs)|(e & evs' & -> & Hs & He)].
    + left. exists (evs ++ evs')%list. rewrite List.app_assoc.
      split; [reflexivity|apply tidy_app; assumption].
    + right. exists e, (evs ++ evs')%list. rewrite List.app_assoc.
      split; [reflexivity|]. split; [apply stopped_app; assumption|exact He].
  - right. exists e, evs. auto.
Qed.

Section WithEnv.
Variable env : Env.

(** What [run_command] adds to the history is quiet. *)
Lemma run_command_quiet (config_file command cwd : string) (timeout : Z)
  (force_summary : bool) (tr : trace) :
  exists r added,
    Speed.run_command env config_file command cwd timeout force_summary tr
    = (r, (tr ++ added)%list)
    /\ forallb quiet added = true.
Proof.
  destruct (sh env tr (mkInvocation (cg_command config_file command force_summary)
                         cwd timeout)) as [first|out err] eqn:E.
  - destruct (Speed.wants_retry force_summary first) eqn:W.
    + rewrite (SpeedFacts.speed_run_command_retry env _ _ _ _ _ _ _ E W).
      match goal with
      | |- context [match sh env ?t ?i with _ => _ end] => destruct (sh env t i)
      end; eexists; eexists [_; _; _]; rewrite <- !List.app_assoc;
        (split; [reflexivity|reflexivity]).
    + rewrite (SpeedFacts.speed_run_command_single env _ _ _ _ _ _ _ E W).
      eexists; eexists [_]. split; reflexivity.
  - rewrite (SpeedFacts.speed_run_command_timeout env _ _ _ _ _ _ _ _ E).
    eexists; eexists [_]. split; reflexivity.
Qed.

(** How [write_test_file] ends: before a file is created, with a file half
    written, or with the file. *)
Lemma write_test_file_cases (max_tokens : Z) (size_factor : Speed.number)
  (tr : trace) :
  (exists e,
      Speed.write_test_file env max_tokens size_factor tr = (Raise e, tr)
      /\ (Speed.size_of max_tokens size_factor = Raise e \/ os_raises env e))
  \/ (exists e name content,
         Speed.write_test_file env max_tokens size_factor tr
         = (Raise e, (tr ++ [WriteFile name content])%list)
         /\ os_raises env e)
  \/ (exists name content,
         Speed.write_test_file env max_tokens size_factor tr
         = (Ok name, (tr ++ [WriteFile name content])%list)).
Proof.
  unfold Speed.write_test_file, Harness.bind, of_res, attempt.
  destruct (Speed.size_of max_tokens size_factor) as [size|e].
  - destruct (fault env tr MakeTemp) as [e|] eqn:F1.
    + left. exists e. split; [reflexivity|]. right. exists tr, MakeTemp. exact F1.
    + destruct (fault env tr (WriteTemp (mktemp env tr) size)) as [e|] eqn:F2.
      * right. left. exists e. eexists. eexists. split; [reflexivity|].
        exists tr. eexists. exact F2.
      * right. right. eexists. eexists. reflexivity.
  - left. exists e. split; [reflexivity|]. left. reflexivity.
Qed.

Lemma run_size_factor_tidy (repo_root model_name config_file config_path_full : string)
  (max_tokens : Z) (size_factor : Speed.number) :
  steps_tidily
    (fun e => os_raises env e \/ Speed.size_of max_tokens size_factor = Raise e)
    (run_size_factor env repo_root model_name config_file config_path_full
       max_tokens size_factor).
Proof.
  intros st.
  remember (run_size_factor env repo_root model_name config_file config_path_full
              max_tokens size_factor st) as out eqn:E.
  unfold run_size_factor in E. unfold bind at 1 in E.
  destruct (write_test_file_cases max_tokens size_factor (base_of st))
    as [(e & Hw & He)|[(e & name & content & Hw & He)|(name & content & Hw)]].
  - rewrite (lift_same _ st _ Hw) in E. subst out.
    right. exists e, []. rewrite List.app_nil_r.
    split; [reflexivity|]. split; [apply stopped_nil|tauto].
  - rewrite (lift_extends _ st _ [WriteFile name content] Hw) in E. subst out.
    right. exists e. eexists. split; [reflexivity|].
    split; [apply stopped_after_write|tauto].
  - rewrite (lift_extends _ st _ [WriteFile name content] Hw) in E.
    set (st1 := (st ++ map Base [WriteFile name content])%list) in *.
    unfold bind at 1, getsize at 1 in E. unfold bind at 1 in E.
    rewrite (lift_same (attempt env (GetSize name)) st1
               (match fault env (base_of st1) (GetSize name) with
                | Some e => Raise e
                | None => Ok tt
                end)) in E
      by (unfold attempt; destruct (fault env (base_of st1) _); reflexivity).
    destruct (fault env (base_of st1) (GetSize name)) as [e|] eqn:F.
    { subst out. right. exists e. eexists. split; [reflexivity|].
      split; [apply stopped_after_write|]. left. eexists. eexists. exact F. }
    set (file_size := match last_written name (base_of st1) with
                      | Some c => Z.of_nat (String.length c)
                      | None => 0%Z
                      end) in *.
    unfold try_finally, try_except, unlink in E.
    unfold bind at 1, emit at 1 in E.
    set (st2 := (st1 ++ [Notice (SizeFactorStart size_factor file_size)])%list) in *.
    unfold bind at 1 in E.
    destruct (run_command_quiet config_path_full ("cat " ++ name) repo_root
                TIMEOUT_SECONDS true (base_of st2)) as (r & added & Hrun & Hq).
    rewrite (lift_extends _ st2 r added Hrun) in E.
    destruct r as [[[exec_time stdout] exit_code]|e].
    + unfold bind, emit in E. subst out. left.
      eexists. split.
      * subst st2 st1. rewrite <- !List.app_assoc. reflexivity.
      * apply (scenario_tidy name content _ added [_; _] Hq);
          try reflexivity; cbn; lia.
    + rewrite (lift_extends (print (ErrorLine e)) _ (Ok tt) [Print (ErrorLine e)])
        in E; [|reflexivity].
      unfold emit in E. subst out. left.
      eexists. split.
      * subst st2 st1. rewrite <- !List.app_assoc. reflexivity.
      * apply (scenario_tidy name content _ added (map Base [_]) Hq);
          try reflexivity; cbn; lia.
Qed.

Lemma run_config_tidy (repo_root model_name : string) (max_tokens : Z)
  (size_factors : list Speed.number) (config_file : string) :
  steps_tidily
    (fun e => os_raises env e
              \/ exists size_factor,
                   In size_factor size_factors
                   /\ Speed.size_of max_tokens size_factor = Raise e)
    (run_config env repo_root model_name max_tokens size_factors config_file).
Proof.
  intros st.
  remember (run_config env repo_root model_name max_tokens size_factors
              config_file st) as out eqn:E.
  unfold run_config in E. unfold bind at 1 in E.
  rewrite (lift_same (exists_ env (config_path env config_file)) st
             (match fault env (base_of st) (PathExists (config_path env config_file)) with
              | Some e => Raise e
              | None => Ok (path_exists env (base_of st) (config_path env config_file))
              end)) in E
    by (unfold exists_, attempt, Harness.bind;
        destruct (fault env (base_of st) _); reflexivity).
  destruct (fault env (base_of st) _) as [e|] eqn:F.
  { subst out. right. exists e, []. rewrite List.app_nil_r. split; [reflexivity|].
    split; [apply stopped_nil|]. left. eexists. eexists. exact F. }
  subst out.
  destruct (negb (path_exists env (base_of st) (config_path env config_file))).
  - apply lift_print_tidy.
  - apply then_tidy; [apply lift_print_tidy|].
    apply for_each_tidy. intros size_factor Hin.
    eapply steps_weaken; [|apply run_size_factor_tidy].
    intros e [H|H]; [left; exact H|right; eauto].
Qed.

Lemma run_model_tidy (repo_root : string) (size_factors : list Speed.number)
  (model : ModelConfig) :
  steps_tidily
    (fun e => os_raises env e
              \/ exists size_factor,
                   In size_factor size_factors
                   /\ Speed.size_of (get (max_tokens model) 131072%Z) size_factor
                      = Raise e)
    (run_model env repo_root size_factors model).
Proof.
  unfold run_model.
  destruct (get (config_files model) []) as [|c cs].
  - apply lift_print_tidy.
  - apply for_each_tidy. intros x _. apply run_config_tidy.
Qed.

Lemma run_speed_evaluation_tidy (repo_root : string) (models : list ModelConfig)
  (size_factors : option (list Speed.number)) :
  steps_tidily
    (fun e => os_raises env e
              \/ exists model size_factor,
                   In model models
                   /\ In size_factor (get size_factors default_size_factors)
                   /\ Speed.size_of (get (max_tokens model) 131072%Z) size_factor
                      = Raise e)
    (run_speed_evaluation env repo_root models size_factors).
Proof.
  unfold run_speed_evaluation.
  apply then_tidy.
  { intros st. left. eexists. split; [reflexivity|].
    split; [reflexivity|]. cbn. lia. }
  apply then_tidy; [|apply lift_print_tidy].
  apply for_each_tidy. intros model Hin.
  eapply steps_weaken; [|apply run_model_tidy].
  intros e [H|(sf & Hsf & H)]; [left; exact H|right; eauto].
Qed.

End WithEnv.
End SpeedSweepFacts.

(* ================================================================== *)
(** * Properties of the speed sweep *)
(* ================================================================== *)

Module SpeedSweepProperties.
Import Harness SpeedSweep.


End SpeedSweepProperties.

(* ================================================================== *)
(** * Facts about formatting *)
(* ================================================================== *)

Module FormatFacts.
Import PyStr PyText StrFacts ConfigManager.

Lemma prepend_empty (r : formatted) : prepend "" r = r.
Proof. destruct r; reflexivity. Qed.

Lemma prepend_prepend (u v : string) (r : formatted) :
  prepend u (prepend v r) = prepend (u ++ v) r.
Proof. destruct r; cbn [prepend]; [rewrite StrFacts.app_assoc|..]; reflexivity. Qed.

Lemma prepend_Formatted (u : string) (r : formatted) (x : string) :
  prepend u r = Formatted x -> exists t, r = Formatted t /\ x = u ++ t.
Proof. destruct r; cbn [prepend]; intros [= <-]. eauto. Qed.

(** Formatting reads its template from left to right: a template whose
    first part formats on its own formats as that part's text followed by the
    rest's. *)
Lemma format_from_app (kwargs : list (string * string)) (n : nat) :
  forall a, (String.length a <= n)%nat ->
  forall field b x,
    format_from kwargs field a = Formatted x ->
    format_from kwargs field (a ++ b) = prepend x (format_from kwargs None b).
Proof.
  induction n as [|n IH]; intros a Hlen field b x H.
  - destruct a; [|cbn in Hlen; lia].
    destruct field; [discriminate|]. cbn in H. injection H as <-.
    cbn [append]. symmetry. apply prepend_empty.
  - destruct a as [|c r].
    { destruct field; [discriminate|]. cbn in H. injection H as <-.
      cbn [append]. symmetry. apply prepend_empty. }
    cbn [String.length] in Hlen. apply le_S_n in Hlen.
    change (String c r ++ b) with (String c (r ++ b)).
    cbn [format_from] in H |- *.
    destruct field as [name|].
    + destruct (Ascii.eqb c "}").
      * destruct (positional name); [discriminate|].
        destruct (lookup name kwargs) as [v|]; [|discriminate].
        apply prepend_Formatted in H. destruct H as (t & Ht & ->).
        rewrite (IH r Hlen None b t Ht), prepend_prepend. reflexivity.
      * destruct (special c); [discriminate|]. apply (IH r Hlen). exact H.
    + destruct (Ascii.eqb c "{").
      * destruct r as [|c' r']; [discriminate|].
        change (String c' r' ++ b) with (String c' (r' ++ b)).
        cbv beta iota.
        destruct (Ascii.eqb c' "{").
        -- apply prepend_Formatted in H. destruct H as (t & Ht & ->).
           cbn [String.length] in Hlen.
           rewrite (IH r' ltac:(lia) None b t Ht), prepend_prepend. reflexivity.
        -- change (String c' (r' ++ b)) with (String c' r' ++ b).
           apply (IH (String c' r') Hlen). exact H.
      * destruct (Ascii.eqb c "}").
        -- destruct r as [|c' r']; [discriminate|].
           change (String c' r' ++ b) with (String c' (r' ++ b)).
           cbv beta iota.
           destruct (Ascii.eqb c' "}"); [|discriminate].
           apply prepend_Formatted in H. destruct H as (t & Ht & ->).
           cbn [String.length] in Hlen.
           rewrite (IH r' ltac:(lia) None b t Ht), prepend_prepend. reflexivity.
        -- apply prepend_Formatted in H. destruct H as (t & Ht & ->).
           rewrite (IH r Hlen None b t Ht), prepend_prepend. reflexivity.
Qed.

(** A mark that opens the text of a later part of the template occurs in
    the text of the whole. *)
Lemma format_occurs (kwargs : list (string * string))
  (template pre rest x mark after content : string) :
  template = pre ++ rest ->
  format pre kwargs = Formatted x ->
  format rest kwargs = Formatted (mark ++ after) ->
  format template kwargs = Formatted content ->
  contains mark content = true.
Proof.
  unfold format. intros -> Hpre Hrest H.
  rewrite (format_from_app kwargs _ pre (le_n _) None rest x Hpre), Hrest in H.
  cbn [prepend] in H. injection H as <-.
  apply contains_true_iff. exists x, after. reflexivity.
Qed.

End FormatFacts.

(* ================================================================== *)
(** * Facts about the config manager *)
(* ================================================================== *)

Module ConfigManagerFacts.
Import PyStr PyText StrFacts TextFacts ConfigManager.

Lemma config_content_formats (model_name provider_type provider_url : string)
  (summary_words : Z) (output_length_threshold : option Z) :
  exists content,
    config_content model_name provider_type provider_url summary_words
      output_length_threshold = Formatted content
    /\ contains "[provider]" content = true.
Proof.
  eexists. split.
  - unfold config_content, format. vm_compute. reflexivity.
  - apply contains_true_iff.
    exists (fst (get (split1 "[provider]" DEFAULT_CONFIG_TEMPLATE) ("", ""))).
    eexists. vm_compute. reflexivity.
Qed.

Lemma entry_content_formats (model_name : string) (model_config : ModelEntry) :
  exists content,
    entry_content model_name model_config = Formatted content
    /\ contains "[provider]" content = true.
Proof. unfold entry_content. apply config_content_formats. Qed.

Lemma swap_char_app (c d : ascii) (a b : string) :
  swap_char c d (a ++ b) = swap_char c d a ++ swap_char c d b.
Proof. induction a as [|x a IH]; cbn; [|rewrite IH]; reflexivity. Qed.

Lemma swap_char_gone (c d : ascii) (s : string) :
  Ascii.eqb d c = false -> all_chars (fun x => negb (Ascii.eqb x c)) (swap_char c d s) = true.
Proof.
  intros Hd. induction s as [|x s IH]; [reflexivity|].
  cbn [swap_char all_chars]. rewrite IH, andb_true_r.
  destruct (Ascii.eqb x c) eqn:E; [rewrite Hd|rewrite E]; reflexivity.
Qed.

Lemma config_filename_chars (model_name : string) :
  config_filename model_name = swap_char "/" "-" model_name ++ ".toml".
Proof. unfold config_filename. rewrite replace_char. reflexivity. Qed.

Lemma config_filename_collides (x y : string) :
  config_filename (x ++ "/" ++ y) = config_filename (x ++ "-" ++ y).
Proof. rewrite !config_filename_chars, !swap_char_app. reflexivity. Qed.

Section WithFileSystem.
Variable file_of : string -> string.
Variable fs_fault : World -> fs_call -> option string.
Variable fs_torn : World -> nat.
Variable join : string -> string -> string.

Lemma validate_valid (path : string) (w : World) :
  valid file_of path w ->
  fs_fault w (Exists path) = None -> fs_fault w (ReadText path) = None ->
  validate_config_file file_of fs_fault path w = Verdict true w.
Proof.
  intros (content & Hr & Hc) He Ht. unfold validate_config_file.
  rewrite He, Hr, Ht, Hc. reflexivity.
Qed.

Lemma validated_valid (path : string) (w w0 : World) :
  validate_config_file file_of fs_fault path w = Verdict true w0 ->
  valid file_of path w.
Proof.
  unfold validate_config_file, valid.
  destruct (fs_fault w (Exists path)); [discriminate|].
  destruct (read file_of path w) as [content|]; [|discriminate].
  destruct (fs_fault w (ReadText path)); [discriminate|].
  destruct (contains "[provider]" content) eqn:C; [|discriminate].
  intros _. exists content. auto.
Qed.

Lemma read_say (path line : string) (w : World) :
  read file_of path (say line w) = read file_of path w.
Proof. reflexivity. Qed.

Lemma read_write (path p content : string) (w : World) :
  read file_of path (write file_of p content w)
  = if String.eqb (file_of p) (file_of path) then Some content
    else read file_of path w.
Proof. reflexivity. Qed.

Lemma read_write_other (path p content : string) (w : World) :
  file_of path <> file_of p ->
  read file_of path (write file_of p content w) = read file_of path w.
Proof.
  intros Hne. rewrite read_write.
  destruct (String.eqb (file_of p) (file_of path)) eqn:E; [|reflexivity].
  apply String.eqb_eq in E. congruence.
Qed.

(** How [generate_config_file] ends: with the file written and the line
    printed, or stopped by the file system, which then has changed at most
    the one file. *)
Lemma generate_config_file_cases (output_path model_name provider_type
  provider_url : string) (summary_words : Z) (output_length_threshold : option Z)
  (w : World) :
  exists content,
    config_content model_name provider_type provider_url summary_words
      output_length_threshold = Formatted content
    /\ contains "[provider]" content = true
    /\ (generate_config_file file_of fs_fault fs_torn output_path model_name
          provider_type provider_url summary_words output_length_threshold w
        = Done (say ("Generated config file: " ++ output_path)
                  (write file_of output_path content w))
        \/ exists message call w',
             generate_config_file file_of fs_fault fs_torn output_path model_name
               provider_type provider_url summary_words output_length_threshold w
             = Raised (OsFailure message) w'
             /\ fs_fault w call = Some message
             /\ printed w' = printed w
             /\ (forall other, file_of other <> file_of output_path ->
                               read file_of other w' = read file_of other w)).
Proof.
  destruct (config_content_formats model_name provider_type provider_url
              summary_words output_length_threshold) as (content & Hc & Hp).
  exists content. split; [exact Hc|]. split; [exact Hp|].
  unfold generate_config_file. rewrite Hc.
  destruct (fs_fault w (MakeParent output_path)) as [m|] eqn:F1.
  { right. exists m. eexists. eexists. split; [reflexivity|]. split; [exact F1|].
    split; reflexivity. }
  destruct (fs_fault w (OpenWrite output_path)) as [m|] eqn:F2.
  { right. exists m. eexists. eexists. split; [reflexivity|]. split; [exact F2|].
    split; reflexivity. }
  destruct (fs_fault w (WriteText output_path content)) as [m|] eqn:F3.
  { right. exists m. eexists. eexists. split; [reflexivity|]. split; [exact F3|].
    split; [reflexivity|]. intros other Hne. apply read_write_other, Hne. }
  left. reflexivity.
Qed.

(** The loop over the models, when it returns, keeps valid files valid and
    leaves a valid file for each model; only the file system stops it. *)
Lemma generate_each_valid (models : list (string * ModelEntry))
  (output_dir : string) (w : World) :
  match generate_each file_of fs_fault fs_torn join models output_dir w with
  | Done w' =>
      (forall path, valid file_of path w -> valid file_of path w')
      /\ (forall name cfg, In (name, cfg) models ->
                           valid file_of (join output_dir (config_filename name)) w')
  | Raised e _ => exists message, e = OsFailure message
  end.
Proof.
  revert w. induction models as [|[name cfg] rest IH]; intros w.
  - cbn [generate_each]. split; [auto|intros ? ? []].
  - cbn [generate_each].
    destruct (generate_config_file_cases
                (join output_dir (config_filename name)) name
                (get (entry_provider_type cfg) "lmstudio")
                (get (entry_provider_url cfg) "http://127.0.0.1:1234")
                (get (entry_summary_words cfg) 100%Z)
                (Some (get (entry_output_length_threshold cfg)
                         (get (entry_summary_words cfg) 100%Z))) w)
      as (content & _ & Hp & [-> | (m & call & w' & -> & _)]);
      [|exists m; reflexivity].
    set (w1 := say _ (write file_of _ content w)).
    specialize (IH w1).
    destruct (generate_each file_of fs_fault fs_torn join rest output_dir w1)
      as [w'|e w']; [|exact IH].
    destruct IH as [Hkeep Hnew].
    assert (Hstep : forall path, valid file_of path w -> valid file_of path w1).
    { intros path (c & Hr & Hc). unfold valid, w1. rewrite read_say, read_write.
      destruct (String.eqb _ (file_of path)); [exists content|exists c]; auto. }
    assert (Hown : valid file_of (join output_dir (config_filename name)) w1).
    { exists content. unfold w1. rewrite read_say, read_write, String.eqb_refl. auto. }
    split; [auto|].
    intros n c [[= -> ->]|Hin]; [auto|eauto].
Qed.

End WithFileSystem.
End ConfigManagerFacts.

(* ================================================================== *)
(** * Properties of the config manager *)
(* ================================================================== *)

Module ConfigManagerProperties.
Import PyStr PyText StrFacts TextFacts ConfigManager ConfigManagerFacts.

(** The mark occurs in the formatted text: it opens the text of the part of
    the template that begins at [start], which is found by computing. *)
Ltac occurs_from start Hc :=
  match type of Hc with
  | format _ ?kwargs = _ =>
      eapply (FormatFacts.format_occurs kwargs DEFAULT_CONFIG_TEMPLATE
                (fst (get (split1 start DEFAULT_CONFIG_TEMPLATE) ("", "")))
                (start ++ snd (get (split1 start DEFAULT_CONFIG_TEMPLATE) ("", ""))));
      [ vm_compute; reflexivity
      | vm_compute; reflexivity
      | rewrite ?StrFacts.app_assoc; vm_compute; reflexivity
      | exact Hc ]
  end.



(** X13.  The text [generate_config_file] writes: the three provider lines hold the
    provider type, the URL and the model name, quoted and otherwise as they
    were given; the two numbers follow the prompt, the threshold being the
    number of summary words when it is left out; and the prompt keeps its
    placeholders, each with single braces. *)
Theorem generated_config_text (model_name provider_type provider_url : string)
  (summary_words : Z) (output_length_threshold : option Z) :
  exists content,
    config_content model_name provider_type provider_url summary_words
      output_length_threshold = Formatted content
    /\ contains ("[provider]" ++ nl
                 ++ "type = " ++ dq ++ provider_type ++ dq ++ nl
                 ++ "url = " ++ dq ++ provider_url ++ dq ++ nl
                 ++ "model = " ++ dq ++ model_name ++ dq ++ nl) content = true
    /\ contains ("summary_words = " ++ Speed.str_of_int summary_words ++ nl
                 ++ "output_length_threshold = "
                 ++ Speed.str_of_int (get output_length_threshold summary_words)
                 ++ nl) content = true
    /\ Forall (fun placeholder => contains placeholder content = true)
         ["${recent_commands}"; "${command}"; "${exit_code}"; "${output}";
          "${summary_words}"].
Proof.
  destruct (config_content_formats model_name provider_type provider_url
              summary_words output_length_threshold) as (content & Hc & _).
  exists content. split; [exact Hc|].
  unfold config_content in Hc.
  split; [|split]; [| |repeat constructor].
  - occurs_from "[provider]" Hc.
  - occurs_from "summary_words = {" Hc.
  - occurs_from "${{recent_commands}}" Hc.
  - occurs_from "${{command}}" Hc.
  - occurs_from "${{exit_code}}" Hc.
  - occurs_from "${{output}}" Hc.
  - occurs_from "${{summary_words}}" Hc.
Qed.

(** X14.  The file name [generate_configs_from_models] gives a model: the model
    name with every slash turned into a hyphen, then .toml.  It holds no slash,
    and two model names that differ only in a slash against a hyphen get the
    same file name. *)
Theorem config_filename_flattens (model_name : string) :
  config_filename model_name = swap_char "/" "-" model_name ++ ".toml"
  /\ contains "/" (config_filename model_name) = false
  /\ String.length (config_filename model_name) = (String.length model_name + 5)%nat
  /\ (forall x y, model_name = x ++ "/" ++ y ->
                  config_filename model_name = config_filename (x ++ "-" ++ y)).
Proof.
  split; [apply config_filename_chars|]. split; [|split].
  - rewrite config_filename_chars.
    apply (all_chars_no_char (fun x => negb (Ascii.eqb x "/"))); [reflexivity|].
    rewrite all_chars_app, swap_char_gone; reflexivity.
  - rewrite config_filename_chars, length_app, length_swap_char. reflexivity.
  - intros x y ->. apply config_filename_collides.
Qed.





End ConfigManagerProperties.

(* ================================================================== *)
(** * Properties of the challenge script *)
(* ================================================================== *)

Module ScriptProperties.
Import PyStr Script.

(** X17.  [validate_payload] (script.py) accepts exactly an object whose records
    entry is a non-empty list.  Anything else raises: a ValueError with one of
    the three messages, or a TypeError for a payload that is no object (a
    list or a string that holds the word records, a number, a truth value,
    null). *)
Theorem validate_payload_accepts (payload : json) :
  (validate_payload payload = Returned tt
   <-> exists items first rest,
         payload = JObject items
         /\ item "records" items = Some (JList (first :: rest)))
  /\ (forall e, validate_payload payload = Failed e ->
        e = TypeError
        \/ e = ValueError "Input JSON missing 'records' key."
        \/ e = ValueError "The 'records' field must be a list of items to process."
        \/ e = ValueError "No records provided in the input file.")
  /\ (validate_payload payload = Failed TypeError
      <-> match payload with
          | JObject _ => False
          | JList items => existsb (is_string "records") items = true
          | JString s => contains "records" s = true
          | _ => True
          end).
Proof.
  assert (Hobj : forall items,
             (exists items' first rest,
                 JObject items = JObject items'
                 /\ item "records" items' = Some (JList (first :: rest)))
             <-> exists first rest, item "records" items = Some (JList (first :: rest))).
  { intros items. split.
    - intros (items' & first & rest & [= <-] & H). eauto.
    - intros (first & rest & H). eauto 6. }
  unfold validate_payload.
  destruct payload as [| b | q | s | items | items]; cbn [py_in getitem then_].
  1-3: split; [|split];
    [ split; [discriminate|intros (? & ? & ? & [=] & _)]
    | intros e [= <-]; auto
    | split; auto ].
  - destruct (contains "records" s); cbn [negb then_ getitem];
      (split; [|split];
       [ split; [discriminate|intros (? & ? & ? & [=] & _)]
       | intros e [= <-]; auto
       | split; try discriminate; auto ]).
  - destruct (existsb (is_string "records") items); cbn [negb then_ getitem];
      (split; [|split];
       [ split; [discriminate|intros (? & ? & ? & [=] & _)]
       | intros e [= <-]; auto
       | split; try discriminate; auto ]).
  - rewrite Hobj.
    destruct (item "records" items) as [[| b | q | s | [|first rest] | fields]|];
      cbn [negb then_ isinstance_list truthy];
      (split; [|split];
       [ split; [try discriminate; eauto|try (intros (? & ? & [=])); auto]
       | intros e; try discriminate; intros [= <-]; auto 6
       | split; [discriminate|intros []] ]).
Qed.

(** X18.  [main] (script.py) ends normally, with nothing on standard error, exactly
    when the input file is there, is JSON and passes [validate_payload].  In
    every other case it prints the one line on standard error and raises the
    exception it caught: a FileNotFoundError that names the path when the
    file is missing. *)
Theorem main_reports_and_reraises (file : input_file) :
  (snd (main file) = Returned tt
   <-> exists payload, file = Json payload /\ validate_payload payload = Returned tt)
  /\ (snd (main file) = Returned tt -> fst (main file) = [])
  /\ (forall e, snd (main file) = Failed e ->
        fst (main file) = ["Processing failed before any records were handled."]
        /\ then_ (load_input file) validate_payload = Failed e)
  /\ (file = Missing ->
      exists message,
        snd (main file) = Failed (FileNotFoundError message)
        /\ contains INPUT_PATH message = true).
Proof.
  unfold main.
  destruct file as [| | payload]; cbn [load_input then_ fst snd].
  - split; [|split; [|split]].
    + split; [discriminate|intros (? & [=] & _)].
    + discriminate.
    + intros e [= <-]. split; reflexivity.
    + intros _. eexists. split; [reflexivity|]. vm_compute. reflexivity.
  - split; [|split; [|split]].
    + split; [discriminate|intros (? & [=] & _)].
    + discriminate.
    + intros e [= <-]. split; reflexivity.
    + discriminate.
  - destruct (validate_payload payload) as [[]|e0] eqn:E; cbn [fst snd];
      (split; [|split; [|split]]).
    + split; [intros _; exists payload; auto|reflexivity].
    + reflexivity.
    + discriminate.
    + discriminate.
    + split; [discriminate|intros (p & [= <-] & H); congruence].
    + discriminate.
    + intros e [= <-]. split; reflexivity.
    + discriminate.
Qed.

End ScriptProperties.
